(** * unregex: tokenizers, token explainers and feature tables

    A shallow embedding of package [format] of unregex: the scan
    primitives of format.go, the five tokenizers ([GoFormat], [PcreFormat],
    [PosixFormat], [JsFormat], [PythonFormat]), their feature tables and
    token explainers, the registry [GetFormat] and the format names of
    package [utils], followed by the theorems about them.

    Go strings are byte sequences: they are modelled by [string] (a list of
    8-bit [ascii] values).  Go's [int] indices are modelled by [Z]; every
    index the tokenizers compute is at most [len pattern + 10], far below
    the 63-bit bound, so no wrap-around arises.  An index or a slice out of
    range panics in Go: [index] and [slice] return [Panic] there, and the
    tokenizers are written in the error monad [result].  The loops whose
    counter is changed by their body run on fuel; [OutOfFuel] is a third
    outcome, and the theorems show it never arises. *)

From Stdlib Require Import ZArith Lia Ascii String List Bool.
From stdpp Require Import base option list strings gmap.

Local Open Scope Z_scope.

(** ** The error monad *)

Inductive result (A : Type) : Type :=
  | Ok (a : A)
  | Panic
  | OutOfFuel.
Arguments Ok {A} a.
Arguments Panic {A}.
Arguments OutOfFuel {A}.

Definition bind {A B : Type} (m : result A) (f : A → result B) : result B :=
  match m with
  | Ok a => f a
  | Panic => Panic
  | OutOfFuel => OutOfFuel
  end.

Notation "'let*' x ':=' m 'in' k" := (bind m (fun x => k))
  (at level 10, x name, m at level 100, k at level 200).

(** Go's short-circuit [&&] and [||] over operands that may panic: the
    right operand is evaluated only when the left one does not decide. *)
Definition and_then (m1 m2 : result bool) : result bool :=
  let* b := m1 in if b then m2 else Ok false.
Definition or_else (m1 m2 : result bool) : result bool :=
  let* b := m1 in if b then Ok true else m2.
Infix "&&&" := and_then (at level 40, left associativity).
Infix "|||" := or_else (at level 50, left associativity).
Abbreviation pure b := (Ok (b : bool)) (only parsing).

(** ** Go strings *)

Module Go.

Definition len (s : string) : Z := Z.of_nat (String.length s).

(** [s[i]] *)
Definition index (s : string) (i : Z) : result ascii :=
  if (0 <=? i) && (i <? len s) then
    match String.get (Z.to_nat i) s with
    | Some c => Ok c
    | None => Panic
    end
  else Panic.

(** [s[lo:hi]] *)
Definition slice (s : string) (lo hi : Z) : result string :=
  if (0 <=? lo) && (lo <=? hi) && (hi <=? len s) then
    Ok (String.substring (Z.to_nat lo) (Z.to_nat (hi - lo)) s)
  else Panic.

(** [s[lo:]] *)
Definition slice_from (s : string) (lo : Z) : result string :=
  slice s lo (len s).

Definition byte_val (c : ascii) : Z := Z.of_N (N_of_ascii c).
Definition byte_of (z : Z) : ascii := ascii_of_N (Z.to_N z).

(** [s[i] == c] and [s[i] != c] *)
Definition index_eq (s : string) (i : Z) (c : ascii) : result bool :=
  let* b := index s i in Ok (Ascii.eqb b c).
Definition index_ne (s : string) (i : Z) (c : ascii) : result bool :=
  let* b := index s i in Ok (negb (Ascii.eqb b c)).

(** *** UTF-8, as [unicode/utf8] encodes and decodes it *)

Definition RuneError : Z := 65533.

(** [utf8.AppendRune]: what [string(r)] and the verb [%c] produce. *)
Definition utf8_encode (r : Z) : string :=
  if (0 <=? r) && (r <=? 127) then String (byte_of r) ""
  else if (0 <=? r) && (r <=? 2047) then
    String (byte_of (Z.lor 192 (Z.shiftr r 6)))
      (String (byte_of (Z.lor 128 (Z.land r 63))) "")
  else if (r <? 0) || (1114111 <? r) || ((55296 <=? r) && (r <=? 57343)) then
    String (byte_of 239) (String (byte_of 191) (String (byte_of 189) ""))
  else if r <=? 65535 then
    String (byte_of (Z.lor 224 (Z.shiftr r 12)))
      (String (byte_of (Z.lor 128 (Z.land (Z.shiftr r 6) 63)))
         (String (byte_of (Z.lor 128 (Z.land r 63))) ""))
  else
    String (byte_of (Z.lor 240 (Z.shiftr r 18)))
      (String (byte_of (Z.lor 128 (Z.land (Z.shiftr r 12) 63)))
         (String (byte_of (Z.lor 128 (Z.land (Z.shiftr r 6) 63)))
            (String (byte_of (Z.lor 128 (Z.land r 63))) ""))).

(** [string(b)] for a byte [b]: the UTF-8 encoding of the code point [b]. *)
Definition string_of_byte (c : ascii) : string := utf8_encode (byte_val c).

(** The table [first] of [unicode/utf8] together with [acceptRanges]: for a
    leading byte, the length of the sequence and the range its second byte
    must lie in. *)
Definition utf8_first (b0 : Z) : option (Z * Z * Z) :=
  if (194 <=? b0) && (b0 <=? 223) then Some (2, 128, 191)
  else if b0 =? 224 then Some (3, 160, 191)
  else if (225 <=? b0) && (b0 <=? 236) then Some (3, 128, 191)
  else if b0 =? 237 then Some (3, 128, 159)
  else if (238 <=? b0) && (b0 <=? 239) then Some (3, 128, 191)
  else if b0 =? 240 then Some (4, 144, 191)
  else if (241 <=? b0) && (b0 <=? 243) then Some (4, 128, 191)
  else if b0 =? 244 then Some (4, 128, 143)
  else None.

Definition is_cont (b : Z) : bool := (128 <=? b) && (b <=? 191).

(** [for _, r := range s]: the runes of [s]; a byte that starts no valid
    sequence yields [RuneError] and is skipped alone. *)
Fixpoint runes (s : string) : list Z :=
  match s with
  | EmptyString => []
  | String a0 s1 =>
    let b0 := byte_val a0 in
    if b0 <? 128 then b0 :: runes s1
    else
      match utf8_first b0, s1 with
      | Some (sz, lo, hi), String a1 s2 =>
        let b1 := byte_val a1 in
        if (b1 <? lo) || (hi <? b1) then RuneError :: runes s1
        else if sz =? 2 then
          Z.lor (Z.shiftl (Z.land b0 31) 6) (Z.land b1 63) :: runes s2
        else
          match s2 with
          | String a2 s3 =>
            let b2 := byte_val a2 in
            if negb (is_cont b2) then RuneError :: runes s1
            else if sz =? 3 then
              Z.lor (Z.lor (Z.shiftl (Z.land b0 15) 12)
                           (Z.shiftl (Z.land b1 63) 6)) (Z.land b2 63)
              :: runes s3
            else
              match s3 with
              | String a3 s4 =>
                let b3 := byte_val a3 in
                if negb (is_cont b3) then RuneError :: runes s1
                else
                  Z.lor (Z.lor (Z.lor (Z.shiftl (Z.land b0 7) 18)
                                      (Z.shiftl (Z.land b1 63) 12))
                               (Z.shiftl (Z.land b2 63) 6)) (Z.land b3 63)
                  :: runes s4
              | EmptyString => RuneError :: runes s1
              end
          | EmptyString => RuneError :: runes s1
          end
      | _, _ => RuneError :: runes s1
      end
  end.

(** *** Package [strings] *)

Fixpoint IndexByte_from (s : string) (c : ascii) (k : Z) : Z :=
  match s with
  | EmptyString => -1
  | String a s' => if Ascii.eqb a c then k else IndexByte_from s' c (k + 1)
  end.

(** [strings.IndexByte(s, c)] *)
Definition IndexByte (s : string) (c : ascii) : Z := IndexByte_from s c 0.

Fixpoint Index_from (s substr : string) (k : Z) : Z :=
  if String.prefix substr s then k
  else
    match s with
    | EmptyString => -1
    | String _ s' => Index_from s' substr (k + 1)
    end.

(** [strings.Index(s, substr)] *)
Definition Index (s substr : string) : Z := Index_from s substr 0.

Fixpoint LastIndex_from (s substr : string) (k last : Z) : Z :=
  let last' := if String.prefix substr s then k else last in
  match s with
  | EmptyString => last'
  | String _ s' => LastIndex_from s' substr (k + 1) last'
  end.

(** [strings.LastIndex(s, substr)] *)
Definition LastIndex (s substr : string) : Z := LastIndex_from s substr 0 (-1).

Definition HasPrefix (s prefix : string) : bool := String.prefix prefix s.

Definition HasSuffix (s suffix : string) : bool :=
  let n := String.length s in
  let m := String.length suffix in
  (m <=? n)%nat && String.eqb (String.substring (n - m) m s) suffix.

Definition Contains (s substr : string) : bool := 0 <=? Index s substr.

(** [strings.Split(s, sep)] for a non-empty [sep]; [skip] counts the bytes
    of a separator still to be passed over. *)
Fixpoint Split_go (s sep : string) (skip : nat) (piece : string) : list string :=
  match s with
  | EmptyString => [piece]
  | String c s' =>
    match skip with
    | S k => Split_go s' sep k piece
    | O =>
      if String.prefix sep s then
        piece :: Split_go s' sep (String.length sep - 1) ""
      else Split_go s' sep 0 (piece +:+ String c "")
    end
  end.

Definition Split (s sep : string) : list string := Split_go s sep 0 "".

(** [strings.Join(elems, sep)] *)
Fixpoint Join (elems : list string) (sep : string) : string :=
  match elems with
  | [] => ""
  | [e] => e
  | e :: rest => e +:+ sep +:+ Join rest sep
  end.

End Go.

Import Go.

Definition backslash : ascii := "\".
Definition dquote : ascii := Eval cbv in ascii_of_nat 34.
Definition backslash_s : string := String backslash "".

(** ** Feature keys (format.go) *)

Definition FeatureLookahead : string := "lookahead".
Definition FeatureLookbehind : string := "lookbehind".
Definition FeatureNamedGroup : string := "named_group".
Definition FeatureAtomicGroup : string := "atomic_group".
Definition FeatureConditional : string := "conditional".
Definition FeaturePossessive : string := "possessive".
Definition FeatureUnicodeClass : string := "unicode_class".
Definition FeatureRecursion : string := "recursion".
Definition FeatureBackreference : string := "backreference".
Definition FeatureNamedBackref : string := "named_backref".

Definition feature_keys : list string :=
  [FeatureLookahead; FeatureLookbehind; FeatureNamedGroup; FeatureAtomicGroup;
   FeatureConditional; FeaturePossessive; FeatureUnicodeClass;
   FeatureRecursion; FeatureBackreference; FeatureNamedBackref].

(** [m[key]] on a Go [map[string]bool]: the zero value [false] when the key
    is absent. *)
Definition map_index (m : gmap string bool) (key : string) : bool :=
  default false (m !! key).

(** ** Scan primitives (format.go) *)

(** The loop of [FindClosingBracket]; [n] is the number of iterations left,
    [len(pattern) - i]. *)
Fixpoint FindClosingBracket_loop (n : nat) (pattern : string) (start i : Z)
  : result Z :=
  match n with
  | O => Ok (-1)
  | S n' =>
    let* found := index_eq pattern i "]"
              &&& (pure (i =? start + 1) ||| index_ne pattern (i - 1) backslash) in
    if found then Ok i else FindClosingBracket_loop n' pattern start (i + 1)
  end.

Definition FindClosingBracket (pattern : string) (start : Z) : result Z :=
  FindClosingBracket_loop (Z.to_nat (len pattern - (start + 1)))
    pattern start (start + 1).

Fixpoint FindClosingCurlyBrace_loop (n : nat) (pattern : string) (i : Z)
  : result Z :=
  match n with
  | O => Ok (-1)
  | S n' =>
    let* found := index_eq pattern i "}" &&& index_ne pattern (i - 1) backslash in
    if found then Ok i else FindClosingCurlyBrace_loop n' pattern (i + 1)
  end.

Definition FindClosingCurlyBrace (pattern : string) (start : Z) : result Z :=
  FindClosingCurlyBrace_loop (Z.to_nat (len pattern - (start + 1)))
    pattern (start + 1).

(** The loop of [FindClosingParenthesis]; its body advances [i] itself past
    an escaped byte, so the loop runs on fuel. *)
Fixpoint FindClosingParenthesis_loop (fuel : nat) (pattern : string)
  (i depth : Z) : result Z :=
  if i <? len pattern then
    match fuel with
    | O => OutOfFuel
    | S fuel' =>
      let* escaped := index_eq pattern i backslash
                        &&& pure (i + 1 <? len pattern) in
      if escaped then FindClosingParenthesis_loop fuel' pattern (i + 1 + 1) depth
      else
        let* c := index pattern i in
        if Ascii.eqb c "(" then
          FindClosingParenthesis_loop fuel' pattern (i + 1) (depth + 1)
        else if Ascii.eqb c ")" then
          let depth := depth - 1 in
          if depth =? 0 then Ok i
          else FindClosingParenthesis_loop fuel' pattern (i + 1) depth
        else FindClosingParenthesis_loop fuel' pattern (i + 1) depth
    end
  else Ok (-1).

Definition FindClosingParenthesis (pattern : string) (start : Z) : result Z :=
  FindClosingParenthesis_loop (Z.to_nat (len pattern - (start + 1)))
    pattern (start + 1) 1.

(** [isHexDigit] (js.go) *)
Definition isHexDigit (b : ascii) : bool :=
  let v := byte_val b in
  ((byte_val "0" <=? v) && (v <=? byte_val "9"))
  || ((byte_val "a" <=? v) && (v <=? byte_val "f"))
  || ((byte_val "A" <=? v) && (v <=? byte_val "F")).

(** ** The tokenizer loop

    Every [TokenizeRegex] is one [for i := 0; i < len(pattern); i++] loop
    over the locals [i], [tokens] and [currentToken], whose body is a
    sequence of [if] blocks.  A block either ends the iteration
    ([continue]) or falls through to the next block, possibly after it
    flushed [currentToken]. *)

Record st : Type := mkSt {
  idx : Z;              (* i *)
  tokens : list string; (* tokens *)
  cur : string          (* currentToken *)
}.

Inductive flow : Type :=
  | Continue (s : st)
  | Fall (s : st).

Definition block : Type := string → ascii → st → result flow.

(** [if currentToken.Len() > 0 { tokens = append(tokens, currentToken.String()); currentToken.Reset() }] *)
Definition flush (s : st) : st :=
  if 0 <? len (cur s) then mkSt (idx s) (tokens s ++ [cur s]) "" else s.

(** [tokens = append(tokens, tok)] *)
Definition emit (tok : string) (s : st) : st :=
  mkSt (idx s) (tokens s ++ [tok]) (cur s).

(** [i = j] *)
Definition goto (j : Z) (s : st) : st := mkSt j (tokens s) (cur s).

(** [currentToken.WriteByte(char)] *)
Definition write_byte (c : ascii) (s : st) : st :=
  mkSt (idx s) (tokens s) (cur s +:+ String c "").

Definition seq_block (b1 b2 : block) : block := fun pattern char s =>
  let* r := b1 pattern char s in
  match r with
  | Continue s' => Ok (Continue s')
  | Fall s' => b2 pattern char s'
  end.
Infix ";>" := seq_block (at level 60, right associativity).

(** One iteration: read [char := pattern[i]], run the blocks; the last
    block of every tokenizer is the default case, which always continues. *)
Definition iteration (body : block) (pattern : string) (s : st) : result st :=
  let* char := index pattern (idx s) in
  let* r := body pattern char s in
  match r with
  | Continue s' => Ok s'
  | Fall s' => Ok s'
  end.

Fixpoint tokenize_loop (body : block) (fuel : nat) (pattern : string) (s : st)
  : result (list string) :=
  if idx s <? len pattern then
    match fuel with
    | O => OutOfFuel
    | S fuel' =>
      let* s' := iteration body pattern s in
      tokenize_loop body fuel' pattern (goto (idx s' + 1) s')
    end
  else Ok (tokens (flush s)).

(** *** Blocks that are the same text in all five tokenizers *)

(** [end := FindClosingBracket(pattern, i); if end > i { tokens = append(tokens, pattern[i:end+1]); i = end; continue }] *)
Definition class_scan (pattern : string) (s : st) : result flow :=
  let* e := FindClosingBracket pattern (idx s) in
  if e >? idx s then
    let* tok := slice pattern (idx s) (e + 1) in
    Ok (Continue (goto e (emit tok s)))
  else Ok (Fall s).

(** Character classes: [if char == '[' { ... }] *)
Definition char_class_block : block := fun pattern char s =>
  if Ascii.eqb char "[" then class_scan pattern (flush s)
  else Ok (Fall s).

(** Two-character escapes: [if char == '\\' && i+1 < len(pattern) { ... }] *)
Definition escape_block : block := fun pattern char s =>
  if Ascii.eqb char backslash && (idx s + 1 <? len pattern) then
    let s := flush s in
    let* tok := slice pattern (idx s) (idx s + 2) in
    Ok (Continue (goto (idx s + 1) (emit tok s)))
  else Ok (Fall s).

(** Brace quantifiers: [if char == '{' { ... }] *)
Definition brace_block : block := fun pattern char s =>
  if Ascii.eqb char "{" then
    let s := flush s in
    let* e := FindClosingCurlyBrace pattern (idx s) in
    if e >? idx s then
      let* tok := slice pattern (idx s) (e + 1) in
      Ok (Continue (goto e (emit tok s)))
    else Ok (Fall s)
  else Ok (Fall s).

Definition is_quantifier (char : ascii) : bool :=
  Ascii.eqb char "*" || Ascii.eqb char "+" || Ascii.eqb char "?".

(** Simple quantifiers without a suffix ([GoFormat], posix.go) *)
Definition plain_quantifier_block : block := fun pattern char s =>
  if is_quantifier char then
    let s := flush s in
    Ok (Continue (emit (string_of_byte char) s))
  else Ok (Fall s).

(** Simple quantifiers that absorb one following [suffix] byte: ['+'] in
    pcre.go (possessive), ['?'] in js.go and python.go (non-greedy). *)
Definition suffix_quantifier_block (suffix : ascii) : block :=
  fun pattern char s =>
  if is_quantifier char then
    let s := flush s in
    let* absorb := pure (idx s + 1 <? len pattern)
               &&& index_eq pattern (idx s + 1) suffix in
    if absorb then
      Ok (Continue (goto (idx s + 1)
                        (emit (string_of_byte char +:+ String suffix "") s)))
    else Ok (Continue (emit (string_of_byte char) s))
  else Ok (Fall s).

(** [if cond { flush; tokens = append(tokens, string(char)); continue }] *)
Definition single_block (cond : ascii → bool) : block := fun pattern char s =>
  if cond char then
    let s := flush s in
    Ok (Continue (emit (string_of_byte char) s))
  else Ok (Fall s).

Definition close_paren_block : block := single_block (fun c => Ascii.eqb c ")").
Definition alternation_block : block := single_block (fun c => Ascii.eqb c "|").
Definition anchor_block : block :=
  single_block (fun c => Ascii.eqb c "^" || Ascii.eqb c "$").
Definition dot_block : block := single_block (fun c => Ascii.eqb c ".").

(** Default case: [currentToken.WriteByte(char)] *)
Definition default_block : block := fun pattern char s =>
  Ok (Continue (write_byte char s)).

Definition tail_blocks : block :=
  close_paren_block ;> alternation_block ;> anchor_block ;> dot_block
  ;> default_block.

(** The named-group scan shared by the group blocks:
    [endName := strings.IndexByte(pattern[from:], '>')] and, when found,
    the token [pattern[i:endName+1]]; otherwise the bare ["("]. *)
Definition named_group (pattern : string) (char : ascii) (from : Z) (s : st)
  : result st :=
  let* rest := slice_from pattern from in
  let endName := IndexByte rest ">" in
  if endName >=? 0 then
    let endName := endName + from in
    let* tok := slice pattern (idx s) (endName + 1) in
    Ok (goto endName (emit tok s))
  else Ok (emit (string_of_byte char) s).

(** [tokens = append(tokens, hdr); i += n] *)
Definition header (hdr : string) (n : Z) (s : st) : st :=
  goto (idx s + n) (emit hdr s).

(** ** Token explainers *)

(** The brace-quantifier case, the same text in every [ExplainToken]. *)
Definition explain_brace (token : string) : result string :=
  let* content := slice token 1 (len token - 1) in
  let exactly :=
    "Matches exactly " +:+ content +:+ " occurrences of the preceding element" in
  if Contains content "," then
    match Split content "," with
    | [p0; p1] =>
      if String.eqb p1 "" then
        Ok ("Matches at least " +:+ p0
            +:+ " occurrences of the preceding element")
      else
        Ok ("Matches between " +:+ p0 +:+ " and " +:+ p1
            +:+ " occurrences of the preceding element")
    | _ => Ok exactly
    end
  else Ok exactly.

(** The bracket-expression case of [GoFormat], pcre.go, js.go and python.go. *)
Definition explain_class (token : string) : result string :=
  let* negated := pure (len token >? 2) &&& index_eq token 1 "^" in
  if negated then
    let* set := slice token 2 (len token - 1) in
    Ok ("Matches any character NOT in the set: " +:+ set)
  else
    let* set := slice token 1 (len token - 1) in
    Ok ("Matches any character in the set: " +:+ set).

(** The default case. *)
Definition explain_literal (token : string) : string :=
  if len token =? 1 then "Matches the character '" +:+ token +:+ "' literally"
  else "Matches the string '" +:+ token +:+ "' literally".

Definition is_digit_1_9 (c : ascii) : bool :=
  (byte_val "1" <=? byte_val c) && (byte_val c <=? byte_val "9").

(** [case 'k'] of js.go and [case 'g'] of python.go differ in the guard
    ([len(sequence) > 2] against [len(sequence) > 3]). *)
Definition explain_named_backref (min_len : Z) (sequence : string)
  : result string :=
  let* angle := pure (len sequence >? min_len) &&& index_eq sequence 2 "<" in
  if angle then
    let* rest := slice_from sequence 3 in
    let e := IndexByte rest ">" in
    if e >=? 0 then
      let* name := slice sequence 3 (3 + e) in
      Ok ("Backreference to the named group '" +:+ name +:+ "'")
    else Ok "Invalid named backreference"
  else Ok "Invalid named backreference".

Fixpoint all_hex (k : nat) (sequence : string) (j : Z) : result bool :=
  match k with
  | O => Ok true
  | S k' =>
    (let* c := index sequence j in Ok (isHexDigit c))
      &&& all_hex k' sequence (j + 1)
  end.

(** ** Baseline: [GoFormat] *)

Module GoFormat.

Definition supportedFeatures : gmap string bool :=
  {[ FeatureLookahead := true;
     FeatureLookbehind := false;
     FeatureNamedGroup := true;
     FeatureAtomicGroup := false;
     FeatureConditional := false;
     FeaturePossessive := false;
     FeatureUnicodeClass := true;
     FeatureRecursion := false;
     FeatureBackreference := true;
     FeatureNamedBackref := true ]}.

Definition HasFeature (feature : string) : bool :=
  map_index supportedFeatures feature.

Definition group_block : block := fun pattern char s =>
  if Ascii.eqb char "(" then
    let s := flush s in
    let i := idx s in
    let* special := pure (i + 2 <? len pattern) &&& index_eq pattern (i + 1) "?" in
    if special then
      let* c2 := index pattern (i + 2) in
      let* s' := (if Ascii.eqb c2 ":" then Ok (header "(?:" 2 s)
            else if Ascii.eqb c2 "=" then Ok (header "(?=" 2 s)
            else if Ascii.eqb c2 "P" then
              let* named := pure (i + 3 <? len pattern)
                        &&& index_eq pattern (i + 3) "<" in
              if named then named_group pattern char (i + 4) s
              else Ok (emit (string_of_byte char) s)
            else Ok (emit (string_of_byte char) s)) in
      Ok (Continue s')
    else Ok (Continue (emit (string_of_byte char) s))
  else Ok (Fall s).

Definition body : block :=
  char_class_block ;> escape_block ;> brace_block ;> plain_quantifier_block
  ;> group_block ;> tail_blocks.

Definition TokenizeRegex (pattern : string) : result (list string) :=
  tokenize_loop body (String.length pattern) pattern (mkSt 0 [] "").

(** *** The explainer of [GoFormat] *)

Definition Name : string := "Go Regexp".

(** [explainEscapeSequence] *)
Definition explainEscapeSequence (sequence : string) : result string :=
  if len sequence <? 2 then Ok "Invalid escape sequence"
  else
    let* c := index sequence 1 in
    if Ascii.eqb c "d" then Ok "Matches any digit (0-9)"
    else if Ascii.eqb c "D" then Ok "Matches any non-digit character"
    else if Ascii.eqb c "w" then
      Ok "Matches any word character (alphanumeric plus underscore)"
    else if Ascii.eqb c "W" then Ok "Matches any non-word character"
    else if Ascii.eqb c "s" then
      Ok "Matches any whitespace character (space, tab, newline, etc.)"
    else if Ascii.eqb c "S" then Ok "Matches any non-whitespace character"
    else if Ascii.eqb c "b" then Ok "Matches a word boundary"
    else if Ascii.eqb c "B" then Ok "Matches a non-word boundary"
    else if Ascii.eqb c "A" then Ok "Matches the start of the string"
    else if Ascii.eqb c "z" then Ok "Matches the end of the string"
    else if Ascii.eqb c "n" then Ok "Matches a newline character"
    else if Ascii.eqb c "t" then Ok "Matches a tab character"
    else if Ascii.eqb c "r" then Ok "Matches a carriage return character"
    else if Ascii.eqb c "f" then Ok "Matches a form feed character"
    else if Ascii.eqb c "v" then Ok "Matches a vertical tab character"
    else if Ascii.eqb c "0" then Ok "Matches a null character"
    else Ok ("Matches the character '" +:+ string_of_byte c +:+ "' literally").

Definition ExplainToken (token : string) : result string :=
  if String.eqb token "^" then Ok "Matches the start of a line"
  else if String.eqb token "$" then Ok "Matches the end of a line"
  else if String.eqb token "." then
    Ok "Matches any single character except newline"
  else if String.eqb token "*" then
    Ok "Matches 0 or more of the preceding element"
  else if String.eqb token "+" then
    Ok "Matches 1 or more of the preceding element"
  else if String.eqb token "?" then
    Ok "Matches 0 or 1 of the preceding element"
  else if String.eqb token "|" then
    Ok "Acts as an OR operator - matches the expression before or after the |"
  else if String.eqb token "(" then Ok "Start of a capturing group"
  else if String.eqb token ")" then Ok "End of a capturing group"
  else if String.eqb token "(?:" then
    Ok "Start of a non-capturing group - groups the expression but doesn't create a capture group"
  else if String.eqb token "(?=" then
    Ok "Start of a positive lookahead - matches if the pattern inside matches, but doesn't consume characters"
  else if HasPrefix token "(?P<" && HasSuffix token ">" then
    let* name := slice token 4 (len token - 1) in
    Ok ("Start of a named capturing group called '" +:+ name +:+ "'")
  else if HasPrefix token "[" && HasSuffix token "]" then explain_class token
  else if HasPrefix token backslash_s then explainEscapeSequence token
  else if HasPrefix token "{" && HasSuffix token "}" then explain_brace token
  else Ok (explain_literal token).

End GoFormat.

(** ** PCRE: [PcreFormat] (pcre.go) *)

Module PcreFormat.

Definition supportedFeatures : gmap string bool :=
  {[ FeatureLookahead := true;
     FeatureLookbehind := true;
     FeatureNamedGroup := true;
     FeatureAtomicGroup := true;
     FeatureConditional := true;
     FeaturePossessive := true;
     FeatureUnicodeClass := true;
     FeatureRecursion := true;
     FeatureBackreference := true;
     FeatureNamedBackref := true ]}.

Definition HasFeature (feature : string) : bool :=
  map_index supportedFeatures feature.

(** [case '<':] of the group switch, shared in text by pcre.go, js.go and
    python.go: lookbehind or [(?<name>]. *)
Definition angle_case (pattern : string) (char : ascii) (s : st) : result st :=
  let i := idx s in
  if i + 3 <? len pattern then
    let* c3 := index pattern (i + 3) in
    if Ascii.eqb c3 "=" then Ok (header "(?<=" 3 s)
    else if Ascii.eqb c3 "!" then Ok (header "(?<!" 3 s)
    else named_group pattern char (i + 3) s
  else Ok (emit (string_of_byte char) s).

Definition group_block : block := fun pattern char s =>
  if Ascii.eqb char "(" then
    let s := flush s in
    let i := idx s in
    let* special := pure (i + 2 <? len pattern) &&& index_eq pattern (i + 1) "?" in
    if special then
      let* c2 := index pattern (i + 2) in
      let* s' := (if Ascii.eqb c2 ":" then Ok (header "(?:" 2 s)
            else if Ascii.eqb c2 "=" then Ok (header "(?=" 2 s)
            else if Ascii.eqb c2 "!" then Ok (header "(?!" 2 s)
            else if Ascii.eqb c2 "<" then angle_case pattern char s
            else if Ascii.eqb c2 ">" then Ok (header "(?>" 2 s)
            else if Ascii.eqb c2 "P" then
              let* named := pure (i + 3 <? len pattern)
                        &&& index_eq pattern (i + 3) "<" in
              if named then named_group pattern char (i + 4) s
              else Ok (emit (string_of_byte char) s)
            else Ok (emit (string_of_byte char) s)) in
      Ok (Continue s')
    else Ok (Continue (emit (string_of_byte char) s))
  else Ok (Fall s).

Definition body : block :=
  char_class_block ;> escape_block ;> brace_block
  ;> suffix_quantifier_block "+" ;> group_block ;> tail_blocks.

Definition TokenizeRegex (pattern : string) : result (list string) :=
  tokenize_loop body (String.length pattern) pattern (mkSt 0 [] "").

(** *** The explainer of pcre.go *)

Definition Name : string := "Perl Compatible Regular Expressions (PCRE)".

Definition explainPcreEscapeSequence (sequence : string) : result string :=
  if len sequence <? 2 then Ok "Invalid escape sequence"
  else
    let* c := index sequence 1 in
    if Ascii.eqb c "d" then Ok "Matches any digit (0-9)"
    else if Ascii.eqb c "D" then Ok "Matches any non-digit character"
    else if Ascii.eqb c "w" then
      Ok "Matches any word character (alphanumeric plus underscore)"
    else if Ascii.eqb c "W" then Ok "Matches any non-word character"
    else if Ascii.eqb c "s" then
      Ok "Matches any whitespace character (space, tab, newline, etc.)"
    else if Ascii.eqb c "S" then Ok "Matches any non-whitespace character"
    else if Ascii.eqb c "b" then Ok "Matches a word boundary"
    else if Ascii.eqb c "B" then Ok "Matches a non-word boundary"
    else if Ascii.eqb c "A" then Ok "Matches the start of the string"
    else if Ascii.eqb c "Z" then
      Ok "Matches the end of the string or before the final newline"
    else if Ascii.eqb c "z" then Ok "Matches the absolute end of the string"
    else if Ascii.eqb c "G" then
      Ok "Matches the position where the previous match ended"
    else if Ascii.eqb c "n" then Ok "Matches a newline character"
    else if Ascii.eqb c "t" then Ok "Matches a tab character"
    else if Ascii.eqb c "r" then Ok "Matches a carriage return character"
    else if Ascii.eqb c "f" then Ok "Matches a form feed character"
    else if Ascii.eqb c "v" then Ok "Matches a vertical tab character"
    else if Ascii.eqb c "0" then Ok "Matches a null character"
    else if Ascii.eqb c "k" then explain_named_backref 2 sequence
    else if is_digit_1_9 c then
      Ok ("Backreference to capturing group " +:+ string_of_byte c)
    else if Ascii.eqb c "p" || Ascii.eqb c "P" then
      let* brace := pure (len sequence >? 2) &&& index_eq sequence 2 "{" in
      if brace then
        let* rest := slice_from sequence 3 in
        let e := IndexByte rest "}" in
        if e >=? 0 then
          let* name := slice sequence 3 (3 + e) in
          if Ascii.eqb c "p" then
            Ok ("Matches a character with the unicode property '" +:+ name
                +:+ "'")
          else
            Ok ("Matches a character without the unicode property '" +:+ name
                +:+ "'")
        else Ok "Invalid unicode property"
      else Ok "Invalid unicode property"
    else if Ascii.eqb c "Q" then
      Ok "Start of a quoted sequence (everything until \E is treated as a literal)"
    else if Ascii.eqb c "E" then Ok "End of a quoted sequence"
    else Ok ("Matches the character '" +:+ string_of_byte c +:+ "' literally").

Definition ExplainToken (token : string) : result string :=
  if String.eqb token "^" then Ok "Matches the start of a line"
  else if String.eqb token "$" then Ok "Matches the end of a line"
  else if String.eqb token "." then
    Ok "Matches any single character except newline"
  else if String.eqb token "*" then
    Ok "Matches 0 or more of the preceding element"
  else if String.eqb token "+" then
    Ok "Matches 1 or more of the preceding element"
  else if String.eqb token "?" then
    Ok "Matches 0 or 1 of the preceding element"
  else if String.eqb token "*+" then
    Ok "Possessive match of 0 or more of the preceding element (never gives up the match)"
  else if String.eqb token "++" then
    Ok "Possessive match of 1 or more of the preceding element (never gives up the match)"
  else if String.eqb token "?+" then
    Ok "Possessive match of 0 or 1 of the preceding element (never gives up the match)"
  else if String.eqb token "|" then
    Ok "Acts as an OR operator - matches the expression before or after the |"
  else if String.eqb token "(" then Ok "Start of a capturing group"
  else if String.eqb token ")" then Ok "End of a capturing group"
  else if String.eqb token "(?:" then
    Ok "Start of a non-capturing group - groups the expression but doesn't create a capture group"
  else if String.eqb token "(?=" then
    Ok "Start of a positive lookahead - matches if the pattern inside matches, but doesn't consume characters"
  else if String.eqb token "(?!" then
    Ok "Start of a negative lookahead - matches if the pattern inside doesn't match, but doesn't consume characters"
  else if String.eqb token "(?<=" then
    Ok "Start of a positive lookbehind - matches if the pattern inside matches immediately before current position"
  else if String.eqb token "(?<!" then
    Ok "Start of a negative lookbehind - matches if the pattern inside doesn't match immediately before current position"
  else if String.eqb token "(?>" then
    Ok "Start of an atomic group - once the group matches, the regex engine doesn't backtrack into it"
  else if HasPrefix token "(?<" && HasSuffix token ">"
          && negb (Contains token "<?") && negb (Contains token "<!") then
    let* name := slice token 3 (len token - 1) in
    Ok ("Start of a named capturing group called '" +:+ name +:+ "'")
  else if HasPrefix token "(?P<" && HasSuffix token ">" then
    let* name := slice token 4 (len token - 1) in
    Ok ("Start of a named capturing group called '" +:+ name +:+ "'")
  else if HasPrefix token "[" && HasSuffix token "]" then explain_class token
  else if HasPrefix token backslash_s then explainPcreEscapeSequence token
  else if HasPrefix token "{" && HasSuffix token "}" then explain_brace token
  else Ok (explain_literal token).

End PcreFormat.

(** ** POSIX: [PosixFormat] (posix.go) *)

Module PosixFormat.

Definition supportedFeatures : gmap string bool :=
  {[ FeatureLookahead := false;
     FeatureLookbehind := false;
     FeatureNamedGroup := false;
     FeatureAtomicGroup := false;
     FeatureConditional := false;
     FeaturePossessive := false;
     FeatureUnicodeClass := false;
     FeatureRecursion := false;
     FeatureBackreference := true;
     FeatureNamedBackref := false ]}.

Definition HasFeature (feature : string) : bool :=
  map_index supportedFeatures feature.

(** The check for a nested POSIX class; [Some s'] when the block emitted
    the token and continues, [None] when it falls to the plain scan. *)
Definition nested_class (pattern : string) (s : st) : result (option st) :=
  let i := idx s in
  let* nested := pure (i + 2 <? len pattern)
                   &&& index_eq pattern (i + 1) "["
                   &&& index_eq pattern (i + 2) ":" in
  if nested then
    let* rest := slice_from pattern i in
    let e := Index rest ":]" in
    if e >? 3 then
      let* endBracket := FindClosingBracket pattern i in
      if endBracket >? i + e + 2 then
        let* tok := slice pattern i (endBracket + 1) in
        Ok (Some (goto endBracket (emit tok s)))
      else Ok None
    else Ok None
  else Ok None.

Definition char_class_block : block := fun pattern char s =>
  if Ascii.eqb char "[" then
    let s := flush s in
    let* r := nested_class pattern s in
    match r with
    | Some s' => Ok (Continue s')
    | None => class_scan pattern s
    end
  else Ok (Fall s).

Definition group_block : block := single_block (fun c => Ascii.eqb c "(").

Definition body : block :=
  char_class_block ;> escape_block ;> brace_block ;> plain_quantifier_block
  ;> group_block ;> tail_blocks.

Definition TokenizeRegex (pattern : string) : result (list string) :=
  tokenize_loop body (String.length pattern) pattern (mkSt 0 [] "").

(** *** The explainer of posix.go *)

Definition Name : string := "POSIX Extended Regular Expressions".

Definition explainPosixCharClass (className : string) : string :=
  if String.eqb className "alnum" then
    "Matches any alphanumeric character (a-z, A-Z, 0-9)"
  else if String.eqb className "alpha" then
    "Matches any alphabetic character (a-z, A-Z)"
  else if String.eqb className "ascii" then
    "Matches any ASCII character (0-127)"
  else if String.eqb className "blank" then "Matches space and tab characters"
  else if String.eqb className "cntrl" then "Matches control characters"
  else if String.eqb className "digit" then "Matches decimal digits (0-9)"
  else if String.eqb className "graph" then
    "Matches visible characters (not including space)"
  else if String.eqb className "lower" then "Matches lowercase letters (a-z)"
  else if String.eqb className "print" then
    "Matches visible characters (including space)"
  else if String.eqb className "punct" then "Matches punctuation characters"
  else if String.eqb className "space" then
    "Matches whitespace characters (space, tab, newline, etc.)"
  else if String.eqb className "upper" then "Matches uppercase letters (A-Z)"
  else if String.eqb className "word" then
    "Matches word characters (alphanumeric plus underscore)"
  else if String.eqb className "xdigit" then
    "Matches hexadecimal digits (0-9, a-f, A-F)"
  else "Unknown POSIX character class '[:" +:+ className +:+ ":]'".

Definition explainPosixEscapeSequence (sequence : string) : result string :=
  if len sequence <? 2 then Ok "Invalid escape sequence"
  else
    let* c := index sequence 1 in
    if Ascii.eqb c "n" then Ok "Matches a newline character"
    else if Ascii.eqb c "t" then Ok "Matches a tab character"
    else if Ascii.eqb c "r" then Ok "Matches a carriage return character"
    else if is_digit_1_9 c then
      Ok ("Backreference to capturing group " +:+ string_of_byte c)
    else Ok ("Matches the character '" +:+ string_of_byte c +:+ "' literally").

(** The bracket-expression case of posix.go: the POSIX class by name when
    the token holds both markers, the plain set otherwise. *)
Definition explain_posix_class (token : string) : result string :=
  if Contains token "[[:" && Contains token ":]]" then
    let start := Index token "[[:" in
    let e := Index token ":]]" in
    if (start >=? 0) && (e >? start + 3) then
      let* className := slice token (start + 3) e in
      Ok (explainPosixCharClass className)
    else explain_class token
  else explain_class token.

Definition ExplainToken (token : string) : result string :=
  if String.eqb token "^" then Ok "Matches the start of a line"
  else if String.eqb token "$" then Ok "Matches the end of a line"
  else if String.eqb token "." then Ok "Matches any single character"
  else if String.eqb token "*" then
    Ok "Matches 0 or more of the preceding element"
  else if String.eqb token "+" then
    Ok "Matches 1 or more of the preceding element"
  else if String.eqb token "?" then
    Ok "Matches 0 or 1 of the preceding element"
  else if String.eqb token "|" then
    Ok "Acts as an OR operator - matches the expression before or after the |"
  else if String.eqb token "(" then Ok "Start of a capturing group"
  else if String.eqb token ")" then Ok "End of a capturing group"
  else if HasPrefix token "[" && HasSuffix token "]" then
    explain_posix_class token
  else if HasPrefix token backslash_s then explainPosixEscapeSequence token
  else if HasPrefix token "{" && HasSuffix token "}" then explain_brace token
  else Ok (explain_literal token).

End PosixFormat.

(** ** ECMA: [JsFormat] (js.go) *)

Module JsFormat.

Definition supportedFeatures : gmap string bool :=
  {[ FeatureLookahead := true;
     FeatureLookbehind := true;
     FeatureNamedGroup := true;
     FeatureAtomicGroup := false;
     FeatureConditional := false;
     FeaturePossessive := false;
     FeatureUnicodeClass := true;
     FeatureRecursion := false;
     FeatureBackreference := true;
     FeatureNamedBackref := true ]}.

Definition HasFeature (feature : string) : bool :=
  map_index supportedFeatures feature.

Definition Name : string := "JavaScript RegExp".

(** The pre-pass over the [/pattern/flags] envelope: the tokens emitted
    before the loop and the pattern the loop runs on. *)
Definition strip (pattern : string) : result (list string * string) :=
  let* delimited := pure (len pattern >? 2) &&& index_eq pattern 0 "/" in
  if delimited then
    let lastSlashPos := LastIndex pattern "/" in
    if (lastSlashPos >? 0) && (lastSlashPos <? len pattern - 1) then
      let* flags := slice_from pattern (lastSlashPos + 1) in
      let* pattern' := slice pattern 1 lastSlashPos in
      if len flags >? 0 then Ok (["/" +:+ flags], pattern')
      else Ok ([], pattern')
    else
      let* bare := index_eq pattern 0 "/"
                     &&& index_eq pattern (len pattern - 1) "/" in
      if bare then
        let* pattern' := slice pattern 1 (len pattern - 1) in
        Ok ([], pattern')
      else Ok ([], pattern)
  else Ok ([], pattern).

Definition group_block : block := fun pattern char s =>
  if Ascii.eqb char "(" then
    let s := flush s in
    let i := idx s in
    let* special := pure (i + 2 <? len pattern)
                      &&& index_eq pattern (i + 1) "?" in
    if special then
      let* c2 := index pattern (i + 2) in
      let* s' := (if Ascii.eqb c2 ":" then Ok (header "(?:" 2 s)
                  else if Ascii.eqb c2 "=" then Ok (header "(?=" 2 s)
                  else if Ascii.eqb c2 "!" then Ok (header "(?!" 2 s)
                  else if Ascii.eqb c2 "<" then
                    PcreFormat.angle_case pattern char s
                  else Ok (emit (string_of_byte char) s)) in
      Ok (Continue s')
    else Ok (Continue (emit (string_of_byte char) s))
  else Ok (Fall s).

Definition body : block :=
  char_class_block ;> escape_block ;> brace_block
  ;> suffix_quantifier_block "?" ;> group_block ;> tail_blocks.

Definition TokenizeRegex (pattern : string) : result (list string) :=
  let* pre := strip pattern in
  tokenize_loop body (String.length (snd pre)) (snd pre) (mkSt 0 (fst pre) "").

(** *** The explainer of js.go *)

Definition explain_flag (flag : Z) : string :=
  if flag =? byte_val "g" then
    "g: Global search - find all matches rather than stopping after the first match"
  else if flag =? byte_val "i" then "i: Case-insensitive search"
  else if flag =? byte_val "m" then
    "m: Multi-line search - ^ and $ match start/end of each line"
  else if flag =? byte_val "s" then
    "s: Dot-all mode - the dot (.) matches newlines"
  else if flag =? byte_val "u" then
    "u: Unicode mode - treat pattern as a sequence of Unicode code points"
  else if flag =? byte_val "y" then
    "y: Sticky mode - matches only from the index indicated by the lastIndex property"
  else if flag =? byte_val "d" then
    "d: Generate indices for substring matches"
  else utf8_encode flag +:+ ": Unknown flag".

Definition explainJsFlags (flags : string) : string :=
  if String.eqb flags "" then "No flags specified"
  else "Flags: " +:+ Join (map explain_flag (runes flags)) ", ".

Definition explainJsEscapeSequence (sequence : string) : result string :=
  if len sequence <? 2 then Ok "Invalid escape sequence"
  else
    let* c := index sequence 1 in
    if Ascii.eqb c "d" then Ok "Matches any digit (0-9)"
    else if Ascii.eqb c "D" then Ok "Matches any non-digit character"
    else if Ascii.eqb c "w" then
      Ok "Matches any word character (alphanumeric plus underscore)"
    else if Ascii.eqb c "W" then Ok "Matches any non-word character"
    else if Ascii.eqb c "s" then
      Ok "Matches any whitespace character (space, tab, newline, etc.)"
    else if Ascii.eqb c "S" then Ok "Matches any non-whitespace character"
    else if Ascii.eqb c "b" then Ok "Matches a word boundary"
    else if Ascii.eqb c "B" then Ok "Matches a non-word boundary"
    else if Ascii.eqb c "n" then Ok "Matches a newline character"
    else if Ascii.eqb c "t" then Ok "Matches a tab character"
    else if Ascii.eqb c "r" then Ok "Matches a carriage return character"
    else if Ascii.eqb c "f" then Ok "Matches a form feed character"
    else if Ascii.eqb c "v" then Ok "Matches a vertical tab character"
    else if Ascii.eqb c "0" then Ok "Matches a null character"
    else if Ascii.eqb c "k" then explain_named_backref 2 sequence
    else if is_digit_1_9 c then
      Ok ("Backreference to capturing group " +:+ string_of_byte c)
    else if Ascii.eqb c "p" || Ascii.eqb c "P" then
      let* brace := pure (len sequence >? 2) &&& index_eq sequence 2 "{" in
      if brace then
        let* rest := slice_from sequence 3 in
        let e := IndexByte rest "}" in
        if e >=? 0 then
          let* name := slice sequence 3 (3 + e) in
          if Ascii.eqb c "p" then
            Ok ("Matches a character with the unicode property '" +:+ name
                +:+ "' (requires u flag)")
          else
            Ok ("Matches a character without the unicode property '" +:+ name
                +:+ "' (requires u flag)")
        else Ok "Invalid unicode property"
      else Ok "Invalid unicode property"
    else if Ascii.eqb c "u" then
      let* ok := pure (len sequence >=? 6) &&& all_hex 4 sequence 2 in
      if ok then
        let* hex := slice sequence 2 6 in
        Ok ("Matches the Unicode character U+" +:+ hex)
      else Ok "Invalid Unicode escape sequence"
    else if Ascii.eqb c "x" then
      let* ok := pure (len sequence >=? 4) &&& all_hex 2 sequence 2 in
      if ok then
        let* hex := slice sequence 2 4 in
        Ok ("Matches the character with hex code " +:+ hex)
      else Ok "Invalid hexadecimal escape sequence"
    else Ok ("Matches the character '" +:+ string_of_byte c +:+ "' literally").

Definition ExplainToken (token : string) : result string :=
  if HasPrefix token "/" then
    let* flags := slice_from token 1 in Ok (explainJsFlags flags)
  else if String.eqb token "^" then Ok "Matches the start of a line"
  else if String.eqb token "$" then Ok "Matches the end of a line"
  else if String.eqb token "." then
    Ok "Matches any single character except newline"
  else if String.eqb token "*" then
    Ok "Matches 0 or more of the preceding element (greedy)"
  else if String.eqb token "+" then
    Ok "Matches 1 or more of the preceding element (greedy)"
  else if String.eqb token "?" then
    Ok "Matches 0 or 1 of the preceding element (greedy)"
  else if String.eqb token "*?" then
    Ok "Matches 0 or more of the preceding element (non-greedy)"
  else if String.eqb token "+?" then
    Ok "Matches 1 or more of the preceding element (non-greedy)"
  else if String.eqb token "??" then
    Ok "Matches 0 or 1 of the preceding element (non-greedy)"
  else if String.eqb token "|" then
    Ok "Acts as an OR operator - matches the expression before or after the |"
  else if String.eqb token "(" then Ok "Start of a capturing group"
  else if String.eqb token ")" then Ok "End of a capturing group"
  else if String.eqb token "(?:" then
    Ok "Start of a non-capturing group - groups the expression but doesn't create a capture group"
  else if String.eqb token "(?=" then
    Ok "Start of a positive lookahead - matches if the pattern inside matches, but doesn't consume characters"
  else if String.eqb token "(?!" then
    Ok "Start of a negative lookahead - matches if the pattern inside doesn't match, but doesn't consume characters"
  else if String.eqb token "(?<=" then
    Ok "Start of a positive lookbehind - matches if the pattern inside matches immediately before current position"
  else if String.eqb token "(?<!" then
    Ok "Start of a negative lookbehind - matches if the pattern inside doesn't match immediately before current position"
  else if HasPrefix token "(?<" && HasSuffix token ">"
          && negb (Contains token "<?") && negb (Contains token "<!") then
    let* name := slice token 3 (len token - 1) in
    Ok ("Start of a named capturing group called '" +:+ name +:+ "'")
  else if HasPrefix token "[" && HasSuffix token "]" then explain_class token
  else if HasPrefix token backslash_s then explainJsEscapeSequence token
  else if HasPrefix token "{" && HasSuffix token "}" then explain_brace token
  else Ok (explain_literal token).

End JsFormat.

(** ** Python: [PythonFormat] (python.go) *)

Module PythonFormat.

Definition supportedFeatures : gmap string bool :=
  {[ FeatureLookahead := true;
     FeatureLookbehind := true;
     FeatureNamedGroup := true;
     FeatureAtomicGroup := false;
     FeatureConditional := false;
     FeaturePossessive := false;
     FeatureUnicodeClass := true;
     FeatureRecursion := false;
     FeatureBackreference := true;
     FeatureNamedBackref := true ]}.

Definition HasFeature (feature : string) : bool :=
  map_index supportedFeatures feature.

Definition Name : string := "Python re".

Definition is_flag_letter (c : ascii) : bool :=
  Ascii.eqb c "a" || Ascii.eqb c "i" || Ascii.eqb c "L" || Ascii.eqb c "m"
  || Ascii.eqb c "s" || Ascii.eqb c "u" || Ascii.eqb c "x".

(** [isFlag := true; for i := from; i < to; i++ { if <not a flag letter> { isFlag = false; break } }];
    [n] is the number of iterations left. *)
Fixpoint all_flags (n : nat) (s : string) (i : Z) : result bool :=
  match n with
  | O => Ok true
  | S n' =>
    let* c := index s i in
    if negb (is_flag_letter c) then Ok false else all_flags n' s (i + 1)
  end.

(** The raw-string marker. *)
Definition strip_raw (pattern : string) : result (list string * string) :=
  let* r := pure (len pattern >? 0)
              &&& (index_eq pattern 0 "r" ||| index_eq pattern 0 "R") in
  if r then
    let* q := pure (len pattern >? 1)
                &&& (index_eq pattern 1 dquote ||| index_eq pattern 1 "'") in
    if q then
      let* tok := slice pattern 0 2 in
      let* pattern' := slice_from pattern 2 in
      Ok ([tok], pattern')
    else Ok ([], pattern)
  else Ok ([], pattern).

(** The inline flags at the beginning. *)
Definition strip_flags (tokens : list string) (pattern : string)
  : result (list string * string) :=
  let* g := pure (len pattern >? 2) &&& index_eq pattern 0 "("
              &&& index_eq pattern 1 "?" in
  if g then
    let flagEnd := IndexByte pattern ")" in
    if flagEnd >? 2 then
      let* isFlag := all_flags (Z.to_nat (flagEnd - 2)) pattern 2 in
      if isFlag then
        let* tok := slice pattern 0 (flagEnd + 1) in
        let* pattern' := slice_from pattern (flagEnd + 1) in
        Ok (tokens ++ [tok], pattern')
      else Ok (tokens, pattern)
    else Ok (tokens, pattern)
  else Ok (tokens, pattern).

Definition strip (pattern : string) : result (list string * string) :=
  let* raw := strip_raw pattern in
  strip_flags (fst raw) (snd raw).

Definition is_hex_at (pattern : string) (j : Z) : result bool :=
  let* c := index pattern j in Ok (isHexDigit c).

(** [for j := i + 2; j < hexEnd; j++ { if !isHexDigit(pattern[j]) { hexEnd = j; break } }];
    [n] is the number of iterations left; the result is the final [hexEnd]. *)
Fixpoint hex_scan (n : nat) (pattern : string) (j hexEnd : Z) : result Z :=
  match n with
  | O => Ok hexEnd
  | S n' =>
    let* h := is_hex_at pattern j in
    if negb h then Ok j else hex_scan n' pattern (j + 1) hexEnd
  end.

(** [k] hex digits from [pattern[j]] on, tested left to right. *)
Fixpoint hex_run (k : nat) (pattern : string) (j : Z) : result bool :=
  match k with
  | O => Ok true
  | S k' => is_hex_at pattern j &&& hex_run k' pattern (j + 1)
  end.

Definition escape_block : block := fun pattern char s =>
  if Ascii.eqb char backslash && (idx s + 1 <? len pattern) then
    let s := flush s in
    let i := idx s in
    let* isx := pure (i + 2 <? len pattern) &&& index_eq pattern (i + 1) "x" in
    if isx then
      let hexEnd := if i + 4 >? len pattern then len pattern else i + 4 in
      let* hexEnd := hex_scan (Z.to_nat (hexEnd - (i + 2))) pattern (i + 2)
                       hexEnd in
      let* tok := slice pattern i hexEnd in
      Ok (Continue (goto (hexEnd - 1) (emit tok s)))
    else
    let* isu := pure (i + 2 <? len pattern) &&& index_eq pattern (i + 1) "u" in
    if isu then
      let* ok := pure (i + 6 <=? len pattern) &&& hex_run 4 pattern (i + 2) in
      if ok then
        let* tok := slice pattern i (i + 6) in
        Ok (Continue (goto (i + 5) (emit tok s)))
      else Ok (Fall s)
    else
    let* isU := pure (i + 2 <? len pattern) &&& index_eq pattern (i + 1) "U" in
    if isU then
      let* ok := pure (i + 10 <=? len pattern) &&& hex_run 8 pattern (i + 2) in
      if ok then
        let* tok := slice pattern i (i + 10) in
        Ok (Continue (goto (i + 9) (emit tok s)))
      else Ok (Fall s)
    else
    let* isN := pure (i + 2 <? len pattern) &&& index_eq pattern (i + 1) "N"
                  &&& index_eq pattern (i + 2) "{" in
    if isN then
      let* rest := slice_from pattern (i + 3) in
      let e := IndexByte rest "}" in
      if e >=? 0 then
        let* tok := slice pattern i (i + e + 4) in
        Ok (Continue (goto (i + e + 3) (emit tok s)))
      else Ok (Fall s)
    else
      let* tok := slice pattern i (i + 2) in
      Ok (Continue (goto (i + 1) (emit tok s)))
  else Ok (Fall s).

(** [j := from; for j < len(pattern) && pattern[j] != ')' { j++ }];
    [n] is [len(pattern) - j]. *)
Fixpoint backref_scan (n : nat) (pattern : string) (j : Z) : result Z :=
  match n with
  | O => Ok j
  | S n' =>
    let* more := index_ne pattern j ")" in
    if more then backref_scan n' pattern (j + 1) else Ok j
  end.

(** [case 'P':] of the group switch; [Some s'] when one of the two named
    forms was emitted, [None] when control reaches the bare ["("]. *)
Definition p_case (pattern : string) (s : st) : result (option st) :=
  let i := idx s in
  if i + 3 <? len pattern then
    let* c3 := index pattern (i + 3) in
    if Ascii.eqb c3 "<" then
      let* rest := slice_from pattern (i + 4) in
      let endName := IndexByte rest ">" in
      if endName >=? 0 then
        let endName := endName + (i + 4) in
        let* tok := slice pattern i (endName + 1) in
        Ok (Some (goto endName (emit tok s)))
      else Ok None
    else if Ascii.eqb c3 "=" then
      let* j := backref_scan (Z.to_nat (len pattern - (i + 4))) pattern (i + 4) in
      if j <? len pattern then
        let* tok := slice pattern i (j + 1) in
        Ok (Some (goto j (emit tok s)))
      else Ok None
    else Ok None
  else Ok None.

Definition group_block : block := fun pattern char s =>
  if Ascii.eqb char "(" then
    let s := flush s in
    let i := idx s in
    let* special := pure (i + 2 <? len pattern)
                      &&& index_eq pattern (i + 1) "?" in
    if special then
      let* c2 := index pattern (i + 2) in
      let* s' := (if Ascii.eqb c2 ":" then Ok (header "(?:" 2 s)
                  else if Ascii.eqb c2 "=" then Ok (header "(?=" 2 s)
                  else if Ascii.eqb c2 "!" then Ok (header "(?!" 2 s)
                  else if Ascii.eqb c2 "<" then
                    PcreFormat.angle_case pattern char s
                  else if Ascii.eqb c2 "P" then
                    let* r := p_case pattern s in
                    match r with
                    | Some s' => Ok s'
                    | None => Ok (emit (string_of_byte char) s)
                    end
                  else Ok (emit (string_of_byte char) s)) in
      Ok (Continue s')
    else Ok (Continue (emit (string_of_byte char) s))
  else Ok (Fall s).

Definition body : block :=
  char_class_block ;> escape_block ;> brace_block
  ;> suffix_quantifier_block "?" ;> group_block ;> tail_blocks.

Definition TokenizeRegex (pattern : string) : result (list string) :=
  let* pre := strip pattern in
  tokenize_loop body (String.length (snd pre)) (snd pre) (mkSt 0 (fst pre) "").

(** *** The explainer of python.go *)

Definition explain_flag (flag : Z) : string :=
  if flag =? byte_val "a" then "a: ASCII-only matching"
  else if flag =? byte_val "i" then "i: Case-insensitive matching"
  else if flag =? byte_val "L" then "L: Locale-dependent matching"
  else if flag =? byte_val "m" then
    "m: Multi-line matching - ^ and $ match at line breaks"
  else if flag =? byte_val "s" then
    "s: Dot matches all - the dot (.) matches any character including newline"
  else if flag =? byte_val "u" then "u: Unicode matching"
  else if flag =? byte_val "x" then
    "x: Verbose - whitespace and comments in pattern are ignored"
  else utf8_encode flag +:+ ": Unknown flag".

Definition explainPythonFlags (flags : string) : string :=
  if String.eqb flags "" then "No flags specified"
  else "Flags: " +:+ Join (map explain_flag (runes flags)) ", ".

Definition explainPythonEscapeSequence (sequence : string) : result string :=
  if len sequence <? 2 then Ok "Invalid escape sequence"
  else
    let* c := index sequence 1 in
    if Ascii.eqb c "A" then Ok "Matches only at the start of the string"
    else if Ascii.eqb c "Z" then Ok "Matches only at the end of the string"
    else if Ascii.eqb c "d" then Ok "Matches any decimal digit (0-9)"
    else if Ascii.eqb c "D" then Ok "Matches any non-digit character"
    else if Ascii.eqb c "s" then
      Ok "Matches any whitespace character (space, tab, newline, etc.)"
    else if Ascii.eqb c "S" then Ok "Matches any non-whitespace character"
    else if Ascii.eqb c "w" then
      Ok "Matches any alphanumeric character (including underscore)"
    else if Ascii.eqb c "W" then Ok "Matches any non-alphanumeric character"
    else if Ascii.eqb c "b" then Ok "Matches a word boundary"
    else if Ascii.eqb c "B" then Ok "Matches a non-word boundary"
    else if Ascii.eqb c "n" then Ok "Matches a newline character"
    else if Ascii.eqb c "t" then Ok "Matches a tab character"
    else if Ascii.eqb c "r" then Ok "Matches a carriage return character"
    else if Ascii.eqb c "f" then Ok "Matches a form feed character"
    else if Ascii.eqb c "v" then Ok "Matches a vertical tab character"
    else if Ascii.eqb c "a" then Ok "Matches a bell (BEL) character"
    else if is_digit_1_9 c then
      Ok ("Backreference to capturing group " +:+ string_of_byte c)
    else if Ascii.eqb c "g" then explain_named_backref 3 sequence
    else if Ascii.eqb c "x" then
      let* ok := pure (len sequence >=? 4) &&& all_hex 2 sequence 2 in
      if ok then
        let* hex := slice sequence 2 4 in
        Ok ("Matches the character with hex code " +:+ hex)
      else Ok "Invalid hexadecimal escape sequence"
    else if Ascii.eqb c "u" then
      let* ok := pure (len sequence >=? 6) &&& all_hex 4 sequence 2 in
      if ok then
        let* hex := slice sequence 2 6 in
        Ok ("Matches the Unicode character U+" +:+ hex)
      else Ok "Invalid Unicode escape sequence"
    else if Ascii.eqb c "U" then
      let* ok := pure (len sequence >=? 10) &&& all_hex 8 sequence 2 in
      if ok then
        let* hex := slice sequence 2 10 in
        Ok ("Matches the Unicode character U+" +:+ hex)
      else Ok "Invalid extended Unicode escape sequence"
    else if Ascii.eqb c "N" then
      let* brace := pure (len sequence >? 3) &&& index_eq sequence 2 "{" in
      if brace then
        let* rest := slice_from sequence 2 in
        let e := IndexByte rest "}" in
        if e >? 0 then
          let* name := slice sequence 3 (2 + e) in
          Ok ("Matches the Unicode character named '" +:+ name +:+ "'")
        else Ok "Invalid Unicode name escape sequence"
      else Ok "Invalid Unicode name escape sequence"
    else Ok ("Matches the character '" +:+ string_of_byte c +:+ "' literally").

(** The statement after the [switch], reached by a case that ends without
    returning. *)
Definition unknown_token (token : string) : string :=
  "Unknown token: " +:+ token.

Definition ExplainToken (token : string) : result string :=
  if HasPrefix token "r'" || HasPrefix token (String "r" (String dquote ""))
     || HasPrefix token "R'" || HasPrefix token (String "R" (String dquote ""))
  then Ok "Raw string marker - backslashes are treated literally"
  else if HasPrefix token "(?" && HasSuffix token ")" && (len token >? 3) then
    let* isFlag := all_flags (Z.to_nat (len token - 1 - 2)) token 2 in
    if isFlag then
      let* flags := slice token 2 (len token - 1) in
      Ok (explainPythonFlags flags)
    else Ok (unknown_token token)
  else if String.eqb token "^" then Ok "Matches the start of a line"
  else if String.eqb token "$" then Ok "Matches the end of a line"
  else if String.eqb token "." then
    Ok "Matches any single character except newline"
  else if String.eqb token "*" then
    Ok "Matches 0 or more of the preceding element (greedy)"
  else if String.eqb token "+" then
    Ok "Matches 1 or more of the preceding element (greedy)"
  else if String.eqb token "?" then
    Ok "Matches 0 or 1 of the preceding element (greedy)"
  else if String.eqb token "*?" then
    Ok "Matches 0 or more of the preceding element (non-greedy)"
  else if String.eqb token "+?" then
    Ok "Matches 1 or more of the preceding element (non-greedy)"
  else if String.eqb token "??" then
    Ok "Matches 0 or 1 of the preceding element (non-greedy)"
  else if String.eqb token "|" then
    Ok "Acts as an OR operator - matches the expression before or after the |"
  else if String.eqb token "(" then Ok "Start of a capturing group"
  else if String.eqb token ")" then Ok "End of a capturing group"
  else if String.eqb token "(?:" then
    Ok "Start of a non-capturing group - groups the expression but doesn't create a capture group"
  else if String.eqb token "(?=" then
    Ok "Start of a positive lookahead - matches if the pattern inside matches, but doesn't consume characters"
  else if String.eqb token "(?!" then
    Ok "Start of a negative lookahead - matches if the pattern inside doesn't match, but doesn't consume characters"
  else if String.eqb token "(?<=" then
    Ok "Start of a positive lookbehind - matches if the pattern inside matches immediately before current position"
  else if String.eqb token "(?<!" then
    Ok "Start of a negative lookbehind - matches if the pattern inside doesn't match immediately before current position"
  else if HasPrefix token "(?P<" && HasSuffix token ">" then
    let* name := slice token 4 (len token - 1) in
    Ok ("Start of a named capturing group called '" +:+ name +:+ "'")
  else if HasPrefix token "(?P=" && HasSuffix token ")" then
    let* name := slice token 4 (len token - 1) in
    Ok ("Backreference to the named group '" +:+ name +:+ "'")
  else if HasPrefix token "[" && HasSuffix token "]" then explain_class token
  else if HasPrefix token backslash_s then explainPythonEscapeSequence token
  else if HasPrefix token "{" && HasSuffix token "}" then explain_brace token
  else Ok (explain_literal token).

End PythonFormat.


(** ** The registry (format.go) and the dispatch over the five dialects *)

Inductive Dialect : Type := Baseline | Pcre | Posix | Ecma | Python.

(** [GetFormat] *)
Definition GetFormat (formatName : string) : Dialect :=
  if String.eqb formatName "go" then Baseline
  else if String.eqb formatName "pcre" then Pcre
  else if String.eqb formatName "posix" then Posix
  else if String.eqb formatName "js" then Ecma
  else if String.eqb formatName "python" then Python
  else Baseline.

Definition tokenize (d : Dialect) (pattern : string) : result (list string) :=
  match d with
  | Baseline => GoFormat.TokenizeRegex pattern
  | Pcre => PcreFormat.TokenizeRegex pattern
  | Posix => PosixFormat.TokenizeRegex pattern
  | Ecma => JsFormat.TokenizeRegex pattern
  | Python => PythonFormat.TokenizeRegex pattern
  end.

Definition hasFeature (d : Dialect) (feature : string) : bool :=
  match d with
  | Baseline => GoFormat.HasFeature feature
  | Pcre => PcreFormat.HasFeature feature
  | Posix => PosixFormat.HasFeature feature
  | Ecma => JsFormat.HasFeature feature
  | Python => PythonFormat.HasFeature feature
  end.

Definition explain (d : Dialect) (token : string) : result string :=
  match d with
  | Baseline => GoFormat.ExplainToken token
  | Pcre => PcreFormat.ExplainToken token
  | Posix => PosixFormat.ExplainToken token
  | Ecma => JsFormat.ExplainToken token
  | Python => PythonFormat.ExplainToken token
  end.

Definition name (d : Dialect) : string :=
  match d with
  | Baseline => GoFormat.Name
  | Pcre => PcreFormat.Name
  | Posix => PosixFormat.Name
  | Ecma => JsFormat.Name
  | Python => PythonFormat.Name
  end.

(** ** Package [utils] (utils.go) *)

Module utils.

Definition validFormats : gmap string bool :=
  {[ "go" := true; "pcre" := true; "posix" := true; "js" := true;
     "python" := true ]}.

Definition IsValidFormat (format : string) : bool :=
  map_index validFormats format.

Definition formatNames : gmap string string :=
  {[ "go" := "Go Regexp";
     "pcre" := "Perl Compatible Regular Expressions (PCRE)";
     "posix" := "POSIX Extended Regular Expressions";
     "js" := "JavaScript RegExp";
     "python" := "Python re" ]}.

(** [if name, ok := formatNames[format]; ok { return name }; return "Unknown Format"] *)
Definition GetFormatName (format : string) : string :=
  match formatNames !! format with
  | Some name => name
  | None => "Unknown Format"
  end.

End utils.

(** What a tokenizer does before its loop: the tokens it has emitted and
    the pattern the loop scans. *)
Definition pre_pass (d : Dialect) (pattern : string)
  : result (list string * string) :=
  match d with
  | Ecma => JsFormat.strip pattern
  | Python => PythonFormat.strip pattern
  | _ => Ok ([], pattern)
  end.

(** The concatenation of a token sequence. *)
Definition concat_tokens (toks : list string) : string :=
  fold_right String.append "" toks.


(** ** Vocabulary of the statements *)

(** [sub s lo hi] is what [s[lo:hi]] returns when it does not panic. *)
Definition sub (s : string) (lo hi : Z) : string :=
  String.substring (Z.to_nat lo) (Z.to_nat (hi - lo)) s.

Definition nonempty (t : string) : Prop := 0 < len t.

(** The loop invariant: the tokens emitted by the loop so far, followed by
    the pending literal run, spell out [pattern[0:i]], and no token is
    empty.  [pre] are the tokens emitted before the loop. *)
Record Inv (pre : list string) (pattern : string) (s : st) : Prop := mkInv {
  inv_lo : 0 ≤ idx s;
  inv_hi : idx s ≤ len pattern;
  inv_cover : ∃ toks, tokens s = pre ++ toks
                      ∧ concat_tokens toks +:+ cur s = sub pattern 0 (idx s);
  inv_nonempty : Forall nonempty (tokens s)
}.

(** What a block may do from a state [s] that satisfies the invariant:
    continue, with the invariant restored once the loop has incremented
    [i], or fall through with [i] unchanged and the invariant intact. *)
Definition flow_ok (pre : list string) (pattern : string) (s : st) (r : flow)
  : Prop :=
  match r with
  | Continue s' => idx s ≤ idx s' ∧ Inv pre pattern (goto (idx s' + 1) s')
  | Fall s' => idx s' = idx s ∧ Inv pre pattern s'
  end.

Definition block_ok (b : block) : Prop :=
  ∀ pre pattern char s,
    Inv pre pattern s → index pattern (idx s) = Ok char →
    ∃ r, b pattern char s = Ok r ∧ flow_ok pre pattern s r.

(** A body is a block that always continues. *)
Definition body_ok (b : block) : Prop :=
  ∀ pre pattern char s,
    Inv pre pattern s → index pattern (idx s) = Ok char →
    ∃ s', b pattern char s = Ok (Continue s')
          ∧ flow_ok pre pattern s (Continue s').

(** How the pattern relates to the tokens emitted before the loop ([pre])
    and to the pattern the loop scans ([core]):
    - baseline, PCRE and POSIX scan the pattern itself;
    - ECMA scans the pattern itself, or the inside of [/core/], or the
      inside of [/core/flags], in which case the one token ["/" + flags]
      was synthesized;
    - Python emits the raw-string marker and the inline-flags group as
      tokens of their own, so [pre] followed by [core] is the pattern. *)
Definition envelope (d : Dialect) (pattern : string) (pre : list string)
  (core : string) : Prop :=
  match d with
  | Ecma =>
    (pre = [] ∧ core = pattern)
    ∨ (pre = [] ∧ pattern = "/" +:+ core +:+ "/")
    ∨ (∃ flags, flags ≠ "" ∧ pre = ["/" +:+ flags]
                ∧ pattern = "/" +:+ core +:+ "/" +:+ flags)
  | Python => concat_tokens pre +:+ core = pattern
  | _ => pre = [] ∧ core = pattern
  end.

(** [k] hex digits follow at [pattern[j]]: they fit in the pattern and each
    of them satisfies [isHexDigit]. *)
Definition hex_digits_follow (k : nat) (pattern : string) (j : Z) : bool :=
  (j + Z.of_nat k <=? len pattern)
  && forallb isHexDigit (list_ascii_of_string (sub pattern j (j + Z.of_nat k))).

(** The rows of the feature matrix, in the order of [feature_keys]. *)
Definition feature_row (d : Dialect) : list bool :=
  match d with
  | Baseline => [true; false; true; false; false; false; true; false; true; true]
  | Pcre => [true; true; true; true; true; true; true; true; true; true]
  | Posix => [false; false; false; false; false; false; false; false; true; false]
  | Ecma => [true; true; true; false; false; false; true; false; true; true]
  | Python => [true; true; true; false; false; false; true; false; true; true]
  end.

(** *** Vocabulary of the scan and tokenizer properties *)

(** [pattern[j]] is a bracket that [FindClosingBracket(pattern, start)]
    accepts as the closer. *)
Definition closes_class (pattern : string) (start j : Z) : Prop :=
  index pattern j = Ok "]"%char
  ∧ (j = start + 1 ∨ ∃ c, index pattern (j - 1) = Ok c ∧ c ≠ backslash).

(** [pattern[j]] is a brace that [FindClosingCurlyBrace] accepts. *)
Definition closes_brace (pattern : string) (j : Z) : Prop :=
  index pattern j = Ok "}"%char
  ∧ ∃ c, index pattern (j - 1) = Ok c ∧ c ≠ backslash.

(** The bytes that open a construct or are a metacharacter in every
    tokenizer; all other bytes reach the default case. *)
Definition is_special (c : ascii) : bool :=
  Ascii.eqb c "[" || Ascii.eqb c backslash || Ascii.eqb c "{"
  || is_quantifier c || Ascii.eqb c "(" || Ascii.eqb c ")"
  || Ascii.eqb c "|" || Ascii.eqb c "^" || Ascii.eqb c "$" || Ascii.eqb c ".".

Definition all_plain (pattern : string) : bool :=
  forallb (λ c, negb (is_special c)) (list_ascii_of_string pattern).

(** The pattern begins with what the pre-pass of the dialect looks for: a
    ['/'] for ECMA, a raw-string marker for Python. *)
Definition has_envelope (d : Dialect) (pattern : string) : bool :=
  match d with
  | Ecma => HasPrefix pattern "/"
  | Python =>
    match pattern with
    | String c0 (String c1 _) =>
      (Ascii.eqb c0 "r" || Ascii.eqb c0 "R")
      && (Ascii.eqb c1 dquote || Ascii.eqb c1 "'")
    | _ => false
    end
  | _ => false
  end.

Definition no_byte (c : ascii) (s : string) : bool :=
  forallb (λ b, negb (Ascii.eqb b c)) (list_ascii_of_string s).

(** No ['('] of the pattern is followed by ['?']. *)
Definition no_group_header (pattern : string) : Prop :=
  ∀ i, index pattern i = Ok "("%char → index pattern (i + 1) ≠ Ok "?"%char.

(** The state [s] of a loop that was entered with the tokens [pre] already
    emitted, and the outcomes of a block, an iteration and a loop seen from
    there. *)
Definition prepend (pre : list string) (s : st) : st :=
  mkSt (idx s) (pre ++ tokens s) (cur s).

Definition on_result {A : Type} (f : A → A) (r : result A) : result A :=
  let* a := r in Ok (f a).

Definition prepend_flow (pre : list string) (r : flow) : flow :=
  match r with
  | Continue s => Continue (prepend pre s)
  | Fall s => Fall (prepend pre s)
  end.

(** A block that treats the tokens emitted so far as a prefix it only
    appends to. *)
Definition appends_only (b : block) : Prop :=
  ∀ pre pattern char s,
    b pattern char (prepend pre s)
    = on_result (prepend_flow pre) (b pattern char s).

(** The body of the loop of each tokenizer. *)
Definition loop_body (d : Dialect) : block :=
  match d with
  | Baseline => GoFormat.body
  | Pcre => PcreFormat.body
  | Posix => PosixFormat.body
  | Ecma => JsFormat.body
  | Python => PythonFormat.body
  end.

(** What a pending literal run adds to the tokens when it is flushed. *)
Definition run (s : string) : list string := if 0 <? len s then [s] else [].

(** The bytes that every tokenizer emits as a token of their own. *)
Definition is_metachar (c : ascii) : bool :=
  is_quantifier c || Ascii.eqb c "(" || Ascii.eqb c ")" || Ascii.eqb c "|"
  || Ascii.eqb c "^" || Ascii.eqb c "$" || Ascii.eqb c ".".

(** The escapes that python.go reads further than one byte. *)
Definition is_long_escape (d : Dialect) (c : ascii) : bool :=
  match d with
  | Python =>
    Ascii.eqb c "x" || Ascii.eqb c "u" || Ascii.eqb c "U" || Ascii.eqb c "N"
  | _ => false
  end.

(** The byte after position [i], when there is one, is plain. *)
Definition next_plain (p : string) (i : Z) : Prop :=
  ∀ c, index p (i + 1) = Ok c → is_special c = false.

(** The byte a simple quantifier takes with it in dialect [d]: ['+'] in
    PCRE, ['?'] in ECMA and Python, none in the baseline and POSIX. *)
Definition absorbs (d : Dialect) (c : ascii) : bool :=
  match d with
  | Pcre => Ascii.eqb c "+"
  | Ecma | Python => Ascii.eqb c "?"
  | Baseline | Posix => false
  end.

(** What follows ["(?"] in the headers of a negative lookahead and of the
    two lookbehinds. *)
Definition lookaround (h : string) : bool :=
  String.eqb h "!" || String.eqb h "<=" || String.eqb h "<!".

(** Every byte of [flags] is one of the inline-flag letters of python.go. *)
Definition all_flag_letters (flags : string) : bool :=
  forallb PythonFormat.is_flag_letter (list_ascii_of_string flags).

Definition all_hex_digits (h : string) : bool :=
  forallb isHexDigit (list_ascii_of_string h).

(** The hex digits [h] after a [\x] are as many as python.go reads: there
    are two of them, or the pattern ends after them, or the byte after them
    is no hex digit. *)
Definition hex_run_ends (h b : string) : bool :=
  (len h =? 2)
  || match b with
     | EmptyString => true
     | String c _ => negb (isHexDigit c)
     end.


(** ** Theorems *)

(** *** Go strings: lengths, indexing and slices *)

Lemma len_nonneg (s : string) : 0 ≤ len s.
Proof. unfold len. lia. Qed.

Lemma len_String (c : ascii) (s : string) : len (String c s) = 1 + len s.
Proof. unfold len. cbn [String.length]. lia. Qed.

Lemma len_empty : len "" = 0.
Proof. reflexivity. Qed.

Lemma app_nil_l (s : string) : "" +:+ s = s.
Proof. reflexivity. Qed.

Lemma app_cons (c : ascii) (s1 s2 : string) :
  String c s1 +:+ s2 = String c (s1 +:+ s2).
Proof. reflexivity. Qed.

Lemma len_app (s1 s2 : string) : len (s1 +:+ s2) = len s1 + len s2.
Proof.
  induction s1 as [|c s1 IH].
  - rewrite app_nil_l, len_empty. lia.
  - rewrite app_cons, !len_String. lia.
Qed.

Lemma len_zero_inv (s : string) : len s = 0 → s = "".
Proof.
  destruct s as [|c s]; [reflexivity|]. rewrite len_String.
  pose proof (len_nonneg s). lia.
Qed.

Lemma app_empty_r (s : string) : s +:+ "" = s.
Proof.
  induction s as [|c s IH]; [reflexivity|]. now rewrite app_cons, IH.
Qed.

Lemma app_assoc_s (s1 s2 s3 : string) : (s1 +:+ s2) +:+ s3 = s1 +:+ (s2 +:+ s3).
Proof.
  induction s1 as [|c s1 IH]; [reflexivity|]. now rewrite !app_cons, IH.
Qed.

Lemma get_lt (s : string) (n : nat) :
  (n < String.length s)%nat → ∃ c, String.get n s = Some c.
Proof.
  revert n. induction s as [|a s IH]; intros n Hn; cbn [String.length] in Hn.
  - lia.
  - destruct n as [|n]; cbn [String.get]; [eauto|]. apply IH. lia.
Qed.

Lemma get_some_lt (s : string) (n : nat) (c : ascii) :
  String.get n s = Some c → (n < String.length s)%nat.
Proof.
  revert n. induction s as [|a s IH]; intros n Hn; cbn [String.get] in Hn.
  - discriminate.
  - cbn [String.length]. destruct n as [|n]; [lia|]. apply IH in Hn. lia.
Qed.

Lemma index_ok (s : string) (i : Z) :
  0 ≤ i < len s → ∃ c, index s i = Ok c.
Proof.
  intros Hi. unfold index.
  destruct (Z.leb_spec 0 i); [|lia]. destruct (Z.ltb_spec i (len s)); [|lia].
  cbn [andb]. destruct (get_lt s (Z.to_nat i)) as [c ->]; [unfold len in *; lia|].
  eauto.
Qed.

Lemma index_inv (s : string) (i : Z) (c : ascii) :
  index s i = Ok c → 0 ≤ i < len s ∧ String.get (Z.to_nat i) s = Some c.
Proof.
  unfold index.
  destruct (Z.leb_spec 0 i); destruct (Z.ltb_spec i (len s)); cbn [andb];
    try discriminate.
  destruct (String.get (Z.to_nat i) s) as [c'|]; [|discriminate].
  intros [= ->]. auto.
Qed.

Lemma slice_ok (s : string) (lo hi : Z) :
  0 ≤ lo → lo ≤ hi → hi ≤ len s → slice s lo hi = Ok (sub s lo hi).
Proof.
  intros. unfold slice.
  destruct (Z.leb_spec 0 lo); [|lia]. destruct (Z.leb_spec lo hi); [|lia].
  destruct (Z.leb_spec hi (len s)); [|lia]. reflexivity.
Qed.

Lemma slice_from_ok (s : string) (lo : Z) :
  0 ≤ lo → lo ≤ len s → slice_from s lo = Ok (sub s lo (len s)).
Proof. intros. unfold slice_from. apply slice_ok; lia. Qed.

Lemma substring_0_0 (s : string) (n : nat) : String.substring n 0 s = "".
Proof.
  revert n. induction s as [|a s IH]; intros [|n]; cbn [String.substring]; auto.
Qed.

Lemma substring_full (s : string) : String.substring 0 (String.length s) s = s.
Proof. induction s as [|a s IH]; cbn [String.substring String.length]; [auto|now rewrite IH]. Qed.

Lemma substring_length (s : string) (n m : nat) :
  (n + m ≤ String.length s)%nat → String.length (String.substring n m s) = m.
Proof.
  revert n m. induction s as [|a s IH]; intros n m H; cbn [String.length] in H.
  - assert (n = 0%nat) as -> by lia. assert (m = 0%nat) as -> by lia. reflexivity.
  - destruct n as [|n]; cbn [String.substring].
    + destruct m as [|m]; [reflexivity|]. cbn [String.length]. rewrite IH; lia.
    + apply IH. lia.
Qed.

Lemma substring_split (s : string) (n m k : nat) :
  (n + m + k ≤ String.length s)%nat →
  String.substring n m s +:+ String.substring (n + m) k s
  = String.substring n (m + k) s.
Proof.
  revert n m. induction s as [|a s IH]; intros n m H; cbn [String.length] in H.
  - assert (n = 0%nat) as -> by lia. assert (m = 0%nat) as -> by lia.
    assert (k = 0%nat) as -> by lia. reflexivity.
  - destruct n as [|n].
    + destruct m as [|m].
      * cbn [String.substring Nat.add]. reflexivity.
      * cbn [String.substring Nat.add]. rewrite app_cons. f_equal.
        rewrite <- (IH 0%nat m) by lia. reflexivity.
    + cbn [String.substring Nat.add]. apply IH. lia.
Qed.

Lemma substring_get (s : string) (n m : nat) (c : ascii) :
  String.get n s = Some c →
  String.substring n (S m) s = String c (String.substring (S n) m s).
Proof.
  revert n. induction s as [|a s IH]; intros n H; cbn [String.get] in H.
  - discriminate.
  - destruct n as [|n].
    + injection H as ->. cbn [String.substring]. reflexivity.
    + cbn [String.substring]. now apply IH.
Qed.

Lemma sub_empty (s : string) (i : Z) : sub s i i = "".
Proof. unfold sub. rewrite Z.sub_diag. apply substring_0_0. Qed.

Lemma sub_full (s : string) : sub s 0 (len s) = s.
Proof.
  unfold sub, len. rewrite Z.sub_0_r, Nat2Z.id. apply substring_full.
Qed.

Lemma sub_app (s : string) (lo mid hi : Z) :
  0 ≤ lo → lo ≤ mid → mid ≤ hi → hi ≤ len s →
  sub s lo mid +:+ sub s mid hi = sub s lo hi.
Proof.
  intros. unfold sub, len in *.
  replace (Z.to_nat mid) with (Z.to_nat lo + Z.to_nat (mid - lo))%nat by lia.
  replace (Z.to_nat (hi - lo))
    with (Z.to_nat (mid - lo) + Z.to_nat (hi - mid))%nat by lia.
  apply substring_split. lia.
Qed.

Lemma sub_cons (s : string) (i hi : Z) (c : ascii) :
  index s i = Ok c → i < hi →
  sub s i hi = String c (sub s (i + 1) hi).
Proof.
  intros Hc Hhi. apply index_inv in Hc as [Hi Hget]. unfold sub.
  replace (Z.to_nat (hi - i)) with (S (Z.to_nat (hi - (i + 1)))) by lia.
  replace (Z.to_nat (i + 1)) with (S (Z.to_nat i)) by lia.
  now apply substring_get.
Qed.

Lemma len_sub (s : string) (lo hi : Z) :
  0 ≤ lo → lo ≤ hi → hi ≤ len s → len (sub s lo hi) = hi - lo.
Proof.
  intros. unfold sub, len in *. rewrite substring_length; lia.
Qed.

Lemma index_String_0 (c : ascii) (s : string) : index (String c s) 0 = Ok c.
Proof.
  unfold index. rewrite len_String. pose proof (len_nonneg s).
  destruct (Z.ltb_spec 0 (1 + len s)); [|lia]. reflexivity.
Qed.

Lemma index_String_S (c : ascii) (s : string) (i : Z) :
  0 ≤ i → index (String c s) (i + 1) = index s i.
Proof.
  intros Hi. unfold index. rewrite len_String.
  destruct (Z.leb_spec 0 (i + 1)); [|lia]. destruct (Z.leb_spec 0 i); [|lia].
  destruct (Z.ltb_spec (i + 1) (1 + len s)); destruct (Z.ltb_spec i (len s));
    try lia; cbn [andb]; [|reflexivity].
  replace (Z.to_nat (i + 1)) with (S (Z.to_nat i)) by lia. reflexivity.
Qed.

(** Bytes below 128 are their own UTF-8 encoding. *)
Lemma byte_of_val (c : ascii) : byte_of (byte_val c) = c.
Proof. unfold byte_of, byte_val. rewrite N2Z.id. apply ascii_N_embedding. Qed.

Lemma byte_val_range (c : ascii) : 0 ≤ byte_val c < 256.
Proof.
  unfold byte_val. pose proof (N_ascii_bounded c). lia.
Qed.

Lemma string_of_byte_ascii (c : ascii) :
  byte_val c < 128 → string_of_byte c = String c "".
Proof.
  intros H. pose proof (byte_val_range c). unfold string_of_byte, utf8_encode.
  destruct (Z.leb_spec 0 (byte_val c)); [|lia].
  destruct (Z.leb_spec (byte_val c) 127); [|lia].
  cbn [andb]. now rewrite byte_of_val.
Qed.

Lemma prefix_cons_inv (a : ascii) (s1 s2 : string) :
  String.prefix (String a s1) s2 = true →
  ∃ s2', s2 = String a s2' ∧ String.prefix s1 s2' = true.
Proof.
  destruct s2 as [|b s2]; cbn [String.prefix]; [discriminate|].
  destruct (ascii_dec a b) as [<-|_]; [|discriminate]. eauto.
Qed.

Lemma sub_tail (c : ascii) (s : string) : sub (String c s) 1 (len (String c s)) = s.
Proof.
  unfold sub. rewrite len_String.
  replace (Z.to_nat (1 + len s - 1)) with (String.length s) by (unfold len; lia).
  change (Z.to_nat 1) with 1%nat. cbn [String.substring]. apply substring_full.
Qed.


(** *** The loop invariant *)

Lemma concat_tokens_app (a b : list string) :
  concat_tokens (a ++ b) = concat_tokens a +:+ concat_tokens b.
Proof.
  induction a as [|t a IH]; [reflexivity|].
  cbn [app concat_tokens fold_right]. fold (concat_tokens (a ++ b)).
  fold (concat_tokens a). now rewrite IH, app_assoc_s.
Qed.

Lemma concat_tokens_snoc (a : list string) (t : string) :
  concat_tokens (a ++ [t]) = concat_tokens a +:+ t.
Proof.
  rewrite concat_tokens_app. cbn [concat_tokens fold_right].
  now rewrite app_empty_r.
Qed.

Lemma flush_idx (s : st) : idx (flush s) = idx s.
Proof. unfold flush. now destruct (0 <? len (cur s)). Qed.

Lemma flush_cur (s : st) : cur (flush s) = "".
Proof.
  unfold flush. destruct (Z.ltb_spec 0 (len (cur s))); [reflexivity|].
  apply len_zero_inv. pose proof (len_nonneg (cur s)). lia.
Qed.

Lemma Inv_flush pre pattern s : Inv pre pattern s → Inv pre pattern (flush s).
Proof.
  intros [Hlo Hhi (toks & Htoks & Hcov) Hne]. unfold flush.
  destruct (Z.ltb_spec 0 (len (cur s))); [|now constructor; eauto].
  constructor; cbn [idx tokens cur]; auto.
  - exists (toks ++ [cur s]). split.
    + now rewrite Htoks, app_assoc.
    + now rewrite concat_tokens_snoc, app_empty_r.
  - apply Forall_app. split; [assumption|]. now constructor.
Qed.

(** Emitting [pattern[i:hi]] with an empty literal run and moving to [hi]. *)
Lemma Inv_emit pre pattern s tok hi j :
  Inv pre pattern s → cur s = "" →
  tok = sub pattern (idx s) hi → idx s < hi → hi ≤ len pattern → j = hi →
  Inv pre pattern (mkSt j (tokens s ++ [tok]) "").
Proof.
  intros [Hlo Hhi (toks & Htoks & Hcov) Hne] Hcur -> Hlt Hle ->.
  constructor; cbn [idx tokens cur]; try lia.
  - exists (toks ++ [sub pattern (idx s) hi]). split.
    + now rewrite Htoks, app_assoc.
    + rewrite concat_tokens_snoc, app_empty_r.
      rewrite Hcur, app_empty_r in Hcov. rewrite Hcov.
      apply sub_app; lia.
  - apply Forall_app. split; [assumption|]. constructor; [|constructor].
    unfold nonempty. rewrite len_sub; lia.
Qed.

(** Appending [pattern[i]] to the literal run and moving to [i + 1]. *)
Lemma Inv_write pre pattern s c :
  Inv pre pattern s → index pattern (idx s) = Ok c →
  Inv pre pattern (mkSt (idx s + 1) (tokens s) (cur s +:+ String c "")).
Proof.
  intros [Hlo Hhi (toks & Htoks & Hcov) Hne] Hc.
  pose proof (index_inv _ _ _ Hc) as [Hi _].
  constructor; cbn [idx tokens cur]; try lia; [|assumption].
  exists toks. split; [assumption|].
  rewrite <- app_assoc_s, Hcov.
  rewrite <- (sub_app pattern 0 (idx s) (idx s + 1)) by lia. f_equal.
  rewrite (sub_cons _ _ _ _ Hc) by lia. now rewrite sub_empty.
Qed.

Lemma flow_ok_flush pre pattern s r :
  flow_ok pre pattern (flush s) r → flow_ok pre pattern s r.
Proof. destruct r; cbn [flow_ok]; now rewrite flush_idx. Qed.

Lemma block_ok_seq (b1 b2 : block) :
  block_ok b1 → block_ok b2 → block_ok (b1 ;> b2).
Proof.
  intros H1 H2 pre pattern char s HI Hc. unfold seq_block.
  destruct (H1 pre pattern char s HI Hc) as ([s'|s'] & -> & Hr); cbn [bind].
  - exists (Continue s'). auto.
  - destruct Hr as [Hidx HI']. rewrite <- Hidx in Hc.
    destruct (H2 pre pattern char s' HI' Hc) as (r & -> & Hr).
    exists r. split; [reflexivity|]. destruct r; cbn [flow_ok] in *; now rewrite <- Hidx.
Qed.

Lemma body_ok_seq (b1 b2 : block) :
  block_ok b1 → body_ok b2 → body_ok (b1 ;> b2).
Proof.
  intros H1 H2 pre pattern char s HI Hc. unfold seq_block.
  destruct (H1 pre pattern char s HI Hc) as ([s'|s'] & -> & Hr); cbn [bind].
  - exists s'. auto.
  - destruct Hr as [Hidx HI']. rewrite <- Hidx in Hc.
    destruct (H2 pre pattern char s' HI' Hc) as (s'' & -> & Hr).
    exists s''. split; [reflexivity|]. cbn [flow_ok] in *; now rewrite <- Hidx.
Qed.

(** The loop, run from a state that satisfies the invariant with enough
    fuel for the bytes that remain, returns tokens that spell out the
    whole pattern. *)
Lemma tokenize_loop_ok (body : block) (pre : list string) (pattern : string) :
  body_ok body →
  ∀ (fuel : nat) (s : st),
    Inv pre pattern s → len pattern - idx s ≤ Z.of_nat fuel →
    ∃ toks, tokenize_loop body fuel pattern s = Ok (pre ++ toks)
            ∧ concat_tokens toks = pattern
            ∧ Forall nonempty (pre ++ toks).
Proof.
  intros Hbody fuel. induction fuel as [|fuel IH]; intros s HI Hfuel.
  - cbn [tokenize_loop]. destruct HI as [Hlo Hhi Hcov Hne].
    destruct (Z.ltb_spec (idx s) (len pattern)); [lia|].
    assert (HI : Inv pre pattern (flush s))
      by (apply Inv_flush; now constructor).
    destruct HI as [_ _ (toks & Htoks & Hcov') Hne'].
    exists toks. rewrite flush_cur, app_empty_r, flush_idx in Hcov'.
    rewrite Htoks in *. repeat split; auto.
    rewrite Hcov'. replace (idx s) with (len pattern) by lia. apply sub_full.
  - cbn [tokenize_loop]. destruct (Z.ltb_spec (idx s) (len pattern)) as [Hlt|Hge].
    + destruct (index_ok pattern (idx s)) as [c Hc]; [destruct HI; lia|].
      unfold iteration. rewrite Hc. cbn [bind].
      destruct (Hbody pre pattern c s HI Hc) as (s' & -> & Hle & HI').
      cbn [bind]. apply IH; [assumption|]. cbn [goto idx]. lia.
    + assert (HI' : Inv pre pattern (flush s)) by now apply Inv_flush.
      destruct HI as [Hlo Hhi _ _].
      destruct HI' as [_ _ (toks & Htoks & Hcov') Hne'].
      exists toks. rewrite flush_cur, app_empty_r, flush_idx in Hcov'.
      rewrite Htoks in *. repeat split; auto.
      rewrite Hcov'. replace (idx s) with (len pattern) by lia. apply sub_full.
Qed.

(** *** The scans never panic and stay in range *)

Lemma index_eq_ok (p : string) (j : Z) (c d : ascii) :
  index p j = Ok c → index_eq p j d = Ok (Ascii.eqb c d).
Proof. intros H. unfold index_eq. now rewrite H. Qed.

Lemma index_ne_ok (p : string) (j : Z) (c d : ascii) :
  index p j = Ok c → index_ne p j d = Ok (negb (Ascii.eqb c d)).
Proof. intros H. unfold index_ne. now rewrite H. Qed.

Ltac eval_index p j c Hc :=
  destruct (index_ok p j) as [c Hc]; [lia|];
  rewrite ?(index_eq_ok _ _ _ _ Hc), ?(index_ne_ok _ _ _ _ Hc), ?Hc.

Lemma FindClosingBracket_loop_ok (n : nat) (p : string) (start i : Z) :
  0 ≤ start → start < i → i + Z.of_nat n ≤ len p →
  ∃ e, FindClosingBracket_loop n p start i = Ok e ∧ (e = -1 ∨ i ≤ e < len p).
Proof.
  revert i. induction n as [|n IH]; intros i H0 Hi Hn.
  - exists (-1). auto.
  - cbn [FindClosingBracket_loop].
    eval_index p i c Hc. eval_index p (i - 1) c' Hc'.
    assert (∃ b, Ok (Ascii.eqb c "]")
                 &&& (pure (i =? start + 1) ||| Ok (negb (Ascii.eqb c' backslash)))
                 = Ok b) as [b ->].
    { destruct (Ascii.eqb c "]"); [|now eexists].
      destruct (i =? start + 1); now eexists. }
    cbn [bind]. destruct b.
    + exists i. split; [reflexivity|]. right. lia.
    + destruct (IH (i + 1)) as (e & -> & He); try lia.
      exists e. split; [reflexivity|]. lia.
Qed.

Lemma FindClosingBracket_ok (p : string) (start : Z) :
  0 ≤ start < len p →
  ∃ e, FindClosingBracket p start = Ok e ∧ (e = -1 ∨ start < e < len p).
Proof.
  intros H. unfold FindClosingBracket.
  destruct (FindClosingBracket_loop_ok (Z.to_nat (len p - (start + 1))) p
              start (start + 1)) as (e & -> & He); try lia.
  exists e. split; [reflexivity|]. lia.
Qed.

Lemma FindClosingCurlyBrace_loop_ok (n : nat) (p : string) (i : Z) :
  0 < i → i + Z.of_nat n ≤ len p →
  ∃ e, FindClosingCurlyBrace_loop n p i = Ok e ∧ (e = -1 ∨ i ≤ e < len p).
Proof.
  revert i. induction n as [|n IH]; intros i Hi Hn.
  - exists (-1). auto.
  - cbn [FindClosingCurlyBrace_loop].
    eval_index p i c Hc. eval_index p (i - 1) c' Hc'.
    assert (∃ b, Ok (Ascii.eqb c "}") &&& Ok (negb (Ascii.eqb c' backslash))
                 = Ok b) as [b ->].
    { destruct (Ascii.eqb c "}"); now eexists. }
    cbn [bind]. destruct b.
    + exists i. split; [reflexivity|]. right. lia.
    + destruct (IH (i + 1)) as (e & -> & He); try lia.
      exists e. split; [reflexivity|]. lia.
Qed.

Lemma FindClosingCurlyBrace_ok (p : string) (start : Z) :
  0 ≤ start < len p →
  ∃ e, FindClosingCurlyBrace p start = Ok e ∧ (e = -1 ∨ start < e < len p).
Proof.
  intros H. unfold FindClosingCurlyBrace.
  destruct (FindClosingCurlyBrace_loop_ok (Z.to_nat (len p - (start + 1))) p
              (start + 1)) as (e & -> & He); try lia.
  exists e. split; [reflexivity|]. lia.
Qed.

Lemma IndexByte_from_range (s : string) (c : ascii) (k : Z) :
  IndexByte_from s c k = -1 ∨ k ≤ IndexByte_from s c k < k + len s.
Proof.
  revert k. induction s as [|a s IH]; intros k; cbn [IndexByte_from].
  - now left.
  - rewrite len_String. pose proof (len_nonneg s).
    destruct (Ascii.eqb a c); [right; lia|].
    destruct (IH (k + 1)) as [->|H']; [now left|right; lia].
Qed.

Lemma IndexByte_range (s : string) (c : ascii) :
  IndexByte s c = -1 ∨ 0 ≤ IndexByte s c < len s.
Proof. apply (IndexByte_from_range s c 0). Qed.

(** *** Tokens that are slices of the pattern *)

Lemma sub_1 (p : string) (i : Z) (c0 : ascii) :
  index p i = Ok c0 → sub p i (i + 1) = String c0 "".
Proof. intros H0. rewrite (sub_cons _ _ _ _ H0) by lia. now rewrite sub_empty. Qed.

Lemma sub_2 (p : string) (i : Z) (c0 c1 : ascii) :
  index p i = Ok c0 → index p (i + 1) = Ok c1 →
  sub p i (i + 2) = String c0 (String c1 "").
Proof.
  intros H0 H1. rewrite (sub_cons _ _ _ _ H0) by lia.
  rewrite (sub_cons _ _ _ _ H1) by lia.
  replace (i + 1 + 1) with (i + 2) by lia. now rewrite sub_empty.
Qed.

Lemma sub_3 (p : string) (i : Z) (c0 c1 c2 : ascii) :
  index p i = Ok c0 → index p (i + 1) = Ok c1 → index p (i + 2) = Ok c2 →
  sub p i (i + 3) = String c0 (String c1 (String c2 "")).
Proof.
  intros H0 H1 H2. rewrite (sub_cons _ _ _ _ H0) by lia.
  rewrite (sub_cons _ _ _ _ H1) by lia.
  replace (i + 1 + 1) with (i + 2) by lia.
  rewrite (sub_cons _ _ _ _ H2) by lia.
  replace (i + 2 + 1) with (i + 3) by lia. now rewrite sub_empty.
Qed.

Lemma sub_4 (p : string) (i : Z) (c0 c1 c2 c3 : ascii) :
  index p i = Ok c0 → index p (i + 1) = Ok c1 → index p (i + 2) = Ok c2 →
  index p (i + 3) = Ok c3 →
  sub p i (i + 4) = String c0 (String c1 (String c2 (String c3 ""))).
Proof.
  intros H0 H1 H2 H3. rewrite (sub_cons _ _ _ _ H0) by lia.
  replace (i + 4) with (i + 1 + 3) by lia.
  replace (i + 2) with (i + 1 + 1) in H2 by lia.
  replace (i + 3) with (i + 1 + 2) in H3 by lia.
  now rewrite (sub_3 _ _ _ _ _ H1 H2 H3).
Qed.

(** *** The blocks preserve the invariant *)

(** After a flush, emitting [tok = pattern[i:hi]] and leaving [i] at
    [hi - 1] is a correct [continue]. *)
Lemma continue_emit pre pattern s0 s tok hi j :
  Inv pre pattern s → cur s = "" → idx s = idx s0 →
  tok = sub pattern (idx s) hi → idx s < hi → hi ≤ len pattern → j = hi - 1 →
  flow_ok pre pattern s0 (Continue (goto j (emit tok s))).
Proof.
  intros HI Hcur Hidx Htok Hlt Hle ->.
  unfold flow_ok, goto, emit. cbn [idx tokens cur].
  split; [lia|]. rewrite Hcur.
  eapply Inv_emit; eauto. lia.
Qed.

(** The same for the one-byte token [string(char)]. *)
Lemma continue_emit_char pre pattern s char :
  Inv pre pattern s → index pattern (idx s) = Ok char → byte_val char < 128 →
  flow_ok pre pattern s (Continue (emit (string_of_byte char) (flush s))).
Proof.
  intros HI Hc Hascii. pose proof (index_inv _ _ _ Hc) as [Hi _].
  unfold flow_ok, goto, emit. cbn [idx tokens cur].
  rewrite flush_idx, flush_cur.
  split; [lia|].
  eapply Inv_emit; eauto using Inv_flush, flush_cur; rewrite ?flush_idx; try lia.
  rewrite string_of_byte_ascii by assumption. symmetry. now apply sub_1.
Qed.

Ltac flushed :=
  auto using Inv_flush, flush_cur, flush_idx;
  rewrite ?flush_idx; first [reflexivity | lia | idtac].

Ltac fall_through :=
  eexists (Fall _); split; [reflexivity|]; cbn [flow_ok]; auto.

Lemma class_scan_ok pre pattern s0 s :
  Inv pre pattern s → cur s = "" → idx s = idx s0 → idx s < len pattern →
  ∃ r, class_scan pattern s = Ok r ∧ flow_ok pre pattern s0 r.
Proof.
  intros HI Hcur Hidx Hlt. unfold class_scan.
  pose proof (inv_lo _ _ _ HI) as Hlo.
  destruct (FindClosingBracket_ok pattern (idx s)) as (e & -> & He); [lia|].
  cbn [bind]. destruct (Z.gtb_spec e (idx s)).
  - rewrite slice_ok by lia. cbn [bind].
    eexists; split; [reflexivity|].
    apply (continue_emit _ _ _ _ _ (e + 1)); auto; lia.
  - fall_through.
Qed.

Lemma char_class_block_ok : block_ok char_class_block.
Proof.
  intros pre pattern char s HI Hc. unfold char_class_block.
  pose proof (index_inv _ _ _ Hc) as [Hi _].
  destruct (Ascii.eqb char "["); [|fall_through].
  apply class_scan_ok; auto using Inv_flush, flush_cur, flush_idx.
  rewrite flush_idx. lia.
Qed.

Lemma escape_block_ok : block_ok escape_block.
Proof.
  intros pre pattern char s HI Hc. unfold escape_block.
  pose proof (index_inv _ _ _ Hc) as [Hi _].
  destruct (Ascii.eqb char backslash); cbn [andb]; [|fall_through].
  destruct (Z.ltb_spec (idx s + 1) (len pattern)); [|fall_through].
  rewrite flush_idx. rewrite slice_ok by lia. cbn [bind].
  eexists; split; [reflexivity|].
  apply (continue_emit _ _ _ _ _ (idx s + 2));
    flushed.
Qed.

Lemma brace_block_ok : block_ok brace_block.
Proof.
  intros pre pattern char s HI Hc. unfold brace_block.
  pose proof (index_inv _ _ _ Hc) as [Hi _].
  destruct (Ascii.eqb char "{"); [|fall_through].
  rewrite flush_idx.
  destruct (FindClosingCurlyBrace_ok pattern (idx s)) as (e & -> & He); [lia|].
  cbn [bind]. destruct (Z.gtb_spec e (idx s)).
  - rewrite slice_ok by lia. cbn [bind].
    eexists; split; [reflexivity|].
    apply (continue_emit _ _ _ _ _ (e + 1));
      flushed.
  - fall_through. split; [apply flush_idx|now apply Inv_flush].
Qed.

Lemma is_quantifier_ascii (c : ascii) : is_quantifier c = true → byte_val c < 128.
Proof.
  unfold is_quantifier.
  destruct (Ascii.eqb_spec c "*") as [->|_]; [intros _; vm_compute; reflexivity|].
  destruct (Ascii.eqb_spec c "+") as [->|_]; [intros _; vm_compute; reflexivity|].
  destruct (Ascii.eqb_spec c "?") as [->|_]; [intros _; vm_compute; reflexivity|].
  discriminate.
Qed.

Lemma single_block_ok (cond : ascii → bool) :
  (∀ c, cond c = true → byte_val c < 128) → block_ok (single_block cond).
Proof.
  intros Hcond pre pattern char s HI Hc. unfold single_block.
  destruct (cond char) eqn:E; [|fall_through].
  eexists; split; [reflexivity|]. apply continue_emit_char; auto.
Qed.

Lemma plain_quantifier_block_ok : block_ok plain_quantifier_block.
Proof. apply (single_block_ok is_quantifier), is_quantifier_ascii. Qed.

Lemma suffix_quantifier_block_ok (suffix : ascii) :
  block_ok (suffix_quantifier_block suffix).
Proof.
  intros pre pattern char s HI Hc. unfold suffix_quantifier_block.
  pose proof (index_inv _ _ _ Hc) as [Hi _].
  destruct (is_quantifier char) eqn:E; [|fall_through].
  apply is_quantifier_ascii in E. rewrite flush_idx.
  destruct (Z.ltb_spec (idx s + 1) (len pattern)).
  - eval_index pattern (idx s + 1) c1 Hc1. cbn [and_then bind].
    destruct (Ascii.eqb_spec c1 suffix) as [->|_].
    + eexists; split; [reflexivity|].
      apply (continue_emit _ _ _ _ _ (idx s + 2));
        flushed.
      rewrite string_of_byte_ascii by assumption. rewrite app_cons, app_nil_l.
      symmetry. now apply sub_2.
    + eexists; split; [reflexivity|]. apply continue_emit_char; auto.
  - cbn [and_then bind].
    eexists; split; [reflexivity|]. apply continue_emit_char; auto.
Qed.

Lemma default_block_ok : body_ok default_block.
Proof.
  intros pre pattern char s HI Hc. unfold default_block.
  eexists; split; [reflexivity|].
  unfold flow_ok, goto, write_byte. cbn [idx tokens cur].
  split; [lia|]. now apply Inv_write.
Qed.

Lemma tail_blocks_ok : body_ok tail_blocks.
Proof.
  unfold tail_blocks, close_paren_block, alternation_block, anchor_block,
    dot_block.
  repeat (apply body_ok_seq; [apply single_block_ok|]);
    [..|apply default_block_ok]; intros c.
  - destruct (Ascii.eqb_spec c ")") as [->|_]; [vm_compute; reflexivity|discriminate].
  - destruct (Ascii.eqb_spec c "|") as [->|_]; [vm_compute; reflexivity|discriminate].
  - destruct (Ascii.eqb_spec c "^") as [->|_]; [intros _; vm_compute; reflexivity|].
    destruct (Ascii.eqb_spec c "$") as [->|_]; [intros _; vm_compute; reflexivity|discriminate].
  - destruct (Ascii.eqb_spec c ".") as [->|_]; [vm_compute; reflexivity|discriminate].
Qed.

(** *** Group headers *)

Lemma emit_char_ok pre pattern s0 s char :
  Inv pre pattern s → cur s = "" → idx s = idx s0 →
  index pattern (idx s0) = Ok char → byte_val char < 128 →
  flow_ok pre pattern s0 (Continue (emit (string_of_byte char) s)).
Proof.
  intros HI Hcur Hidx Hc Hascii. pose proof (index_inv _ _ _ Hc) as [Hi _].
  unfold flow_ok, goto, emit. cbn [idx tokens cur]. rewrite Hcur, Hidx.
  split; [lia|].
  apply (Inv_emit _ _ _ _ (idx s0 + 1)); auto; rewrite ?Hidx; try lia.
  rewrite string_of_byte_ascii by assumption. symmetry. now apply sub_1.
Qed.

Lemma header_ok pre pattern s0 s tok n :
  Inv pre pattern s → cur s = "" → idx s = idx s0 →
  tok = sub pattern (idx s0) (idx s0 + n + 1) → 0 ≤ n →
  idx s0 + n + 1 ≤ len pattern →
  flow_ok pre pattern s0 (Continue (header tok n s)).
Proof.
  intros HI Hcur Hidx Htok Hn Hle. unfold header.
  apply (continue_emit _ _ _ _ _ (idx s0 + n + 1)); auto; rewrite ?Hidx;
    first [assumption | lia].
Qed.

Lemma named_group_ok pre pattern s0 s char from :
  Inv pre pattern s → cur s = "" → idx s = idx s0 →
  index pattern (idx s0) = Ok char → byte_val char < 128 →
  idx s0 < from → from ≤ len pattern →
  ∃ s', named_group pattern char from s = Ok s'
        ∧ flow_ok pre pattern s0 (Continue s').
Proof.
  intros HI Hcur Hidx Hc Hascii Hfrom Hle.
  pose proof (index_inv _ _ _ Hc) as [Hi _]. unfold named_group.
  rewrite slice_from_ok by lia. cbn [bind].
  destruct (IndexByte_range (sub pattern from (len pattern)) ">") as [E|E].
  - rewrite E. cbn [Z.geb Z.compare]. eexists; split; [reflexivity|].
    now apply emit_char_ok.
  - rewrite len_sub in E by lia.
    destruct (Z.geb_spec (IndexByte (sub pattern from (len pattern)) ">") 0);
      [|lia].
    rewrite Hidx, slice_ok by lia. cbn [bind]. eexists; split; [reflexivity|].
    apply (continue_emit _ _ _ _ _
             (IndexByte (sub pattern from (len pattern)) ">" + from + 1));
      auto; rewrite ?Hidx; first [reflexivity | lia].
Qed.

Lemma open_paren_ascii : byte_val "(" < 128.
Proof. vm_compute. reflexivity. Qed.

Lemma angle_case_ok pre pattern s0 s :
  Inv pre pattern s → cur s = "" → idx s = idx s0 →
  index pattern (idx s0) = Ok "("%char →
  index pattern (idx s0 + 1) = Ok "?"%char →
  index pattern (idx s0 + 2) = Ok "<"%char →
  ∃ s', PcreFormat.angle_case pattern "(" s = Ok s'
        ∧ flow_ok pre pattern s0 (Continue s').
Proof.
  intros HI Hcur Hidx Hc Hc1 Hc2.
  pose proof (index_inv _ _ _ Hc2) as [Hi _]. unfold PcreFormat.angle_case.
  rewrite Hidx. destruct (Z.ltb_spec (idx s0 + 3) (len pattern)).
  - eval_index pattern (idx s0 + 3) c3 Hc3. cbn [bind].
    destruct (Ascii.eqb_spec c3 "=") as [->|_];
      [|destruct (Ascii.eqb_spec c3 "!") as [->|_]].
    + eexists; split; [reflexivity|]. apply header_ok; auto; try lia.
      symmetry. replace (idx s0 + 3 + 1) with (idx s0 + 4) by lia.
      now apply sub_4.
    + eexists; split; [reflexivity|]. apply header_ok; auto; try lia.
      symmetry. replace (idx s0 + 3 + 1) with (idx s0 + 4) by lia.
      now apply sub_4.
    + apply named_group_ok; auto using open_paren_ascii; lia.
  - eexists; split; [reflexivity|].
    apply emit_char_ok; auto using open_paren_ascii.
Qed.

Lemma bind_continue (m : result st) pre pattern s0 :
  (∃ s', m = Ok s' ∧ flow_ok pre pattern s0 (Continue s')) →
  ∃ r, (let* s' := m in Ok (Continue s')) = Ok r ∧ flow_ok pre pattern s0 r.
Proof. intros (s' & -> & H). exists (Continue s'). auto. Qed.

(** The common entry of the group blocks: past the test for ["(?"], with
    the third byte read. *)
Ltac enter_group pattern s HI Hc :=
  let Hi := fresh "Hi" in
  pose proof (index_inv _ _ _ Hc) as [Hi _];
  match goal with
  | |- context [Ascii.eqb ?char "("] =>
    destruct (Ascii.eqb_spec char "(") as [->|_]; [|fall_through]
  end;
  rewrite ?flush_idx;
  pose proof (Inv_flush _ _ _ HI) as HIf;
  pose proof (flush_cur s) as Hcur;
  pose proof (flush_idx s) as Hidx;
  destruct (Z.ltb_spec (idx s + 2) (len pattern));
    [|cbn [and_then bind]; eexists; split; [reflexivity|];
      apply emit_char_ok; auto using open_paren_ascii];
  let c1 := fresh "c1" in let Hc1 := fresh "Hc1" in
  eval_index pattern (idx s + 1) c1 Hc1; cbn [and_then bind];
  destruct (Ascii.eqb_spec c1 "?") as [->|_];
    [|eexists; split; [reflexivity|];
      apply emit_char_ok; auto using open_paren_ascii];
  let c2 := fresh "c2" in let Hc2 := fresh "Hc2" in
  eval_index pattern (idx s + 2) c2 Hc2; cbn [bind];
  apply bind_continue.

Ltac header3 :=
  eexists; split; [reflexivity|]; apply header_ok; auto; try lia;
  symmetry; rewrite <- Z.add_assoc; now apply sub_3.

Ltac bare_paren :=
  eexists; split; [reflexivity|];
  apply emit_char_ok; auto using open_paren_ascii.

Ltac p_named pattern s :=
  destruct (Z.ltb_spec (idx s + 3) (len pattern)); [|cbn [and_then bind]; bare_paren];
  let c3 := fresh "c3" in let Hc3 := fresh "Hc3" in
  eval_index pattern (idx s + 3) c3 Hc3; cbn [and_then bind];
  destruct (Ascii.eqb c3 "<"); [|bare_paren];
  apply named_group_ok; auto using open_paren_ascii; lia.

Lemma Go_group_block_ok : block_ok GoFormat.group_block.
Proof.
  intros pre pattern char s HI Hc. unfold GoFormat.group_block.
  enter_group pattern s HI Hc.
  destruct (Ascii.eqb_spec c2 ":") as [->|_]; [header3|].
  destruct (Ascii.eqb_spec c2 "=") as [->|_]; [header3|].
  destruct (Ascii.eqb_spec c2 "P") as [->|_]; [|bare_paren].
  p_named pattern s.
Qed.

Lemma Pcre_group_block_ok : block_ok PcreFormat.group_block.
Proof.
  intros pre pattern char s HI Hc. unfold PcreFormat.group_block.
  enter_group pattern s HI Hc.
  destruct (Ascii.eqb_spec c2 ":") as [->|_]; [header3|].
  destruct (Ascii.eqb_spec c2 "=") as [->|_]; [header3|].
  destruct (Ascii.eqb_spec c2 "!") as [->|_]; [header3|].
  destruct (Ascii.eqb_spec c2 "<") as [->|_]; [now apply angle_case_ok|].
  destruct (Ascii.eqb_spec c2 ">") as [->|_]; [header3|].
  destruct (Ascii.eqb_spec c2 "P") as [->|_]; [|bare_paren].
  p_named pattern s.
Qed.

Lemma Js_group_block_ok : block_ok JsFormat.group_block.
Proof.
  intros pre pattern char s HI Hc. unfold JsFormat.group_block.
  enter_group pattern s HI Hc.
  destruct (Ascii.eqb_spec c2 ":") as [->|_]; [header3|].
  destruct (Ascii.eqb_spec c2 "=") as [->|_]; [header3|].
  destruct (Ascii.eqb_spec c2 "!") as [->|_]; [header3|].
  destruct (Ascii.eqb_spec c2 "<") as [->|_]; [now apply angle_case_ok|].
  bare_paren.
Qed.

Lemma Posix_group_block_ok : block_ok PosixFormat.group_block.
Proof.
  apply single_block_ok. intros c.
  destruct (Ascii.eqb_spec c "(") as [->|_]; [intros _; apply open_paren_ascii|discriminate].
Qed.

(** *** The POSIX class block *)

Lemma nested_class_ok pre pattern s0 s :
  Inv pre pattern s → cur s = "" → idx s = idx s0 → idx s0 < len pattern →
  ∃ r, PosixFormat.nested_class pattern s = Ok r
       ∧ match r with
         | Some s' => flow_ok pre pattern s0 (Continue s')
         | None => True
         end.
Proof.
  intros HI Hcur Hidx Hlt. pose proof (inv_lo _ _ _ HI) as Hlo.
  unfold PosixFormat.nested_class. rewrite Hidx in *.
  destruct (Z.ltb_spec (idx s0 + 2) (len pattern));
    [|exists None; split; [reflexivity|exact I]].
  eval_index pattern (idx s0 + 1) c1 Hc1.
  eval_index pattern (idx s0 + 2) c2 Hc2. cbn [and_then bind].
  destruct (Ascii.eqb c1 "["); cbn [bind];
    [|exists None; split; [reflexivity|exact I]].
  destruct (Ascii.eqb c2 ":"); cbn [bind];
    [|exists None; split; [reflexivity|exact I]].
  rewrite slice_from_ok by lia. cbn [bind].
  destruct (Z.gtb_spec (Index (sub pattern (idx s0) (len pattern)) ":]") 3);
    [|exists None; split; [reflexivity|exact I]].
  destruct (FindClosingBracket_ok pattern (idx s0)) as (e & -> & He); [lia|].
  cbn [bind].
  destruct (Z.gtb_spec e
              (idx s0 + Index (sub pattern (idx s0) (len pattern)) ":]" + 2));
    [|exists None; split; [reflexivity|exact I]].
  rewrite slice_ok by lia. cbn [bind]. eexists; split; [reflexivity|].
  apply (continue_emit _ _ _ _ _ (e + 1)); auto; rewrite ?Hidx;
    first [reflexivity | lia].
Qed.

Lemma Posix_char_class_block_ok : block_ok PosixFormat.char_class_block.
Proof.
  intros pre pattern char s HI Hc. unfold PosixFormat.char_class_block.
  pose proof (index_inv _ _ _ Hc) as [Hi _].
  destruct (Ascii.eqb char "["); [|fall_through].
  destruct (nested_class_ok pre pattern s (flush s)) as ([s'|] & -> & Hr);
    auto using Inv_flush, flush_cur, flush_idx; [lia|..]; cbn [bind].
  - eexists; split; [reflexivity|assumption].
  - apply class_scan_ok; auto using Inv_flush, flush_cur, flush_idx.
    rewrite flush_idx. lia.
Qed.

(** *** The Python escape and group blocks *)

Lemma is_hex_at_ok (p : string) (j : Z) :
  0 ≤ j < len p → ∃ b, PythonFormat.is_hex_at p j = Ok b.
Proof.
  intros H. unfold PythonFormat.is_hex_at.
  destruct (index_ok p j) as [c ->]; [lia|]. now eexists.
Qed.

Lemma hex_scan_ok (n : nat) (p : string) (j hexEnd : Z) :
  0 ≤ j → j + Z.of_nat n = hexEnd → hexEnd ≤ len p →
  ∃ r, PythonFormat.hex_scan n p j hexEnd = Ok r ∧ j ≤ r ≤ hexEnd.
Proof.
  revert j. induction n as [|n IH]; intros j Hj Hn Hle.
  - exists hexEnd. split; [reflexivity|lia].
  - cbn [PythonFormat.hex_scan].
    destruct (is_hex_at_ok p j) as [b ->]; [lia|]. cbn [bind].
    destruct b; cbn [negb].
    + destruct (IH (j + 1)) as (r & -> & Hr); try lia.
      exists r. split; [reflexivity|lia].
    + exists j. split; [reflexivity|lia].
Qed.

Lemma hex_run_ok (k : nat) (p : string) (j : Z) :
  0 ≤ j → j + Z.of_nat k ≤ len p → ∃ b, PythonFormat.hex_run k p j = Ok b.
Proof.
  revert j. induction k as [|k IH]; intros j Hj Hle.
  - now exists true.
  - cbn [PythonFormat.hex_run].
    destruct (is_hex_at_ok p j) as [b ->]; [lia|]. cbn [and_then bind].
    destruct b; [|now eexists]. apply IH; lia.
Qed.

Lemma Python_escape_block_ok : block_ok PythonFormat.escape_block.
Proof.
  intros pre pattern char s HI Hc. unfold PythonFormat.escape_block.
  pose proof (index_inv _ _ _ Hc) as [Hi _].
  destruct (Ascii.eqb char backslash); cbn [andb]; [|fall_through].
  destruct (Z.ltb_spec (idx s + 1) (len pattern)); [|fall_through].
  rewrite !flush_idx.
  pose proof (Inv_flush _ _ _ HI) as HIf.
  pose proof (flush_cur s) as Hcur. pose proof (flush_idx s) as Hidx.
  destruct (Z.ltb_spec (idx s + 2) (len pattern)).
  - eval_index pattern (idx s + 1) c1 Hc1.
    eval_index pattern (idx s + 2) c2 Hc2. cbn [and_then bind].
    destruct (Ascii.eqb c1 "x"); cbn [bind].
    { set (hexEnd := if idx s + 4 >? len pattern then len pattern else idx s + 4).
      assert (idx s + 2 ≤ hexEnd ≤ len pattern)
        by (subst hexEnd; destruct (Z.gtb_spec (idx s + 4) (len pattern)); lia).
      destruct (hex_scan_ok (Z.to_nat (hexEnd - (idx s + 2))) pattern
                  (idx s + 2) hexEnd) as (r & -> & Hr); try lia.
      cbn [bind]. rewrite slice_ok by lia. cbn [bind].
      eexists; split; [reflexivity|].
      apply (continue_emit _ _ _ _ _ r); auto; rewrite ?Hidx;
        first [reflexivity | lia]. }
    destruct (Ascii.eqb c1 "u"); cbn [bind].
    { destruct (Z.leb_spec (idx s + 6) (len pattern)); cbn [bind];
        [|fall_through; split; assumption].
      destruct (hex_run_ok 4 pattern (idx s + 2)) as [b ->]; try lia.
      cbn [bind]. destruct b; [|fall_through; split; assumption].
      rewrite slice_ok by lia. cbn [bind]. eexists; split; [reflexivity|].
      apply (continue_emit _ _ _ _ _ (idx s + 6)); auto; rewrite ?Hidx;
        first [reflexivity | lia]. }
    destruct (Ascii.eqb c1 "U"); cbn [bind].
    { destruct (Z.leb_spec (idx s + 10) (len pattern)); cbn [bind];
        [|fall_through; split; assumption].
      destruct (hex_run_ok 8 pattern (idx s + 2)) as [b ->]; try lia.
      cbn [bind]. destruct b; [|fall_through; split; assumption].
      rewrite slice_ok by lia. cbn [bind]. eexists; split; [reflexivity|].
      apply (continue_emit _ _ _ _ _ (idx s + 10)); auto; rewrite ?Hidx;
        first [reflexivity | lia]. }
    destruct (Ascii.eqb c1 "N"); cbn [bind];
      [destruct (Ascii.eqb c2 "{"); cbn [bind]|].
    { rewrite slice_from_ok by lia. cbn [bind].
      destruct (IndexByte_range (sub pattern (idx s + 3) (len pattern)) "}")
        as [E|E].
      - rewrite E. cbn [Z.geb Z.compare]. fall_through; split; assumption.
      - rewrite len_sub in E by lia.
        destruct (Z.geb_spec
                    (IndexByte (sub pattern (idx s + 3) (len pattern)) "}") 0);
          [|lia].
        rewrite slice_ok by lia. cbn [bind]. eexists; split; [reflexivity|].
        apply (continue_emit _ _ _ _ _
                 (idx s + IndexByte (sub pattern (idx s + 3) (len pattern)) "}"
                  + 4)); auto; rewrite ?Hidx; first [reflexivity | lia]. }
    all: rewrite slice_ok by lia; cbn [bind]; eexists; split; [reflexivity|];
      apply (continue_emit _ _ _ _ _ (idx s + 2)); auto; rewrite ?Hidx;
      first [reflexivity | lia].
  - cbn [and_then bind]. rewrite slice_ok by lia. cbn [bind].
    eexists; split; [reflexivity|].
    apply (continue_emit _ _ _ _ _ (idx s + 2)); auto; rewrite ?Hidx;
      first [reflexivity | lia].
Qed.

Lemma backref_scan_ok (n : nat) (p : string) (j : Z) :
  0 ≤ j → j + Z.of_nat n = len p →
  ∃ r, PythonFormat.backref_scan n p j = Ok r ∧ j ≤ r ≤ len p.
Proof.
  revert j. induction n as [|n IH]; intros j Hj Hn.
  - exists j. split; [reflexivity|lia].
  - cbn [PythonFormat.backref_scan].
    eval_index p j c Hc. cbn [bind]. destruct (negb (Ascii.eqb c ")")).
    + destruct (IH (j + 1)) as (r & -> & Hr); try lia.
      exists r. split; [reflexivity|lia].
    + exists j. split; [reflexivity|lia].
Qed.

Lemma p_case_ok pre pattern s0 s :
  Inv pre pattern s → cur s = "" → idx s = idx s0 →
  0 ≤ idx s0 → idx s0 + 2 < len pattern →
  ∃ r, PythonFormat.p_case pattern s = Ok r
       ∧ match r with
         | Some s' => flow_ok pre pattern s0 (Continue s')
         | None => True
         end.
Proof.
  intros HI Hcur Hidx Hlo Hlt. unfold PythonFormat.p_case. rewrite Hidx.
  destruct (Z.ltb_spec (idx s0 + 3) (len pattern));
    [|exists None; split; [reflexivity|exact I]].
  eval_index pattern (idx s0 + 3) c3 Hc3. cbn [bind].
  destruct (Ascii.eqb c3 "<").
  - rewrite slice_from_ok by lia. cbn [bind].
    destruct (IndexByte_range (sub pattern (idx s0 + 4) (len pattern)) ">")
      as [E|E].
    + rewrite E. cbn [Z.geb Z.compare]. exists None; split; [reflexivity|exact I].
    + rewrite len_sub in E by lia.
      destruct (Z.geb_spec
                  (IndexByte (sub pattern (idx s0 + 4) (len pattern)) ">") 0);
        [|lia].
      rewrite slice_ok by lia. cbn [bind]. eexists; split; [reflexivity|].
      apply (continue_emit _ _ _ _ _
               (IndexByte (sub pattern (idx s0 + 4) (len pattern)) ">"
                + (idx s0 + 4) + 1)); auto; rewrite ?Hidx;
        first [reflexivity | lia].
  - destruct (Ascii.eqb c3 "="); [|exists None; split; [reflexivity|exact I]].
    destruct (backref_scan_ok (Z.to_nat (len pattern - (idx s0 + 4))) pattern
                (idx s0 + 4)) as (j & -> & Hj); try lia.
    cbn [bind]. destruct (Z.ltb_spec j (len pattern));
      [|exists None; split; [reflexivity|exact I]].
    rewrite slice_ok by lia. cbn [bind]. eexists; split; [reflexivity|].
    apply (continue_emit _ _ _ _ _ (j + 1)); auto; rewrite ?Hidx;
      first [reflexivity | lia].
Qed.

Lemma Python_group_block_ok : block_ok PythonFormat.group_block.
Proof.
  intros pre pattern char s HI Hc. unfold PythonFormat.group_block.
  enter_group pattern s HI Hc.
  destruct (Ascii.eqb_spec c2 ":") as [->|_]; [header3|].
  destruct (Ascii.eqb_spec c2 "=") as [->|_]; [header3|].
  destruct (Ascii.eqb_spec c2 "!") as [->|_]; [header3|].
  destruct (Ascii.eqb_spec c2 "<") as [->|_]; [now apply angle_case_ok|].
  destruct (Ascii.eqb_spec c2 "P") as [->|_]; [|bare_paren].
  destruct (p_case_ok pre pattern s (flush s)) as ([s'|] & -> & Hr);
    auto; try lia; cbn [bind].
  - eexists; split; [reflexivity|assumption].
  - bare_paren.
Qed.

(** *** The five loop bodies *)

Lemma Go_body_ok : body_ok GoFormat.body.
Proof.
  unfold GoFormat.body.
  repeat first
    [ apply tail_blocks_ok
    | apply body_ok_seq ];
  auto using char_class_block_ok, escape_block_ok, brace_block_ok,
    plain_quantifier_block_ok, Go_group_block_ok.
Qed.

Lemma Pcre_body_ok : body_ok PcreFormat.body.
Proof.
  unfold PcreFormat.body.
  repeat first [ apply tail_blocks_ok | apply body_ok_seq ];
  auto using char_class_block_ok, escape_block_ok, brace_block_ok,
    suffix_quantifier_block_ok, Pcre_group_block_ok.
Qed.

Lemma Posix_body_ok : body_ok PosixFormat.body.
Proof.
  unfold PosixFormat.body.
  repeat first [ apply tail_blocks_ok | apply body_ok_seq ];
  auto using Posix_char_class_block_ok, escape_block_ok, brace_block_ok,
    plain_quantifier_block_ok, Posix_group_block_ok.
Qed.

Lemma Js_body_ok : body_ok JsFormat.body.
Proof.
  unfold JsFormat.body.
  repeat first [ apply tail_blocks_ok | apply body_ok_seq ];
  auto using char_class_block_ok, escape_block_ok, brace_block_ok,
    suffix_quantifier_block_ok, Js_group_block_ok.
Qed.

Lemma Python_body_ok : body_ok PythonFormat.body.
Proof.
  unfold PythonFormat.body.
  repeat first [ apply tail_blocks_ok | apply body_ok_seq ];
  auto using char_class_block_ok, Python_escape_block_ok, brace_block_ok,
    suffix_quantifier_block_ok, Python_group_block_ok.
Qed.

(** *** The pre-passes *)

Lemma prefix_slash (a : ascii) (s : string) :
  String.prefix "/" (String a s) = Ascii.eqb a "/".
Proof.
  cbn [String.prefix]. destruct (ascii_dec "/" a) as [<-|Hne].
  - now destruct s.
  - destruct (Ascii.eqb_spec a "/"); congruence.
Qed.

Lemma LastIndex_from_slash (s : string) (k last : Z) :
  LastIndex_from s "/" k last = last
  ∨ (k ≤ LastIndex_from s "/" k last < k + len s
     ∧ index s (LastIndex_from s "/" k last - k) = Ok "/"%char).
Proof.
  revert k last. induction s as [|a s IH]; intros k last.
  - left. reflexivity.
  - cbn [LastIndex_from]. rewrite prefix_slash, len_String.
    pose proof (len_nonneg s).
    destruct (IH (k + 1) (if Ascii.eqb a "/" then k else last)) as [E|[E1 E2]].
    + rewrite E. destruct (Ascii.eqb_spec a "/") as [->|_]; [right|now left].
      split; [lia|]. rewrite Z.sub_diag. apply index_String_0.
    + right. split; [lia|].
      replace (LastIndex_from s "/" (k + 1) (if Ascii.eqb a "/" then k else last) - k)
        with (LastIndex_from s "/" (k + 1) (if Ascii.eqb a "/" then k else last)
              - (k + 1) + 1) by lia.
      rewrite index_String_S by lia. exact E2.
Qed.

Lemma LastIndex_slash (s : string) :
  LastIndex s "/" = -1
  ∨ (0 ≤ LastIndex s "/" < len s ∧ index s (LastIndex s "/") = Ok "/"%char).
Proof.
  unfold LastIndex. destruct (LastIndex_from_slash s 0 (-1)) as [E|[E1 E2]].
  - now left.
  - right. rewrite Z.sub_0_r in E2. split; [lia|assumption].
Qed.

Lemma nonempty_len (t : string) : t ≠ "" ↔ 0 < len t.
Proof.
  split.
  - intros H. pose proof (len_nonneg t).
    destruct (Z.eq_dec (len t) 0) as [E|]; [|lia].
    now apply len_zero_inv in E.
  - intros H ->. rewrite len_empty in H. lia.
Qed.

Lemma slash_envelope (p : string) (k : Z) :
  index p 0 = Ok "/"%char → index p k = Ok "/"%char → 0 < k →
  p = "/" +:+ sub p 1 k +:+ "/" +:+ sub p (k + 1) (len p).
Proof.
  intros H0 Hk Hpos. pose proof (index_inv _ _ _ Hk) as [Hi _].
  rewrite <- (sub_full p) at 1.
  rewrite <- (sub_app p 0 1 (len p)) by lia.
  rewrite <- (sub_app p 1 k (len p)) by lia.
  rewrite <- (sub_app p k (k + 1) (len p)) by lia.
  pose proof (sub_1 p 0 _ H0) as E0. change (0 + 1) with 1 in E0.
  now rewrite E0, (sub_1 p k _ Hk).
Qed.

Lemma Js_strip_ok (pattern : string) :
  ∃ pre core,
    JsFormat.strip pattern = Ok (pre, core)
    ∧ envelope Ecma pattern pre core
    ∧ Forall nonempty pre
    ∧ (pre = [] → 0 < len pattern → 0 < len core).
Proof.
  unfold JsFormat.strip, envelope.
  destruct (Z.gtb_spec (len pattern) 2) as [Hlen|Hlen]; cbn [and_then bind];
    [|exists [], pattern; repeat split; auto].
  eval_index pattern 0 c0 Hc0. cbn [bind].
  destruct (Ascii.eqb_spec c0 "/") as [->|_];
    [|exists [], pattern; repeat split; auto].
  assert (Hbare :
    ∃ pre core,
      (let* bare := Ok (Ascii.eqb "/" "/")
                      &&& index_eq pattern (len pattern - 1) "/" in
       if bare then
         let* pattern' := slice pattern 1 (len pattern - 1) in Ok ([], pattern')
       else Ok ([], pattern)) = Ok (pre, core)
      ∧ ((pre = [] ∧ core = pattern)
         ∨ (pre = [] ∧ pattern = "/" +:+ core +:+ "/")
         ∨ (∃ flags, flags ≠ "" ∧ pre = ["/" +:+ flags]
                     ∧ pattern = "/" +:+ core +:+ "/" +:+ flags))
      ∧ Forall nonempty pre
      ∧ (pre = [] → 0 < len pattern → 0 < len core)).
  { eval_index pattern (len pattern - 1) cl Hcl. cbn [and_then bind Ascii.eqb Bool.eqb].
    destruct (Ascii.eqb_spec cl "/") as [->|_];
      [|exists [], pattern; repeat split; auto].
    rewrite slice_ok by lia. cbn [bind].
    exists [], (sub pattern 1 (len pattern - 1)). repeat split; auto.
    - right. left. split; [reflexivity|].
      rewrite (slash_envelope pattern (len pattern - 1) Hc0 Hcl) at 1 by lia.
      replace (len pattern - 1 + 1) with (len pattern) by lia.
      now rewrite sub_empty, app_empty_r.
    - intros _ _. rewrite len_sub; lia. }
  destruct (LastIndex_slash pattern) as [E|[E1 E2]].
  - rewrite E. cbn [Z.gtb Z.compare andb]. exact Hbare.
  - set (k := LastIndex pattern "/") in *.
    destruct (Z.gtb_spec k 0); destruct (Z.ltb_spec k (len pattern - 1));
      cbn [andb]; try exact Hbare.
    rewrite slice_from_ok by lia. cbn [bind].
    rewrite slice_ok by lia. cbn [bind].
    assert (0 < len (sub pattern (k + 1) (len pattern)))
      by (rewrite len_sub; lia).
    destruct (Z.gtb_spec (len (sub pattern (k + 1) (len pattern))) 0); [|lia].
    exists ["/" +:+ sub pattern (k + 1) (len pattern)], (sub pattern 1 k).
    repeat split; auto.
    + right. right. exists (sub pattern (k + 1) (len pattern)).
      split; [now apply nonempty_len|]. split; [reflexivity|].
      now apply slash_envelope.
    + constructor; [|constructor]. unfold nonempty.
      rewrite len_app. change (len "/") with 1. lia.
    + intros [=].
Qed.

Lemma all_flags_ok (n : nat) (p : string) (i : Z) :
  0 ≤ i → i + Z.of_nat n ≤ len p → ∃ b, PythonFormat.all_flags n p i = Ok b.
Proof.
  revert i. induction n as [|n IH]; intros i Hi Hn.
  - now exists true.
  - cbn [PythonFormat.all_flags]. eval_index p i c Hc. cbn [bind].
    destruct (negb (PythonFormat.is_flag_letter c)); [now eexists|].
    apply IH; lia.
Qed.

Lemma Python_strip_raw_ok (pattern : string) :
  ∃ pre core,
    PythonFormat.strip_raw pattern = Ok (pre, core)
    ∧ concat_tokens pre +:+ core = pattern ∧ Forall nonempty pre.
Proof.
  unfold PythonFormat.strip_raw. pose proof (len_nonneg pattern).
  destruct (Z.gtb_spec (len pattern) 0); cbn [and_then bind];
    [|exists [], pattern; repeat split; auto].
  eval_index pattern 0 c0 Hc0. cbn [or_else bind].
  assert (∃ b, (if Ascii.eqb c0 "r" then Ok true else Ok (Ascii.eqb c0 "R"))
               = Ok b) as [b ->] by (destruct (Ascii.eqb c0 "r"); now eexists).
  destruct b; [|exists [], pattern; repeat split; auto].
  destruct (Z.gtb_spec (len pattern) 1); cbn [and_then bind];
    [|exists [], pattern; repeat split; auto].
  eval_index pattern 1 c1 Hc1. cbn [or_else bind].
  assert (∃ b, (if Ascii.eqb c1 dquote then Ok true else Ok (Ascii.eqb c1 "'"))
               = Ok b) as [b ->] by (destruct (Ascii.eqb c1 dquote); now eexists).
  destruct b; [|exists [], pattern; repeat split; auto].
  rewrite slice_ok by lia. cbn [bind]. rewrite slice_from_ok by lia.
  cbn [bind]. exists [sub pattern 0 2], (sub pattern 2 (len pattern)).
  repeat split.
  - cbn [concat_tokens fold_right]. rewrite app_empty_r.
    rewrite sub_app by lia. apply sub_full.
  - constructor; [|constructor]. unfold nonempty. rewrite len_sub; lia.
Qed.

Lemma Python_strip_flags_ok (toks : list string) (pattern : string) :
  ∃ extra core,
    PythonFormat.strip_flags toks pattern = Ok (toks ++ extra, core)
    ∧ concat_tokens extra +:+ core = pattern ∧ Forall nonempty extra.
Proof.
  unfold PythonFormat.strip_flags.
  assert (Hnone : ∃ extra core,
             Ok (toks, pattern) = Ok (toks ++ extra, core)
             ∧ concat_tokens extra +:+ core = pattern ∧ Forall nonempty extra).
  { exists [], pattern. rewrite app_nil_r. repeat split; auto. }
  destruct (Z.gtb_spec (len pattern) 2); cbn [and_then bind]; [|exact Hnone].
  eval_index pattern 0 c0 Hc0. eval_index pattern 1 c1 Hc1. cbn [bind].
  destruct (Ascii.eqb c0 "("); cbn [bind]; [|exact Hnone].
  destruct (Ascii.eqb c1 "?"); cbn [bind]; [|exact Hnone].
  destruct (IndexByte_range pattern ")") as [E|E].
  - rewrite E. cbn [Z.gtb Z.compare]. exact Hnone.
  - destruct (Z.gtb_spec (IndexByte pattern ")") 2); [|exact Hnone].
    destruct (all_flags_ok (Z.to_nat (IndexByte pattern ")" - 2)) pattern 2)
      as [b ->]; try lia.
    cbn [bind]. destruct b; [|exact Hnone].
    rewrite slice_ok by lia. cbn [bind]. rewrite slice_from_ok by lia.
    cbn [bind].
    exists [sub pattern 0 (IndexByte pattern ")" + 1)],
      (sub pattern (IndexByte pattern ")" + 1) (len pattern)).
    repeat split.
    + cbn [concat_tokens fold_right]. rewrite app_empty_r.
      rewrite sub_app by lia. apply sub_full.
    + constructor; [|constructor]. unfold nonempty. rewrite len_sub; lia.
Qed.

Lemma Python_strip_ok (pattern : string) :
  ∃ pre core,
    PythonFormat.strip pattern = Ok (pre, core)
    ∧ envelope Python pattern pre core ∧ Forall nonempty pre.
Proof.
  unfold PythonFormat.strip, envelope.
  destruct (Python_strip_raw_ok pattern) as (pre & core & -> & Hcat & Hne).
  cbn [bind fst snd].
  destruct (Python_strip_flags_ok pre core)
    as (extra & core' & -> & Hcat' & Hne').
  exists (pre ++ extra), core'. repeat split.
  - now rewrite concat_tokens_app, app_assoc_s, Hcat'.
  - apply Forall_app. now split.
Qed.

(** *** Every tokenizer returns, covers its input and emits no empty token *)

Lemma loop_from_start (body : block) (pre : list string) (core : string) :
  body_ok body → Forall nonempty pre →
  ∃ toks, tokenize_loop body (String.length core) core (mkSt 0 pre "")
          = Ok (pre ++ toks)
          ∧ concat_tokens toks = core ∧ Forall nonempty (pre ++ toks).
Proof.
  intros Hbody Hpre. apply tokenize_loop_ok; [assumption| |unfold len; cbn [idx]; lia].
  constructor; cbn [idx tokens cur]; try (pose proof (len_nonneg core); lia).
  - exists []. rewrite app_nil_r. split; [reflexivity|]. now rewrite sub_empty.
  - assumption.
Qed.

Lemma tokenize_spec (d : Dialect) (pattern : string) :
  ∃ pre core toks,
    pre_pass d pattern = Ok (pre, core)
    ∧ tokenize d pattern = Ok (pre ++ toks)
    ∧ concat_tokens toks = core
    ∧ envelope d pattern pre core
    ∧ Forall nonempty (pre ++ toks)
    ∧ (pre = [] → 0 < len pattern → 0 < len core).
Proof.
  destruct d; cbn [pre_pass tokenize envelope].
  - destruct (loop_from_start GoFormat.body [] pattern Go_body_ok)
      as (toks & E & Hcat & Hne); [constructor|].
    exists [], pattern, toks. repeat split; auto.
  - destruct (loop_from_start PcreFormat.body [] pattern Pcre_body_ok)
      as (toks & E & Hcat & Hne); [constructor|].
    exists [], pattern, toks. repeat split; auto.
  - destruct (loop_from_start PosixFormat.body [] pattern Posix_body_ok)
      as (toks & E & Hcat & Hne); [constructor|].
    exists [], pattern, toks. repeat split; auto.
  - destruct (Js_strip_ok pattern) as (pre & core & E0 & Henv & Hne0 & Hcore).
    destruct (loop_from_start JsFormat.body pre core Js_body_ok Hne0)
      as (toks & E & Hcat & Hne).
    exists pre, core, toks. unfold JsFormat.TokenizeRegex. rewrite E0.
    cbn [bind fst snd]. repeat split; auto.
  - destruct (Python_strip_ok pattern) as (pre & core & E0 & Henv & Hne0).
    destruct (loop_from_start PythonFormat.body pre core Python_body_ok Hne0)
      as (toks & E & Hcat & Hne).
    exists pre, core, toks. unfold PythonFormat.TokenizeRegex. rewrite E0.
    cbn [bind fst snd]. repeat split; auto.
    intros -> Hlen. unfold envelope in Henv. cbn [concat_tokens fold_right] in Henv.
    rewrite app_nil_l in Henv. now subst.
Qed.

(** *** The nested POSIX class check never succeeds *)

Lemma index_sub (p : string) (lo hi m : Z) :
  0 ≤ lo → lo ≤ hi → hi ≤ len p → 0 ≤ m < hi - lo →
  index (sub p lo hi) m = index p (lo + m).
Proof.
  intros Hlo Hle Hhi Hm. unfold index.
  rewrite len_sub by lia.
  destruct (Z.leb_spec 0 m); [|lia]. destruct (Z.ltb_spec m (hi - lo)); [|lia].
  destruct (Z.leb_spec 0 (lo + m)); [|lia].
  destruct (Z.ltb_spec (lo + m) (len p)); [|lia]. cbn [andb].
  unfold sub. rewrite String.substring_correct1 by lia.
  replace (Z.to_nat m + Z.to_nat lo)%nat with (Z.to_nat (lo + m)) by lia.
  reflexivity.
Qed.

Lemma Index_from_marker (s : string) (k : Z) :
  Index_from s ":]" k = -1
  ∨ (k ≤ Index_from s ":]" k
     ∧ index s (Index_from s ":]" k - k) = Ok ":"%char
     ∧ index s (Index_from s ":]" k - k + 1) = Ok "]"%char).
Proof.
  revert k. induction s as [|a s IH]; intros k.
  - left. reflexivity.
  - cbn [Index_from]. destruct (String.prefix ":]" (String a s)) eqn:E.
    + right. apply prefix_cons_inv in E as (t1 & [= -> ->] & E).
      apply prefix_cons_inv in E as (t2 & -> & _).
      rewrite Z.sub_diag. split; [lia|]. split; [apply index_String_0|].
      rewrite index_String_S by lia. apply index_String_0.
    + destruct (IH (k + 1)) as [->|(H1 & H2 & H3)]; [now left|right].
      split; [lia|].
      replace (Index_from s ":]" (k + 1) - k)
        with (Index_from s ":]" (k + 1) - (k + 1) + 1) by lia.
      rewrite !index_String_S by lia. auto.
Qed.

(** The scan stops at or before any bracket that qualifies as a closer. *)
Lemma FindClosingBracket_loop_le (n : nat) (p : string) (start i q : Z)
  (c : ascii) :
  0 ≤ start → start < i → i + Z.of_nat n ≤ len p →
  i ≤ q < i + Z.of_nat n →
  index p q = Ok "]"%char → index p (q - 1) = Ok c → c ≠ backslash →
  ∃ e, FindClosingBracket_loop n p start i = Ok e ∧ i ≤ e ≤ q.
Proof.
  revert i. induction n as [|n IH]; intros i H0 Hi Hn Hq Hb Hc Hne; [lia|].
  cbn [FindClosingBracket_loop].
  destruct (index_ok p i) as [ci Hci]; [lia|].
  destruct (index_ok p (i - 1)) as [ci' Hci']; [lia|].
  rewrite (index_eq_ok _ _ _ _ Hci), (index_ne_ok _ _ _ _ Hci').
  destruct (Z.eq_dec i q) as [->|Hiq].
  - rewrite Hb in Hci. injection Hci as <-.
    rewrite Hc in Hci'. injection Hci' as <-.
    change (Ascii.eqb "]" "]") with true. cbn [and_then or_else bind].
    destruct (Ascii.eqb_spec c backslash) as [->|_]; [congruence|].
    exists q. split; [now destruct (q =? start + 1)|lia].
  - assert (∃ b, Ok (Ascii.eqb ci "]")
                 &&& (pure (i =? start + 1) ||| Ok (negb (Ascii.eqb ci' backslash)))
                 = Ok b) as [b ->].
    { destruct (Ascii.eqb ci "]"); [|now eexists].
      destruct (i =? start + 1); now eexists. }
    cbn [bind]. destruct b.
    + exists i. split; [reflexivity|lia].
    + destruct (IH (i + 1)) as (e & -> & He); auto; try lia.
      exists e. split; [reflexivity|lia].
Qed.

Lemma nested_class_none (pattern : string) (s : st) :
  0 ≤ idx s → PosixFormat.nested_class pattern s = Ok None.
Proof.
  intros Hlo. unfold PosixFormat.nested_class.
  destruct (Z.ltb_spec (idx s + 2) (len pattern)); [|reflexivity].
  eval_index pattern (idx s + 1) c1 Hc1.
  eval_index pattern (idx s + 2) c2 Hc2. cbn [and_then bind].
  destruct (Ascii.eqb c1 "["); cbn [bind]; [|reflexivity].
  destruct (Ascii.eqb c2 ":"); cbn [bind]; [|reflexivity].
  rewrite slice_from_ok by lia. cbn [bind].
  set (rest := sub pattern (idx s) (len pattern)).
  destruct (Z.gtb_spec (Index rest ":]") 3) as [Hgt|]; [|reflexivity].
  unfold Index in *.
  destruct (Index_from_marker rest 0) as [E|(_ & Hm1 & Hm2)]; [lia|].
  rewrite Z.sub_0_r in Hm1, Hm2. set (e := Index_from rest ":]" 0) in *.
  pose proof (index_inv _ _ _ Hm2) as [Hin _].
  unfold rest in Hin. rewrite len_sub in Hin by lia.
  unfold rest in Hm1, Hm2.
  rewrite index_sub in Hm1 by lia. rewrite index_sub in Hm2 by lia.
  unfold FindClosingBracket.
  assert (Hprev : index pattern (idx s + (e + 1) - 1) = Ok ":"%char)
    by now replace (idx s + (e + 1) - 1) with (idx s + e) by lia.
  assert (Hcolon : ":"%char ≠ backslash) by discriminate.
  destruct (FindClosingBracket_loop_le
              (Z.to_nat (len pattern - (idx s + 1))) pattern (idx s)
              (idx s + 1) (idx s + (e + 1)) ":"%char
              Hlo ltac:(lia) ltac:(lia) ltac:(lia) Hm2 Hprev Hcolon)
    as (eb & -> & Heb).
  cbn [bind]. destruct (Z.gtb_spec eb (idx s + e + 2)); [lia|reflexivity].
Qed.

(** *** Coverage and totality *)

(** C2: for every dialect and every pattern the tokenizer returns the
    tokens of its pre-pass followed by tokens whose concatenation is
    exactly the pattern the loop scanned; that pattern is the input itself
    (baseline, PCRE, POSIX), the input without its [/.../flags] envelope
    (ECMA, whose only synthesized token is ["/" + flags]) or the input
    without the raw-string marker and inline-flags group, which are emitted
    as tokens of their own (Python). *)
Theorem C2_tokens_cover_pattern (d : Dialect) (pattern : string) :
  ∃ pre core toks,
    pre_pass d pattern = Ok (pre, core)
    ∧ tokenize d pattern = Ok (pre ++ toks)
    ∧ concat_tokens toks = core
    ∧ envelope d pattern pre core.
Proof.
  destruct (tokenize_spec d pattern)
    as (pre & core & toks & Hpre & Htok & Hcat & Henv & _).
  exists pre, core, toks. auto.
Qed.

(** C7: for every dialect and every pattern, [tokenize] returns (it neither
    panics nor runs out of fuel); the result is empty exactly when the
    pattern is empty, has at least one token otherwise, and every token
    has length at least 1. *)
Theorem C7_tokenize_total (d : Dialect) (pattern : string) :
  ∃ toks,
    tokenize d pattern = Ok toks
    ∧ (toks = [] ↔ pattern = "")
    ∧ (pattern ≠ "" → (1 ≤ length toks)%nat)
    ∧ Forall (λ t, 1 ≤ len t) toks.
Proof.
  destruct (tokenize_spec d pattern)
    as (pre & core & toks & Hpre & Htok & Hcat & Henv & Hne & Hcore).
  exists (pre ++ toks).
  assert (Hiff : pre ++ toks = [] ↔ pattern = "").
  { split.
    - intros E. apply app_eq_nil in E as [-> ->].
      cbn [concat_tokens fold_right] in Hcat. subst core.
      pose proof (len_nonneg pattern).
      destruct (Z.eq_dec (len pattern) 0) as [E|E];
        [now apply len_zero_inv|].
      specialize (Hcore eq_refl ltac:(lia)). rewrite len_empty in Hcore. lia.
    - intros ->.
      assert (E0 : tokenize d "" = Ok []) by (destruct d; reflexivity).
      rewrite E0 in Htok. now injection Htok as <-. }
  repeat split; try apply Hiff; auto.
  - intros Hp. destruct (pre ++ toks) as [|t l]; cbn [length]; [|lia].
    exfalso. apply Hp. now apply Hiff.
  - eapply Forall_impl; [exact Hne|]. unfold nonempty. intros t Ht. lia.
Qed.

(** *** The first-position bracket *)

Lemma FindClosingBracket_first (rest : string) :
  FindClosingBracket ("[]" +:+ rest) 0 = Ok 1.
Proof.
  unfold FindClosingBracket.
  replace (Z.to_nat (len ("[]" +:+ rest) - (0 + 1))) with (S (String.length rest))
    by (rewrite len_app; unfold len; cbn [String.length]; lia).
  cbn [FindClosingBracket_loop]. change (0 + 1) with 1.
  assert (index ("[]" +:+ rest) 1 = Ok "]"%char) as E.
  { rewrite !app_cons, app_nil_l. change 1 with (0 + 1).
    rewrite index_String_S by lia. apply index_String_0. }
  now rewrite (index_eq_ok _ _ _ _ E).
Qed.
(** *** Worked tokenizations *)

(** C1: on ["[]abc]"] the closing-bracket scan returns position 1, not 5:
    the bracket right after the opening one is taken as the closer, so the
    baseline tokenizer emits the empty class ["[]"] and then the literal
    run ["abc]"]; the same holds for every pattern that begins ["[]"]. *)
Theorem C1_first_position_bracket_closes :
  FindClosingBracket "[]abc]" 0 = Ok 1
  ∧ GoFormat.TokenizeRegex "[]abc]" = Ok ["[]"; "abc]"]
  ∧ ∀ rest : string, FindClosingBracket ("[]" +:+ rest) 0 = Ok 1.
Proof.
  split; [reflexivity|]. split; [vm_compute; reflexivity|].
  apply FindClosingBracket_first.
Qed.

(** C3: on ["[[:alpha:]]"] the POSIX tokenizer does not emit one token: the
    nested-class check finds the closing bracket at the end of the inner
    marker, rejects it, and the plain scan then cuts the class at that
    bracket, leaving the last ["]"] as a literal.  The check cannot succeed
    on any pattern at any position: the scan stops no later than the
    bracket of the inner [":]"], which the check requires it to pass. *)
Theorem C3_posix_nested_class_split :
  PosixFormat.TokenizeRegex "[[:alpha:]]" = Ok ["[[:alpha:]"; "]"]
  ∧ FindClosingBracket "[[:alpha:]]" 0 = Ok 9
  ∧ Index "[[:alpha:]]" ":]" = 8
  ∧ ∀ (pattern : string) (i : nat) (toks : list string) (run : string),
      PosixFormat.nested_class pattern (mkSt (Z.of_nat i) toks run) = Ok None.
Proof.
  split; [vm_compute; reflexivity|]. split; [vm_compute; reflexivity|].
  split; [vm_compute; reflexivity|].
  intros pattern i toks run. apply nested_class_none. cbn [idx]. lia.
Qed.

(** C5 as stated fails: on ["(?<name>abc)"] the baseline tokenizer has no
    token after ["("] that begins with the literal run ["?<name>"]. *)
Lemma C5_baseline_no_literal_run :
  ¬ ∃ t rest, GoFormat.TokenizeRegex "(?<name>abc)" = Ok ("(" :: t :: rest)
              ∧ HasPrefix t "?<name>" = true.
Proof.
  intros (t & rest & Htok & Hpre).
  vm_compute in Htok. injection Htok as <- <-. vm_compute in Hpre. discriminate.
Qed.

(** C5, amended: on ["(?<name>abc)"] the baseline tokenizer emits the bare
    group token ["("], then ["?"] as a simple quantifier, then the literal
    run ["<name>abc"] and [")"], while the PCRE tokenizer yields exactly
    ["(?<name>"], ["abc"], [")"]. *)
Theorem C5_named_group_divergence :
  GoFormat.TokenizeRegex "(?<name>abc)" = Ok ["("; "?"; "<name>abc"; ")"]
  ∧ PcreFormat.TokenizeRegex "(?<name>abc)" = Ok ["(?<name>"; "abc"; ")"]
  ∧ GoFormat.TokenizeRegex "(?P<name>abc)" = Ok ["(?P<name>"; "abc"; ")"].
Proof. repeat split; vm_compute; reflexivity. Qed.

(** C6: quantifier suffixes are absorbed per dialect: PCRE takes a
    following [+], ECMA a following [?], POSIX nothing. *)
Theorem C6_quantifier_suffix_absorption :
  tokenize Pcre "a++" = Ok ["a"; "++"]
  ∧ tokenize Ecma "a+?" = Ok ["a"; "+?"]
  ∧ tokenize Posix "a+" = Ok ["a"; "+"].
Proof. repeat split; vm_compute; reflexivity. Qed.

(** *** Unicode escapes in the Python tokenizer *)

Lemma hex_run_forallb (k : nat) (p : string) (j : Z) :
  0 ≤ j → j + Z.of_nat k ≤ len p →
  PythonFormat.hex_run k p j
  = Ok (forallb isHexDigit (list_ascii_of_string (sub p j (j + Z.of_nat k)))).
Proof.
  revert j. induction k as [|k IH]; intros j Hj Hle.
  - cbn [PythonFormat.hex_run]. rewrite Z.add_0_r, sub_empty. reflexivity.
  - cbn [PythonFormat.hex_run]. unfold PythonFormat.is_hex_at.
    destruct (index_ok p j) as [c Hc]; [lia|]. rewrite Hc. cbn [and_then bind].
    rewrite (sub_cons _ _ _ _ Hc) by lia.
    cbn [list_ascii_of_string forallb].
    replace (j + Z.of_nat (S k)) with (j + 1 + Z.of_nat k) by lia.
    rewrite IH by lia. now destruct (isHexDigit c).
Qed.

Lemma hex_run_follow (k : nat) (p : string) (j : Z) :
  0 ≤ j →
  Ok (j + Z.of_nat k <=? len p) &&& PythonFormat.hex_run k p j
  = Ok (hex_digits_follow k p j).
Proof.
  intros Hj. unfold hex_digits_follow.
  destruct (Z.leb_spec (j + Z.of_nat k) (len p)); cbn [and_then bind andb];
    [|reflexivity].
  now apply hex_run_forallb.
Qed.

(** C4 as stated fails: for [\u] followed by four bytes that are not hex
    digits, the Python tokenizer emits no two-character token ["\u"]; the
    backslash and what follows form one literal run. *)
Lemma C4_no_two_character_fallback :
  PythonFormat.TokenizeRegex "\uZZZZ" = Ok ["\uZZZZ"]
  ∧ ¬ ∃ toks, PythonFormat.TokenizeRegex "\uZZZZ" = Ok toks ∧ In "\u" toks.
Proof.
  split; [vm_compute; reflexivity|].
  intros (toks & E & Hin). vm_compute in E. injection E as <-.
  destruct Hin as [Hin|[]]. discriminate.
Qed.

(** C4, amended: one iteration of the Python loop at a position [i] that
    holds [\u] (with [k = 4]) or [\U] (with [k = 8]).  When [k] hex digits
    follow, the escape is emitted as one token of [k + 2] bytes.
    Otherwise, when at least one byte follows the two, no escape token is
    emitted: the pending literal run is flushed and the backslash is
    written to the literal run; only when the two bytes end the pattern
    is the two-character escape token emitted. *)
Theorem C4_python_unicode_escape
  (pattern : string) (s : st) (u : ascii) (k : nat) :
  (u = "u"%char ∧ k = 4%nat) ∨ (u = "U"%char ∧ k = 8%nat) →
  index pattern (idx s) = Ok backslash →
  index pattern (idx s + 1) = Ok u →
  iteration PythonFormat.body pattern s
  = if hex_digits_follow k pattern (idx s + 2) then
      Ok (goto (idx s + 1 + Z.of_nat k)
            (emit (sub pattern (idx s) (idx s + 2 + Z.of_nat k)) (flush s)))
    else if idx s + 2 <? len pattern then Ok (write_byte backslash (flush s))
    else Ok (goto (idx s + 1) (emit (String backslash (String u "")) (flush s))).
Proof.
  intros Hu Hc Hc1.
  pose proof (index_inv _ _ _ Hc) as [Hi _].
  pose proof (index_inv _ _ _ Hc1) as [Hi1 _].
  unfold iteration. rewrite Hc. cbn [bind].
  unfold PythonFormat.body, seq_block, char_class_block.
  change (Ascii.eqb backslash "[") with false. cbn [bind].
  unfold PythonFormat.escape_block.
  change (Ascii.eqb backslash backslash) with true. cbn [andb].
  destruct (Z.ltb_spec (idx s + 1) (len pattern)); [|lia].
  rewrite !flush_idx. rewrite !(index_eq_ok _ _ _ _ Hc1).
  assert (Hx : Ascii.eqb u "x" = false) by (destruct Hu as [[-> _]|[-> _]]; reflexivity).
  assert (HN : Ascii.eqb u "N" = false) by (destruct Hu as [[-> _]|[-> _]]; reflexivity).
  rewrite Hx, HN.
  destruct (Z.ltb_spec (idx s + 2) (len pattern)) as [Hlt|Hge].
  - cbn [and_then bind].
    destruct Hu as [[-> ->]|[-> ->]].
    + change (Ascii.eqb "u" "u") with true. cbn [bind].
      pose proof (hex_run_follow 4 pattern (idx s + 2) ltac:(lia)) as Hf.
      change (Z.of_nat 4) with 4 in *.
      replace (idx s + 2 + 4) with (idx s + 6) in * by lia.
      replace (idx s + 1 + 4) with (idx s + 5) by lia.
      unfold and_then in Hf. cbn [bind] in Hf. rewrite Hf. cbn [bind].
      destruct (hex_digits_follow 4 pattern (idx s + 2)) eqn:Hhex;
        [|reflexivity].
      unfold hex_digits_follow in Hhex.
      apply andb_prop in Hhex as [Hfit _]. apply Z.leb_le in Hfit.
      change (Z.of_nat 4) with 4 in Hfit.
      rewrite slice_ok by lia. reflexivity.
    + change (Ascii.eqb "U" "u") with false.
      change (Ascii.eqb "U" "U") with true. cbn [bind].
      pose proof (hex_run_follow 8 pattern (idx s + 2) ltac:(lia)) as Hf.
      change (Z.of_nat 8) with 8 in *.
      replace (idx s + 2 + 8) with (idx s + 10) in * by lia.
      replace (idx s + 1 + 8) with (idx s + 9) by lia.
      unfold and_then in Hf. cbn [bind] in Hf. rewrite Hf. cbn [bind].
      destruct (hex_digits_follow 8 pattern (idx s + 2)) eqn:Hhex;
        [|reflexivity].
      unfold hex_digits_follow in Hhex.
      apply andb_prop in Hhex as [Hfit _]. apply Z.leb_le in Hfit.
      change (Z.of_nat 8) with 8 in Hfit.
      rewrite slice_ok by lia. reflexivity.
  - cbn [and_then bind].
    assert (hex_digits_follow k pattern (idx s + 2) = false) as ->.
    { unfold hex_digits_follow.
      destruct (Z.leb_spec (idx s + 2 + Z.of_nat k) (len pattern)); [|reflexivity].
      destruct Hu as [[_ ->]|[_ ->]]; lia. }
    rewrite slice_ok by lia. cbn [bind].
    now rewrite (sub_2 _ _ _ _ Hc Hc1).
Qed.

(** C4 at the start of a pattern that holds [\u] followed by the four hex
    digits [00e9] and an [x]: the six bytes form one token. *)
Lemma C4_python_unicode_escape_witness :
  iteration PythonFormat.body (backslash_s +:+ "u00e9x") (mkSt 0 [] "")
  = Ok (mkSt 5 [backslash_s +:+ "u00e9"] "").
Proof.
  apply (C4_python_unicode_escape (backslash_s +:+ "u00e9x") (mkSt 0 [] "")
           "u" 4).
  - left. split; reflexivity.
  - reflexivity.
  - reflexivity.
Defined.

(** *** The feature tables *)

Ltac unknown_key Hkey :=
  unfold map_index, feature_keys in *;
  rewrite !not_elem_of_cons in Hkey;
  destruct Hkey as (? & ? & ? & ? & ? & ? & ? & ? & ? & ? & _);
  rewrite !lookup_insert_ne by congruence;
  rewrite lookup_singleton_ne by congruence;
  reflexivity.

(** C8: the feature table of each dialect is a fixed map queried by exact
    key: a key outside the ten feature keys yields [false], the ten keys
    yield the fixed row of the dialect, and in particular PCRE supports
    lookbehind while POSIX does not and the baseline has no atomic
    groups.  [hasFeature] is a function of its two arguments alone. *)
Theorem C8_feature_table (d : Dialect) (key : string) :
  hasFeature Pcre FeatureLookbehind = true
  ∧ hasFeature Posix FeatureLookbehind = false
  ∧ hasFeature Baseline FeatureAtomicGroup = false
  ∧ map (hasFeature d) feature_keys = feature_row d
  ∧ (key ∉ feature_keys → hasFeature d key = false).
Proof.
  repeat split; try (vm_compute; reflexivity).
  - destruct d; vm_compute; reflexivity.
  - intros Hkey.
    destruct d; cbn [hasFeature];
      [ unfold GoFormat.HasFeature, GoFormat.supportedFeatures
      | unfold PcreFormat.HasFeature, PcreFormat.supportedFeatures
      | unfold PosixFormat.HasFeature, PosixFormat.supportedFeatures
      | unfold JsFormat.HasFeature, JsFormat.supportedFeatures
      | unfold PythonFormat.HasFeature, PythonFormat.supportedFeatures ];
      unknown_key Hkey.
Qed.

(** C8 at the key ["nonexistent"] of the repository's tests. *)
Lemma C8_feature_table_witness :
  ("nonexistent" ∉ feature_keys) ∧ hasFeature Baseline "nonexistent" = false.
Proof.
  assert ("nonexistent" ∉ feature_keys) as H.
  { unfold feature_keys. rewrite !not_elem_of_cons. repeat split; try discriminate.
    apply not_elem_of_nil. }
  split; [exact H|].
  apply (C8_feature_table Baseline "nonexistent"). exact H.
Defined.

(** *** The explainers *)

(** C10: the ECMA explainer treats every token that begins with ['/'] as
    the flags marker: the rest of the token is handed to [explainJsFlags],
    which answers ["No flags specified"] for the bare ["/"] and otherwise
    explains each following character (rune) as a flag.  The tokenizer
    also emits such tokens for literal text of the pattern body, as in
    ["a|/b"], whose literal [/b] is explained as the flag [b], and in
    ["(/)"], whose literal [/] is explained as the absence of flags. *)
Theorem C10_js_slash_token_is_flags :
  (∀ flags : string,
     JsFormat.ExplainToken (String "/" flags)
     = Ok (JsFormat.explainJsFlags flags))
  ∧ JsFormat.ExplainToken "/" = Ok "No flags specified"
  ∧ (∀ (c : ascii) (flags : string),
       JsFormat.ExplainToken (String "/" (String c flags))
       = Ok ("Flags: "
             +:+ Join (map JsFormat.explain_flag (runes (String c flags))) ", "))
  ∧ JsFormat.TokenizeRegex "a|/b" = Ok ["a"; "|"; "/b"]
  ∧ JsFormat.ExplainToken "/b" = Ok "Flags: b: Unknown flag"
  ∧ JsFormat.TokenizeRegex "(/)" = Ok ["("; "/"; ")"].
Proof.
  assert (H : ∀ flags : string,
             JsFormat.ExplainToken (String "/" flags)
             = Ok (JsFormat.explainJsFlags flags)).
  { intros flags. unfold JsFormat.ExplainToken, HasPrefix.
    rewrite prefix_slash. change (Ascii.eqb "/" "/") with true. cbv iota.
    pose proof (len_nonneg flags).
    rewrite slice_from_ok by (rewrite ?len_String; lia).
    cbn [bind]. now rewrite sub_tail. }
  split; [exact H|]. split; [reflexivity|]. split; [|repeat split; vm_compute; reflexivity].
  intros c flags. rewrite H. reflexivity.
Qed.

Lemma all_flags_false (n : nat) (p : string) (i j : Z) (c : ascii) :
  0 ≤ i → i ≤ j < i + Z.of_nat n → i + Z.of_nat n ≤ len p →
  index p j = Ok c → PythonFormat.is_flag_letter c = false →
  PythonFormat.all_flags n p i = Ok false.
Proof.
  revert i. induction n as [|n IH]; intros i Hi Hj Hn Hc Hflag; [lia|].
  cbn [PythonFormat.all_flags]. destruct (index_ok p i) as [c' Hc']; [lia|].
  rewrite Hc'. cbn [bind].
  destruct (PythonFormat.is_flag_letter c') eqn:E; cbn [negb]; [|reflexivity].
  apply IH; auto; try lia.
  assert (j ≠ i) by (intros ->; congruence). lia.
Qed.

(** C9: in the Python explainer every token that starts with ["(?"], ends
    with [")"], is longer than three bytes and has a byte that is no flag
    letter between the ["(?"] and the [")"] is answered by the fallback
    ["Unknown token: " + token]: the inline-flags case takes it and ends
    without returning.  This holds for every token of the form
    ["(?P=" ... ")"], so the named-backreference case that follows is
    never reached, and in particular for ["(?P=name)"], which the Python
    tokenizer emits. *)
Theorem C9_python_group_token_unknown :
  (∀ (token : string) (j : Z) (c : ascii),
     HasPrefix token "(?" = true → HasSuffix token ")" = true →
     len token > 3 →
     2 ≤ j < len token - 1 → index token j = Ok c →
     PythonFormat.is_flag_letter c = false →
     PythonFormat.ExplainToken token = Ok (PythonFormat.unknown_token token))
  ∧ (∀ token : string,
       HasPrefix token "(?P=" = true → HasSuffix token ")" = true →
       PythonFormat.ExplainToken token
       = Ok (PythonFormat.unknown_token token))
  ∧ PythonFormat.TokenizeRegex "(?P=name)" = Ok ["(?P=name)"]
  ∧ PythonFormat.ExplainToken "(?P=name)" = Ok "Unknown token: (?P=name)".
Proof.
  assert (H : ∀ (token : string) (j : Z) (c : ascii),
     HasPrefix token "(?" = true → HasSuffix token ")" = true →
     len token > 3 →
     2 ≤ j < len token - 1 → index token j = Ok c →
     PythonFormat.is_flag_letter c = false →
     PythonFormat.ExplainToken token = Ok (PythonFormat.unknown_token token)).
  { intros token j c Hpre Hsuf Hlen Hj Hc Hflag.
    unfold PythonFormat.ExplainToken. rewrite Hpre, Hsuf.
    destruct (Z.gtb_spec (len token) 3); [|lia]. cbn [andb].
    unfold HasPrefix in Hpre.
    apply prefix_cons_inv in Hpre as (t1 & -> & Hpre).
    apply prefix_cons_inv in Hpre as (t2 & -> & _).
    change (HasPrefix (String "(" (String "?" t2)) "r'") with false.
    change (HasPrefix (String "(" (String "?" t2)) "R'") with false.
    change (HasPrefix (String "(" (String "?" t2)) (String "r" (String dquote "")))
      with false.
    change (HasPrefix (String "(" (String "?" t2)) (String "R" (String dquote "")))
      with false.
    cbn [orb].
    rewrite (all_flags_false _ _ 2 j c) by first [assumption | lia].
    reflexivity. }
  split; [exact H|]. split; [|split; vm_compute; reflexivity].
  intros token Hpre Hsuf. unfold HasPrefix in Hpre.
  apply prefix_cons_inv in Hpre as (t1 & -> & Hpre).
  apply prefix_cons_inv in Hpre as (t2 & -> & Hpre).
  apply prefix_cons_inv in Hpre as (t3 & -> & Hpre).
  apply prefix_cons_inv in Hpre as (t4 & -> & _).
  pose proof (len_nonneg t4).
  assert (Hp : HasPrefix (String "(" (String "?" (String "P" (String "=" t4))))
                 "(?" = true).
  { unfold HasPrefix. cbn [String.prefix].
    destruct (ascii_dec "(" "("); [|congruence].
    destruct (ascii_dec "?" "?"); [|congruence]. reflexivity. }
  assert (Hi : index (String "(" (String "?" (String "P" (String "=" t4)))) 2
               = Ok "P"%char).
  { change 2 with (0 + 1 + 1).
    rewrite !index_String_S by lia. apply index_String_0. }
  apply (H _ 2 "P"%char Hp Hsuf); [| |exact Hi|reflexivity];
    rewrite !len_String; lia.
Qed.

(** C9 at the token ["(?P=name)"]. *)
Lemma C9_python_group_token_unknown_witness :
  PythonFormat.ExplainToken "(?P=name)" = Ok "Unknown token: (?P=name)".
Proof.
  apply (proj1 C9_python_group_token_unknown "(?P=name)" 2 "P"%char);
    try reflexivity.
  vm_compute. split; [discriminate|reflexivity].
Defined.

(** ** Further properties of the code *)

(** *** The scan primitives return the first closer *)

Lemma FindClosingBracket_loop_first (n : nat) (p : string) (start i : Z) :
  -1 ≤ start → start < i → i + Z.of_nat n ≤ len p →
  ∃ e, FindClosingBracket_loop n p start i = Ok e
       ∧ ((e = -1 ∧ ∀ j, i ≤ j < i + Z.of_nat n → ¬ closes_class p start j)
          ∨ (i ≤ e < i + Z.of_nat n ∧ closes_class p start e
             ∧ ∀ j, i ≤ j < e → ¬ closes_class p start j)).
Proof.
  revert i. induction n as [|n IH]; intros i Hs Hi Hn.
  - exists (-1). split; [reflexivity|]. left. split; [reflexivity|]. intros j Hj. lia.
  - cbn [FindClosingBracket_loop].
    destruct (index_ok p i) as [c Hc]; [lia|].
    rewrite (index_eq_ok _ _ _ _ Hc).
    assert (Hdec :
      ∃ b, Ok (Ascii.eqb c "]")
           &&& (pure (i =? start + 1) ||| index_ne p (i - 1) backslash) = Ok b
           ∧ (b = true ↔ closes_class p start i)).
    { unfold closes_class. rewrite Hc.
      destruct (Ascii.eqb_spec c "]") as [->|Hne]; cbn [and_then bind].
      - destruct (Z.eqb_spec i (start + 1)) as [E|E]; cbn [or_else bind].
        + exists true. split; [reflexivity|]. split; auto.
        + destruct (index_ok p (i - 1)) as [c' Hc']; [lia|].
          rewrite (index_ne_ok _ _ _ _ Hc'). eexists. split; [reflexivity|].
          destruct (Ascii.eqb_spec c' backslash) as [->|Hc'ne]; cbn [negb].
          * split; [discriminate|]. intros [_ [?|(c'' & Hc'' & Hne)]]; [lia|].
            rewrite Hc' in Hc''. congruence.
          * split; [|reflexivity]. intros _. split; [reflexivity|].
            right. eauto.
      - exists false. split; [reflexivity|]. split; [discriminate|].
        intros [[= E] _]. congruence. }
    destruct Hdec as (b & -> & Hb). cbn [bind]. destruct b.
    + exists i. split; [reflexivity|]. right.
      split; [lia|]. split; [now apply Hb|]. intros j Hj. lia.
    + destruct (IH (i + 1)) as (e & -> & He); try lia.
      exists e. split; [reflexivity|].
      assert (Hni : ¬ closes_class p start i)
        by (intros H; apply Hb in H; discriminate).
      destruct He as [[-> Hnone]|(Hr & Hcl & Hnone)].
      * left. split; [reflexivity|]. intros j Hj.
        destruct (Z.eq_dec j i) as [->|]; [assumption|]. apply Hnone. lia.
      * right. split; [lia|]. split; [assumption|]. intros j Hj.
        destruct (Z.eq_dec j i) as [->|]; [assumption|]. apply Hnone. lia.
Qed.

(** X1: from any [start ≥ -1], [FindClosingBracket] returns without a
    panic; the result is the first index after [start] that holds a [']']
    which is either right after [start] or not preceded by a backslash,
    and [-1] exactly when no index after [start] qualifies. *)
Theorem FindClosingBracket_first_closer (pattern : string) (start : Z) :
  -1 ≤ start →
  ∃ e, FindClosingBracket pattern start = Ok e
       ∧ ((e = -1 ∧ ∀ j, start < j < len pattern → ¬ closes_class pattern start j)
          ∨ (start < e < len pattern ∧ closes_class pattern start e
             ∧ ∀ j, start < j < e → ¬ closes_class pattern start j)).
Proof.
  intros Hs. unfold FindClosingBracket.
  destruct (Z.le_gt_cases (start + 1) (len pattern)) as [Hle|Hgt].
  - destruct (FindClosingBracket_loop_first
                (Z.to_nat (len pattern - (start + 1))) pattern start (start + 1))
      as (e & -> & He); try lia.
    exists e. split; [reflexivity|].
    destruct He as [[-> Hnone]|(Hr & Hcl & Hnone)].
    + left. split; [reflexivity|]. intros j Hj. apply Hnone. lia.
    + right. split; [lia|]. split; [assumption|]. intros j Hj. apply Hnone. lia.
  - replace (Z.to_nat (len pattern - (start + 1))) with 0%nat by lia.
    exists (-1). split; [reflexivity|]. left. split; [reflexivity|].
    intros j Hj. lia.
Qed.

(** X1 on the escaped bracket of the repository's helper test: the scan
    of ["[\]]"] passes the escaped bracket and stops at index 3. *)
Lemma FindClosingBracket_first_closer_witness :
  ∃ e, FindClosingBracket "[\]]" 0 = Ok e
       ∧ ((e = -1 ∧ ∀ j, 0 < j < len "[\]]" → ¬ closes_class "[\]]" 0 j)
          ∨ (0 < e < len "[\]]" ∧ closes_class "[\]]" 0 e
             ∧ ∀ j, 0 < j < e → ¬ closes_class "[\]]" 0 j)).
Proof. apply (FindClosingBracket_first_closer "[\]]" 0). lia. Defined.

Lemma FindClosingCurlyBrace_loop_first (n : nat) (p : string) (i : Z) :
  0 < i → i + Z.of_nat n ≤ len p →
  ∃ e, FindClosingCurlyBrace_loop n p i = Ok e
       ∧ ((e = -1 ∧ ∀ j, i ≤ j < i + Z.of_nat n → ¬ closes_brace p j)
          ∨ (i ≤ e < i + Z.of_nat n ∧ closes_brace p e
             ∧ ∀ j, i ≤ j < e → ¬ closes_brace p j)).
Proof.
  revert i. induction n as [|n IH]; intros i Hi Hn.
  - exists (-1). split; [reflexivity|]. left. split; [reflexivity|]. intros j Hj. lia.
  - cbn [FindClosingCurlyBrace_loop].
    destruct (index_ok p i) as [c Hc]; [lia|].
    destruct (index_ok p (i - 1)) as [c' Hc']; [lia|].
    rewrite (index_eq_ok _ _ _ _ Hc), (index_ne_ok _ _ _ _ Hc').
    assert (Hdec :
      ∃ b, Ok (Ascii.eqb c "}") &&& Ok (negb (Ascii.eqb c' backslash)) = Ok b
           ∧ (b = true ↔ closes_brace p i)).
    { unfold closes_brace. rewrite Hc, Hc'.
      destruct (Ascii.eqb_spec c "}") as [->|Hne]; cbn [and_then bind].
      - eexists. split; [reflexivity|].
        destruct (Ascii.eqb_spec c' backslash) as [->|Hc'ne]; cbn [negb].
        + split; [discriminate|]. intros [_ (c'' & [= <-] & Hne)]. congruence.
        + split; [|reflexivity]. intros _. split; [reflexivity|]. eauto.
      - exists false. split; [reflexivity|]. split; [discriminate|].
        intros [[= E] _]. congruence. }
    destruct Hdec as (b & -> & Hb). cbn [bind]. destruct b.
    + exists i. split; [reflexivity|]. right.
      split; [lia|]. split; [now apply Hb|]. intros j Hj. lia.
    + destruct (IH (i + 1)) as (e & -> & He); try lia.
      exists e. split; [reflexivity|].
      assert (Hni : ¬ closes_brace p i)
        by (intros H; apply Hb in H; discriminate).
      destruct He as [[-> Hnone]|(Hr & Hcl & Hnone)].
      * left. split; [reflexivity|]. intros j Hj.
        destruct (Z.eq_dec j i) as [->|]; [assumption|]. apply Hnone. lia.
      * right. split; [lia|]. split; [assumption|]. intros j Hj.
        destruct (Z.eq_dec j i) as [->|]; [assumption|]. apply Hnone. lia.
Qed.

(** X2: from any [start ≥ 0], [FindClosingCurlyBrace] returns without a
    panic; the result is the first index after [start] that holds a ['}']
    not preceded by a backslash, and [-1] exactly when there is none. *)
Theorem FindClosingCurlyBrace_first_closer (pattern : string) (start : Z) :
  0 ≤ start →
  ∃ e, FindClosingCurlyBrace pattern start = Ok e
       ∧ ((e = -1 ∧ ∀ j, start < j < len pattern → ¬ closes_brace pattern j)
          ∨ (start < e < len pattern ∧ closes_brace pattern e
             ∧ ∀ j, start < j < e → ¬ closes_brace pattern j)).
Proof.
  intros Hs. unfold FindClosingCurlyBrace.
  destruct (Z.le_gt_cases (start + 1) (len pattern)) as [Hle|Hgt].
  - destruct (FindClosingCurlyBrace_loop_first
                (Z.to_nat (len pattern - (start + 1))) pattern (start + 1))
      as (e & -> & He); try lia.
    exists e. split; [reflexivity|].
    destruct He as [[-> Hnone]|(Hr & Hcl & Hnone)].
    + left. split; [reflexivity|]. intros j Hj. apply Hnone. lia.
    + right. split; [lia|]. split; [assumption|]. intros j Hj. apply Hnone. lia.
  - replace (Z.to_nat (len pattern - (start + 1))) with 0%nat by lia.
    exists (-1). split; [reflexivity|]. left. split; [reflexivity|].
    intros j Hj. lia.
Qed.

(** X2 on ["{\}}"], whose first brace is escaped. *)
Lemma FindClosingCurlyBrace_first_closer_witness :
  ∃ e, FindClosingCurlyBrace "{\}}" 0 = Ok e
       ∧ ((e = -1 ∧ ∀ j, 0 < j < len "{\}}" → ¬ closes_brace "{\}}" j)
          ∨ (0 < e < len "{\}}" ∧ closes_brace "{\}}" e
             ∧ ∀ j, 0 < j < e → ¬ closes_brace "{\}}" j)).
Proof. apply (FindClosingCurlyBrace_first_closer "{\}}" 0). lia. Defined.

Lemma FindClosingParenthesis_loop_range (fuel : nat) (p : string) (i depth : Z) :
  0 ≤ i → len p - i ≤ Z.of_nat fuel →
  ∃ r, FindClosingParenthesis_loop fuel p i depth = Ok r
       ∧ (r = -1 ∨ (i ≤ r < len p ∧ index p r = Ok ")"%char))
       ∧ ((∀ j, i ≤ j < len p → index p j ≠ Ok ")"%char) → r = -1).
Proof.
  revert i depth. induction fuel as [|fuel IH]; intros i depth Hi Hfuel.
  - cbn [FindClosingParenthesis_loop].
    destruct (Z.ltb_spec i (len p)); [lia|]. exists (-1). auto.
  - cbn [FindClosingParenthesis_loop].
    destruct (Z.ltb_spec i (len p)) as [Hlt|]; [|exists (-1); auto].
    destruct (index_ok p i) as [c Hc]; [lia|].
    rewrite (index_eq_ok _ _ _ _ Hc), Hc.
    assert (Hnext : ∀ k d, i < k →
      ∃ r, FindClosingParenthesis_loop fuel p k d = Ok r
           ∧ (r = -1 ∨ (i ≤ r < len p ∧ index p r = Ok ")"%char))
           ∧ ((∀ j, i ≤ j < len p → index p j ≠ Ok ")"%char) → r = -1)).
    { intros k d Hk. destruct (IH k d) as (r & -> & Hr & Hnone); try lia.
      exists r. split; [reflexivity|]. split.
      - destruct Hr as [->|[? ?]]; [now left|right; split; [lia|assumption]].
      - intros Hno. apply Hnone. intros j Hj. apply Hno. lia. }
    destruct (Ascii.eqb c backslash); cbn [and_then bind].
    + destruct (Z.ltb_spec (i + 1) (len p)); cbn [bind].
      * apply Hnext. lia.
      * destruct (Ascii.eqb_spec c "(") as [->|_]; [apply Hnext; lia|].
        destruct (Ascii.eqb_spec c ")") as [->|_]; [|apply Hnext; lia].
        destruct (depth - 1 =? 0); [|apply Hnext; lia].
        exists i. split; [reflexivity|]. split; [right; split; [lia|assumption]|].
        intros Hno. exfalso. apply (Hno i); [lia|assumption].
    + destruct (Ascii.eqb_spec c "(") as [->|_]; [apply Hnext; lia|].
      destruct (Ascii.eqb_spec c ")") as [->|_]; [|apply Hnext; lia].
      destruct (depth - 1 =? 0); [|apply Hnext; lia].
      exists i. split; [reflexivity|]. split; [right; split; [lia|assumption]|].
      intros Hno. exfalso. apply (Hno i); [lia|assumption].
Qed.

(** X3: from any [start ≥ -1], [FindClosingParenthesis] returns: it
    neither panics nor loops; the result is [-1] or the index of a [')']
    after [start], and it is [-1] whenever no [')'] follows [start]. *)
Theorem FindClosingParenthesis_range (pattern : string) (start : Z) :
  -1 ≤ start →
  ∃ r, FindClosingParenthesis pattern start = Ok r
       ∧ (r = -1 ∨ (start < r < len pattern ∧ index pattern r = Ok ")"%char))
       ∧ ((∀ j, start < j < len pattern → index pattern j ≠ Ok ")"%char)
          → r = -1).
Proof.
  intros Hs. unfold FindClosingParenthesis.
  destruct (FindClosingParenthesis_loop_range
              (Z.to_nat (len pattern - (start + 1))) pattern (start + 1) 1)
    as (r & -> & Hr & Hnone); try lia.
  exists r. split; [reflexivity|]. split.
  - destruct Hr as [->|[? ?]]; [now left|right; split; [lia|assumption]].
  - intros H. apply Hnone. intros j Hj. apply H. lia.
Qed.

(** X3 on the unclosed group of the repository's helper test. *)
Lemma FindClosingParenthesis_range_witness :
  ∃ r, FindClosingParenthesis "(invalid" 0 = Ok r
       ∧ (r = -1 ∨ (0 < r < len "(invalid" ∧ index "(invalid" r = Ok ")"%char))
       ∧ ((∀ j, 0 < j < len "(invalid" → index "(invalid" j ≠ Ok ")"%char)
          → r = -1).
Proof. apply (FindClosingParenthesis_range "(invalid" 0). lia. Defined.

Lemma FindClosingParenthesis_loop_flat (fuel : nat) (p : string) (i e : Z) :
  0 ≤ i → i ≤ e → len p - i ≤ Z.of_nat fuel →
  index p e = Ok ")"%char →
  (∀ j, i ≤ j < e →
     ∃ c, index p j = Ok c ∧ c ≠ "("%char ∧ c ≠ ")"%char ∧ c ≠ backslash) →
  FindClosingParenthesis_loop fuel p i 1 = Ok e.
Proof.
  revert i. induction fuel as [|fuel IH]; intros i Hi Hie Hfuel He Hflat;
    pose proof (index_inv _ _ _ He) as [Hr _].
  - lia.
  - cbn [FindClosingParenthesis_loop].
    destruct (Z.ltb_spec i (len p)); [|lia].
    destruct (Z.eq_dec i e) as [->|Hne].
    + rewrite (index_eq_ok _ _ _ _ He), He.
      change (Ascii.eqb ")" backslash) with false. cbn [and_then bind].
      reflexivity.
    + destruct (Hflat i) as (c & Hc & H1 & H2 & H3); [lia|].
      rewrite (index_eq_ok _ _ _ _ Hc), Hc.
      destruct (Ascii.eqb_spec c backslash); [congruence|]. cbn [and_then bind].
      destruct (Ascii.eqb_spec c "("); [congruence|].
      destruct (Ascii.eqb_spec c ")"); [congruence|].
      apply IH; auto; try lia. intros j Hj. apply Hflat. lia.
Qed.

(** X4: when the bytes between [start] and a [')'] hold no parenthesis and
    no backslash, [FindClosingParenthesis] returns the index of that
    [')']. *)
Theorem FindClosingParenthesis_flat (pattern : string) (start e : Z) :
  -1 ≤ start → start < e →
  index pattern e = Ok ")"%char →
  (∀ j, start < j < e →
     ∃ c, index pattern j = Ok c
          ∧ c ≠ "("%char ∧ c ≠ ")"%char ∧ c ≠ backslash) →
  FindClosingParenthesis pattern start = Ok e.
Proof.
  intros Hs He Hclose Hflat. unfold FindClosingParenthesis.
  apply FindClosingParenthesis_loop_flat; auto; try lia.
  intros j Hj. apply Hflat. lia.
Qed.

(** X4 on ["(abc)"]. *)
Lemma FindClosingParenthesis_flat_witness :
  FindClosingParenthesis "(abc)" 0 = Ok 4.
Proof.
  apply (FindClosingParenthesis_flat "(abc)" 0 4); try lia; [reflexivity|].
  intros j Hj.
  assert (j = 1 ∨ j = 2 ∨ j = 3) as [-> | [-> | ->]] by lia;
    eexists; (split; [reflexivity|]); repeat split; discriminate.
Defined.

(** *** More on the tokenizers *)

Lemma length_le_concat (l : list string) :
  Forall nonempty l → Z.of_nat (length l) ≤ len (concat_tokens l).
Proof.
  induction 1 as [|t l Ht _ IH];
    [cbn [length concat_tokens fold_right]; rewrite len_empty; lia|].
  cbn [length concat_tokens fold_right]. fold (concat_tokens l).
  rewrite len_app. unfold nonempty in Ht. lia.
Qed.

(** X5: no tokenizer emits more tokens than the pattern has bytes. *)
Theorem tokenize_token_count (d : Dialect) (pattern : string) :
  ∃ toks, tokenize d pattern = Ok toks
          ∧ Z.of_nat (length toks) ≤ len pattern.
Proof.
  destruct (tokenize_spec d pattern)
    as (pre & core & toks & _ & Htok & Hcat & Henv & Hne & _).
  exists (pre ++ toks). split; [assumption|].
  apply Forall_app in Hne as [Hpre Htoks].
  pose proof (length_le_concat _ Htoks) as Hl. rewrite Hcat in Hl.
  pose proof (length_le_concat _ Hpre) as Hp.
  rewrite length_app, Nat2Z.inj_add.
  destruct d; cbn [envelope] in Henv.
  1-3: destruct Henv as [-> ->]; cbn [length]; lia.
  - destruct Henv as [[-> ->]|[[-> ->]|(flags & _ & -> & ->)]].
    + cbn [length]. lia.
    + rewrite !len_app. cbn [length]. pose proof (len_nonneg "/"). lia.
    + rewrite !len_app. cbn [length]. change (len "/") with 1.
      pose proof (len_nonneg flags). lia.
  - rewrite <- Henv, len_app. lia.
Qed.

Lemma all_plain_get (p : string) (n : nat) (c : ascii) :
  all_plain p = true → String.get n p = Some c → is_special c = false.
Proof.
  unfold all_plain. revert n.
  induction p as [|a p IH]; intros n Hall Hget; cbn [String.get] in Hget;
    [discriminate|].
  cbn [list_ascii_of_string forallb] in Hall.
  apply andb_prop in Hall as [Ha Hall].
  destruct n as [|n].
  - injection Hget as <-. now apply negb_true_iff in Ha.
  - eauto.
Qed.

Lemma all_plain_index (p : string) (i : Z) (c : ascii) :
  all_plain p = true → index p i = Ok c → is_special c = false.
Proof.
  intros Hall Hc. apply index_inv in Hc as [_ Hget].
  eapply all_plain_get; eauto.
Qed.

Lemma is_special_false (c : ascii) :
  is_special c = false →
  Ascii.eqb c "[" = false ∧ Ascii.eqb c backslash = false
  ∧ Ascii.eqb c "{" = false ∧ is_quantifier c = false
  ∧ Ascii.eqb c "(" = false ∧ Ascii.eqb c ")" = false
  ∧ Ascii.eqb c "|" = false ∧ Ascii.eqb c "^" = false
  ∧ Ascii.eqb c "$" = false ∧ Ascii.eqb c "." = false.
Proof.
  unfold is_special. intros H.
  repeat (apply orb_false_elim in H as [H ?]). repeat split; assumption.
Qed.

(** A byte that is not special reaches the default case of every body. *)
Lemma plain_byte_written (d : Dialect) (p : string) (c : ascii) (s : st) :
  is_special c = false →
  match d with
  | Baseline => GoFormat.body
  | Pcre => PcreFormat.body
  | Posix => PosixFormat.body
  | Ecma => JsFormat.body
  | Python => PythonFormat.body
  end p c s = Ok (Continue (write_byte c s)).
Proof.
  intros H. apply is_special_false in H
    as (H1 & H2 & H3 & H4 & H5 & H6 & H7 & H8 & H9 & H10).
  destruct d;
    unfold GoFormat.body, PcreFormat.body, PosixFormat.body, JsFormat.body,
      PythonFormat.body, tail_blocks, seq_block, char_class_block,
      PosixFormat.char_class_block, escape_block, PythonFormat.escape_block,
      brace_block, plain_quantifier_block, suffix_quantifier_block,
      GoFormat.group_block, PcreFormat.group_block, PosixFormat.group_block,
      JsFormat.group_block, PythonFormat.group_block, close_paren_block,
      alternation_block, anchor_block, dot_block, single_block, default_block;
    rewrite ?H1, ?H2, ?H3, ?H4, ?H5, ?H6, ?H7, ?H8, ?H9, ?H10;
    reflexivity.
Qed.

Lemma plain_loop (body : block) (p : string) :
  p ≠ "" → all_plain p = true →
  (∀ c s, is_special c = false → body p c s = Ok (Continue (write_byte c s))) →
  ∀ (fuel : nat) (i : Z),
    0 ≤ i ≤ len p → len p - i ≤ Z.of_nat fuel →
    tokenize_loop body fuel p (mkSt i [] (sub p 0 i)) = Ok [p].
Proof.
  intros Hne Hall Hbody fuel. induction fuel as [|fuel IH]; intros i Hi Hfuel.
  - cbn [tokenize_loop idx]. destruct (Z.ltb_spec i (len p)); [lia|].
    replace i with (len p) by lia. rewrite sub_full. unfold flush.
    cbn [cur tokens idx]. apply nonempty_len in Hne.
    destruct (Z.ltb_spec 0 (len p)); [reflexivity|lia].
  - cbn [tokenize_loop idx]. destruct (Z.ltb_spec i (len p)) as [Hlt|].
    + unfold iteration. cbn [idx].
      destruct (index_ok p i) as [c Hc]; [lia|]. rewrite Hc. cbn [bind].
      rewrite Hbody by (eapply all_plain_index; eauto). cbn [bind].
      unfold goto, write_byte. cbn [idx tokens cur].
      replace (sub p 0 i +:+ String c "") with (sub p 0 (i + 1)).
      * apply IH; lia.
      * rewrite <- (sub_app p 0 i (i + 1)) by lia. f_equal. now apply sub_1.
    + replace i with (len p) by lia. rewrite sub_full. unfold flush.
      cbn [cur tokens idx]. apply nonempty_len in Hne.
      destruct (Z.ltb_spec 0 (len p)); [reflexivity|lia].
Qed.

Lemma Python_strip_raw_none (p : string) :
  has_envelope Python p = false → PythonFormat.strip_raw p = Ok ([], p).
Proof.
  intros Henv. unfold PythonFormat.strip_raw.
  destruct p as [|c0 p]; [reflexivity|]. rewrite len_String.
  pose proof (len_nonneg p).
  destruct (Z.gtb_spec (1 + len p) 0); [|lia]. cbn [and_then bind].
  rewrite !(index_eq_ok _ _ _ _ (index_String_0 c0 p)). cbn [or_else bind].
  destruct p as [|c1 p].
  - destruct (Ascii.eqb c0 "r"); cbn; [reflexivity|].
    destruct (Ascii.eqb c0 "R"); reflexivity.
  - cbn [has_envelope] in Henv.
    assert (Hc1 : index (String c0 (String c1 p)) 1 = Ok c1).
    { change 1 with (0 + 1). rewrite index_String_S by lia.
      apply index_String_0. }
    rewrite !len_String. pose proof (len_nonneg p).
    destruct (Z.gtb_spec (1 + (1 + len p)) 1); [|lia].
    rewrite !(index_eq_ok _ _ _ _ Hc1).
    destruct (Ascii.eqb c0 "r"), (Ascii.eqb c0 "R"),
      (Ascii.eqb c1 dquote), (Ascii.eqb c1 "'");
      cbn in Henv |- *; try discriminate; reflexivity.
Qed.

Lemma plain_pre_pass (d : Dialect) (p : string) :
  all_plain p = true → has_envelope d p = false →
  pre_pass d p = Ok ([], p).
Proof.
  intros Hall Henv. pose proof (len_nonneg p) as Hlen.
  destruct d; cbn [pre_pass]; try reflexivity.
  - unfold JsFormat.strip. cbn [has_envelope] in Henv. unfold HasPrefix in Henv.
    destruct (Z.gtb_spec (len p) 2); cbn [and_then bind]; [|reflexivity].
    destruct p as [|c0 p]; [rewrite len_empty in *; lia|].
    rewrite prefix_slash in Henv.
    rewrite (index_eq_ok _ _ _ _ (index_String_0 c0 p)), Henv. reflexivity.
  - unfold PythonFormat.strip.
    rewrite (Python_strip_raw_none p Henv).
    cbn [bind fst snd]. unfold PythonFormat.strip_flags.
    destruct (Z.gtb_spec (len p) 2); cbn [and_then bind]; [|reflexivity].
    destruct p as [|c0 p]; [rewrite len_empty in *; lia|].
    rewrite (index_eq_ok _ _ _ _ (index_String_0 c0 p)).
    assert (Hc0 : is_special c0 = false)
      by (eapply all_plain_index; [eassumption|apply index_String_0]).
    apply is_special_false in Hc0 as (_ & _ & _ & _ & -> & _). reflexivity.
Qed.

(** X6: a non-empty pattern without any special byte ([[], [\], [{], [*],
    [+], [?], [(], [)], [|], [^], [$], [.]) and without the envelope the
    dialect's pre-pass looks for is returned as one single token. *)
Theorem tokenize_plain_pattern (d : Dialect) (pattern : string) :
  pattern ≠ "" → all_plain pattern = true → has_envelope d pattern = false →
  tokenize d pattern = Ok [pattern].
Proof.
  intros Hne Hall Henv.
  pose proof (plain_pre_pass d pattern Hall Henv) as Hpre.
  pose proof (len_nonneg pattern) as Hlen.
  assert (Hloop : ∀ body,
    (∀ c s, is_special c = false →
            body pattern c s = Ok (Continue (write_byte c s))) →
    tokenize_loop body (String.length pattern) pattern (mkSt 0 [] "")
    = Ok [pattern]).
  { intros body Hbody.
    replace (mkSt 0 [] "") with (mkSt 0 [] (sub pattern 0 0))
      by now rewrite sub_empty.
    apply plain_loop; auto; unfold len; lia. }
  destruct d; cbn [tokenize pre_pass] in *.
  - apply Hloop. intros c s. apply (plain_byte_written Baseline).
  - apply Hloop. intros c s. apply (plain_byte_written Pcre).
  - apply Hloop. intros c s. apply (plain_byte_written Posix).
  - unfold JsFormat.TokenizeRegex. rewrite Hpre. cbn [bind fst snd].
    apply Hloop. intros c s. apply (plain_byte_written Ecma).
  - unfold PythonFormat.TokenizeRegex. rewrite Hpre. cbn [bind fst snd].
    apply Hloop. intros c s. apply (plain_byte_written Python).
Qed.

(** X6 on the pattern ["regex"] in the Python dialect, which begins with
    an [r] that is no raw-string marker. *)
Lemma tokenize_plain_pattern_witness : tokenize Python "regex" = Ok ["regex"].
Proof.
  apply (tokenize_plain_pattern Python "regex");
    [discriminate|reflexivity|reflexivity].
Defined.

Lemma seq_block_ext (b1 b2 b2' : block) (p : string) (c : ascii) (s : st) :
  (∀ s', b2 p c s' = b2' p c s') → (b1 ;> b2) p c s = (b1 ;> b2') p c s.
Proof.
  intros H. unfold seq_block. destruct (b1 p c s) as [[s'|s']| |]; cbn [bind]; auto.
Qed.

Lemma Posix_class_block_eq (p : string) (c : ascii) (s : st) :
  0 ≤ idx s → PosixFormat.char_class_block p c s = char_class_block p c s.
Proof.
  intros Hs. unfold PosixFormat.char_class_block, char_class_block.
  destruct (Ascii.eqb c "["); [|reflexivity].
  rewrite nested_class_none by now rewrite flush_idx. reflexivity.
Qed.

Lemma group_block_eq_other (p : string) (c : ascii) (s : st) :
  c ≠ "("%char → PosixFormat.group_block p c s = GoFormat.group_block p c s.
Proof.
  intros Hc. unfold PosixFormat.group_block, single_block, GoFormat.group_block.
  destruct (Ascii.eqb_spec c "("); [congruence|reflexivity].
Qed.

Lemma group_block_eq_paren (p : string) (s : st) :
  no_group_header p → index p (idx s) = Ok "("%char →
  PosixFormat.group_block p "("%char s = GoFormat.group_block p "("%char s.
Proof.
  intros Hno Hc. pose proof (index_inv _ _ _ Hc) as [Hi _].
  unfold PosixFormat.group_block, single_block, GoFormat.group_block.
  change (Ascii.eqb "(" "(") with true. cbv iota. rewrite flush_idx.
  destruct (Z.ltb_spec (idx s + 2) (len p)); cbn [and_then bind];
    [|reflexivity].
  destruct (index_ok p (idx s + 1)) as [c1 Hc1]; [lia|].
  rewrite (index_eq_ok _ _ _ _ Hc1).
  destruct (Ascii.eqb_spec c1 "?") as [->|_]; [|reflexivity].
  now apply Hno in Hc.
Qed.

Lemma Posix_body_eq (p : string) (c : ascii) (s : st) :
  no_group_header p → index p (idx s) = Ok c →
  PosixFormat.body p c s = GoFormat.body p c s.
Proof.
  intros Hno Hc. pose proof (index_inv _ _ _ Hc) as [Hi _].
  unfold PosixFormat.body, GoFormat.body.
  transitivity
    ((char_class_block ;> escape_block ;> brace_block
      ;> plain_quantifier_block ;> PosixFormat.group_block ;> tail_blocks)
       p c s).
  { unfold seq_block at 1 3. rewrite Posix_class_block_eq by lia. reflexivity. }
  destruct (Ascii.eqb_spec c "(") as [->|Hne].
  - unfold seq_block, char_class_block, escape_block, brace_block,
      plain_quantifier_block.
    change (Ascii.eqb "(" "[") with false.
    change (Ascii.eqb "(" backslash) with false.
    change (Ascii.eqb "(" "{") with false.
    change (is_quantifier "(") with false. cbn [andb bind].
    now rewrite group_block_eq_paren.
  - do 4 (apply seq_block_ext; intros ?).
    unfold seq_block. now rewrite group_block_eq_other.
Qed.

Lemma Posix_loop_eq (p : string) :
  no_group_header p →
  ∀ (fuel : nat) (s : st),
    Inv [] p s →
    tokenize_loop PosixFormat.body fuel p s
    = tokenize_loop GoFormat.body fuel p s.
Proof.
  intros Hno fuel. induction fuel as [|fuel IH]; intros s HI; [reflexivity|].
  cbn [tokenize_loop]. destruct (Z.ltb_spec (idx s) (len p)); [|reflexivity].
  pose proof (inv_lo _ _ _ HI).
  destruct (index_ok p (idx s)) as [c Hc]; [lia|].
  unfold iteration. rewrite Hc. cbn [bind].
  rewrite Posix_body_eq by assumption.
  destruct (Go_body_ok [] p c s HI Hc) as (s' & -> & _ & HI').
  cbn [bind]. now apply IH.
Qed.

(** X7: on every pattern in which no ['('] is followed by ['?'], the
    POSIX tokenizer returns exactly what the baseline tokenizer returns:
    its nested-class check never changes a token. *)
Theorem Posix_tokenizes_as_baseline (pattern : string) :
  no_group_header pattern →
  PosixFormat.TokenizeRegex pattern = GoFormat.TokenizeRegex pattern.
Proof.
  intros Hno. unfold PosixFormat.TokenizeRegex, GoFormat.TokenizeRegex.
  apply Posix_loop_eq; [assumption|].
  pose proof (len_nonneg pattern).
  constructor; cbn [idx tokens cur]; try lia.
  - exists []. split; [reflexivity|]. now rewrite sub_empty.
  - constructor.
Qed.

(** X7 on ["[[:digit:]]+"]. *)
Lemma Posix_tokenizes_as_baseline_witness :
  PosixFormat.TokenizeRegex "[[:digit:]]+"
  = GoFormat.TokenizeRegex "[[:digit:]]+".
Proof.
  apply (Posix_tokenizes_as_baseline "[[:digit:]]+").
  intros i Hi. pose proof (index_inv _ _ _ Hi) as [Hr _].
  change (len "[[:digit:]]+") with 12 in Hr.
  assert (i = 0 ∨ i = 1 ∨ i = 2 ∨ i = 3 ∨ i = 4 ∨ i = 5 ∨ i = 6 ∨ i = 7
          ∨ i = 8 ∨ i = 9 ∨ i = 10 ∨ i = 11) as Hcases by lia.
  repeat (destruct Hcases as [-> | Hcases]; [discriminate|]).
  subst i. discriminate.
Defined.

(** *** Strings built by concatenation *)

Lemma prefix_app_inv (x s : string) :
  String.prefix x s = true → ∃ t, s = x +:+ t.
Proof.
  revert s. induction x as [|a x IH]; intros s H.
  - exists s. reflexivity.
  - apply prefix_cons_inv in H as (s' & -> & H).
    destruct (IH _ H) as [t ->]. exists t. reflexivity.
Qed.

Lemma prefix_app (x t : string) : String.prefix x (x +:+ t) = true.
Proof.
  induction x as [|a x IH]; [now destruct t|].
  rewrite app_cons. cbn [String.prefix].
  destruct (ascii_dec a a); [assumption|congruence].
Qed.

Lemma substring_app_skip (a s : string) (n m : nat) :
  String.substring (String.length a + n) m (a +:+ s) = String.substring n m s.
Proof.
  induction a as [|x a IH]; [reflexivity|].
  rewrite app_cons. cbn [String.length Nat.add String.substring]. exact IH.
Qed.

Lemma substring_app_take (b c : string) :
  String.substring 0 (String.length b) (b +:+ c) = b.
Proof.
  induction b as [|x b IH].
  - cbn [String.length]. apply substring_0_0.
  - rewrite app_cons. cbn [String.length String.substring]. now rewrite IH.
Qed.

Lemma sub_app_mid (a b c : string) :
  sub (a +:+ b +:+ c) (len a) (len a + len b) = b.
Proof.
  unfold sub, len.
  replace (Z.to_nat (Z.of_nat (String.length a))) with (String.length a + 0)%nat
    by lia.
  replace (Z.to_nat (Z.of_nat (String.length a) + Z.of_nat (String.length b)
                     - Z.of_nat (String.length a)))
    with (String.length b) by lia.
  rewrite substring_app_skip. apply substring_app_take.
Qed.

Lemma String_eqb_refl (s : string) : String.eqb s s = true.
Proof. now apply String.eqb_eq. Qed.

Lemma HasSuffix_app (s suf : string) : HasSuffix (s +:+ suf) suf = true.
Proof.
  unfold HasSuffix.
  assert (E : String.length (s +:+ suf)
              = (String.length s + String.length suf)%nat).
  { pose proof (len_app s suf) as H. unfold len in H. lia. }
  rewrite E. destruct (Nat.leb_spec (String.length suf)
                         (String.length s + String.length suf)); [|lia].
  cbn [andb].
  replace (String.length s + String.length suf - String.length suf)%nat
    with (String.length s + 0)%nat by lia.
  rewrite substring_app_skip, substring_full. apply String_eqb_refl.
Qed.

Lemma HasSuffix_last (s : string) (c y : ascii) :
  HasSuffix (s +:+ String c "") (String y "") = Ascii.eqb c y.
Proof.
  unfold HasSuffix.
  assert (E : String.length (s +:+ String c "") = (String.length s + 1)%nat).
  { pose proof (len_app s (String c "")) as H. unfold len in H.
    cbn [String.length] in *. lia. }
  rewrite E. cbn [String.length].
  destruct (Nat.leb_spec 1 (String.length s + 1)); [|lia]. cbn [andb].
  replace (String.length s + 1 - 1)%nat with (String.length s + 0)%nat by lia.
  rewrite substring_app_skip. cbn [String.substring String.eqb].
  now destruct (Ascii.eqb c y).
Qed.

Lemma last_byte (t : string) (a : ascii) :
  ∃ s c, String a t = s +:+ String c "".
Proof.
  revert a. induction t as [|b t IH]; intros a.
  - exists "", a. reflexivity.
  - destruct (IH b) as (s & c & E). exists (String a s), c.
    rewrite app_cons. now rewrite E.
Qed.

(** A token that begins with [x] followed by [c] and ends with another
    byte [y] is longer than [x] and [c]. *)
Lemma prefix_suffix_len (token x : string) (c y : ascii) :
  HasPrefix token (x +:+ String c "") = true →
  HasSuffix token (String y "") = true → c ≠ y →
  len x + 2 ≤ len token.
Proof.
  unfold HasPrefix. intros Hp Hs Hne.
  apply prefix_app_inv in Hp as [t ->].
  destruct t as [|a t].
  - rewrite app_empty_r in Hs. rewrite HasSuffix_last in Hs.
    destruct (Ascii.eqb_spec c y); congruence.
  - rewrite !len_app, !len_String. pose proof (len_nonneg t).
    rewrite len_empty. lia.
Qed.

Lemma HasPrefix_len (token x : string) :
  HasPrefix token x = true → len x ≤ len token.
Proof.
  unfold HasPrefix. intros Hp. apply prefix_app_inv in Hp as [t ->].
  rewrite len_app. pose proof (len_nonneg t). lia.
Qed.

(** *** The explainers never panic *)

Ltac ok_leaf := eexists; reflexivity.

Lemma explain_class_total (token : string) :
  2 ≤ len token → ∃ e, explain_class token = Ok e.
Proof.
  intros H. unfold explain_class.
  destruct (Z.gtb_spec (len token) 2); cbn [and_then bind].
  - destruct (index_ok token 1) as [c Hc]; [lia|].
    rewrite (index_eq_ok _ _ _ _ Hc). cbn [bind].
    destruct (Ascii.eqb c "^"); rewrite slice_ok by lia; ok_leaf.
  - rewrite slice_ok by lia. ok_leaf.
Qed.

Lemma explain_brace_total (token : string) :
  2 ≤ len token → ∃ e, explain_brace token = Ok e.
Proof.
  intros H. unfold explain_brace. rewrite slice_ok by lia. cbn [bind].
  destruct (Contains _ ","); [|ok_leaf].
  destruct (Split _ ",") as [|p0 [|p1 [|p2 l]]]; try ok_leaf.
  destruct (String.eqb p1 ""); ok_leaf.
Qed.

Lemma explain_named_backref_total (m : Z) (sequence : string) :
  2 ≤ m → ∃ e, explain_named_backref m sequence = Ok e.
Proof.
  intros Hm. unfold explain_named_backref.
  destruct (Z.gtb_spec (len sequence) m); cbn [and_then bind]; [|ok_leaf].
  destruct (index_ok sequence 2) as [c Hc]; [lia|].
  rewrite (index_eq_ok _ _ _ _ Hc). cbn [bind].
  destruct (Ascii.eqb c "<"); [|ok_leaf].
  rewrite slice_from_ok by lia. cbn [bind].
  destruct (IndexByte_range (sub sequence 3 (len sequence)) ">") as [E|E].
  - rewrite E. ok_leaf.
  - rewrite len_sub in E by lia.
    destruct (Z.geb_spec (IndexByte (sub sequence 3 (len sequence)) ">") 0);
      [|lia].
    rewrite slice_ok by lia. ok_leaf.
Qed.

Lemma all_hex_total (k : nat) (sequence : string) (j : Z) :
  0 ≤ j → j + Z.of_nat k ≤ len sequence → ∃ b, all_hex k sequence j = Ok b.
Proof.
  revert j. induction k as [|k IH]; intros j Hj Hle; [now exists true|].
  cbn [all_hex]. destruct (index_ok sequence j) as [c ->]; [lia|].
  cbn [and_then bind]. destruct (isHexDigit c); [|ok_leaf]. apply IH; lia.
Qed.

Lemma hex_case_total (k : nat) (sequence : string) (f : string → string)
  (bad : string) :
  ∃ e, (let* ok := pure (len sequence >=? 2 + Z.of_nat k)
                     &&& all_hex k sequence 2 in
        if ok then
          let* hex := slice sequence 2 (2 + Z.of_nat k) in Ok (f hex)
        else Ok bad) = Ok e.
Proof.
  destruct (Z.geb_spec (len sequence) (2 + Z.of_nat k)); cbn [and_then bind];
    [|ok_leaf].
  destruct (all_hex_total k sequence 2) as [b ->]; try lia. cbn [bind].
  destruct b; [|ok_leaf]. rewrite slice_ok by lia. ok_leaf.
Qed.

Lemma property_case_total (sequence : string) (f : string → result string) :
  (∀ name, ∃ e, f name = Ok e) →
  ∃ e, (let* brace := pure (len sequence >? 2) &&& index_eq sequence 2 "{" in
        if brace then
          let* rest := slice_from sequence 3 in
          let e := IndexByte rest "}" in
          if e >=? 0 then
            let* name := slice sequence 3 (3 + e) in f name
          else Ok "Invalid unicode property"
        else Ok "Invalid unicode property") = Ok e.
Proof.
  intros Hf.
  destruct (Z.gtb_spec (len sequence) 2); cbn [and_then bind]; [|ok_leaf].
  destruct (index_ok sequence 2) as [c Hc]; [lia|].
  rewrite (index_eq_ok _ _ _ _ Hc). cbn [bind].
  destruct (Ascii.eqb c "{"); [|ok_leaf].
  rewrite slice_from_ok by lia. cbn [bind].
  destruct (IndexByte_range (sub sequence 3 (len sequence)) "}") as [E|E].
  - rewrite E. ok_leaf.
  - rewrite len_sub in E by lia.
    destruct (Z.geb_spec (IndexByte (sub sequence 3 (len sequence)) "}") 0);
      [|lia].
    rewrite slice_ok by lia. cbn [bind]. apply Hf.
Qed.

(** Walks down a chain of [if]s whose true branches are answers. *)
Ltac walk_chain :=
  repeat match goal with
         | |- ∃ e, (if ?b then _ else _) = Ok e =>
           destruct b eqn:?; [try ok_leaf|]
         end;
  try ok_leaf.

Lemma explainEscapeSequence_total (sequence : string) :
  ∃ e, GoFormat.explainEscapeSequence sequence = Ok e.
Proof.
  unfold GoFormat.explainEscapeSequence.
  destruct (Z.ltb_spec (len sequence) 2); [ok_leaf|].
  destruct (index_ok sequence 1) as [c ->]; [lia|]. cbn [bind]. walk_chain.
Qed.

Lemma explainPosixEscapeSequence_total (sequence : string) :
  ∃ e, PosixFormat.explainPosixEscapeSequence sequence = Ok e.
Proof.
  unfold PosixFormat.explainPosixEscapeSequence.
  destruct (Z.ltb_spec (len sequence) 2); [ok_leaf|].
  destruct (index_ok sequence 1) as [c ->]; [lia|]. cbn [bind]. walk_chain.
Qed.

Lemma explainPcreEscapeSequence_total (sequence : string) :
  ∃ e, PcreFormat.explainPcreEscapeSequence sequence = Ok e.
Proof.
  unfold PcreFormat.explainPcreEscapeSequence.
  destruct (Z.ltb_spec (len sequence) 2); [ok_leaf|].
  destruct (index_ok sequence 1) as [c ->]; [lia|]. cbn [bind]. walk_chain.
  - apply explain_named_backref_total. lia.
  - apply (property_case_total sequence
             (λ name, if Ascii.eqb c "p" then Ok _ else Ok _)).
    intros name. destruct (Ascii.eqb c "p"); ok_leaf.
Qed.

Lemma explainJsEscapeSequence_total (sequence : string) :
  ∃ e, JsFormat.explainJsEscapeSequence sequence = Ok e.
Proof.
  unfold JsFormat.explainJsEscapeSequence.
  destruct (Z.ltb_spec (len sequence) 2); [ok_leaf|].
  destruct (index_ok sequence 1) as [c ->]; [lia|]. cbn [bind]. walk_chain.
  - apply explain_named_backref_total. lia.
  - apply (property_case_total sequence
             (λ name, if Ascii.eqb c "p" then Ok _ else Ok _)).
    intros name. destruct (Ascii.eqb c "p"); ok_leaf.
  - apply (hex_case_total 4 sequence
             (λ hex, "Matches the Unicode character U+" +:+ hex)).
  - apply (hex_case_total 2 sequence
             (λ hex, "Matches the character with hex code " +:+ hex)).
Qed.

Lemma explainPythonEscapeSequence_total (sequence : string) :
  ∃ e, PythonFormat.explainPythonEscapeSequence sequence = Ok e.
Proof.
  unfold PythonFormat.explainPythonEscapeSequence.
  destruct (Z.ltb_spec (len sequence) 2); [ok_leaf|].
  destruct (index_ok sequence 1) as [c ->]; [lia|]. cbn [bind]. walk_chain.
  - apply explain_named_backref_total. lia.
  - apply (hex_case_total 2 sequence
             (λ hex, "Matches the character with hex code " +:+ hex)).
  - apply (hex_case_total 4 sequence
             (λ hex, "Matches the Unicode character U+" +:+ hex)).
  - apply (hex_case_total 8 sequence
             (λ hex, "Matches the Unicode character U+" +:+ hex)).
  - destruct (Z.gtb_spec (len sequence) 3); cbn [and_then bind]; [|ok_leaf].
    destruct (index_ok sequence 2) as [c2 Hc2]; [lia|].
    rewrite (index_eq_ok _ _ _ _ Hc2). cbn [bind].
    destruct (Ascii.eqb c2 "{"); [|ok_leaf].
    rewrite slice_from_ok by lia. cbn [bind].
    destruct (IndexByte_range (sub sequence 2 (len sequence)) "}") as [E|E].
    + rewrite E. ok_leaf.
    + rewrite len_sub in E by lia.
      destruct (Z.gtb_spec (IndexByte (sub sequence 2 (len sequence)) "}") 0);
        [|ok_leaf].
      rewrite slice_ok by lia. ok_leaf.
Qed.

Lemma Index_from_range (s x : string) (k : Z) :
  Index_from s x k = -1
  ∨ (k ≤ Index_from s x k ∧ Index_from s x k - k + len x ≤ len s).
Proof.
  revert k. induction s as [|a s IH]; intros k.
  - cbn [Index_from]. destruct (String.prefix x "") eqn:E; [|now left].
    right. apply HasPrefix_len in E. lia.
  - cbn [Index_from]. destruct (String.prefix x (String a s)) eqn:E.
    + right. apply HasPrefix_len in E. lia.
    + destruct (IH (k + 1)) as [H|H]; [now left|right].
      rewrite len_String. lia.
Qed.

Lemma Index_range (s x : string) :
  Index s x = -1 ∨ (0 ≤ Index s x ∧ Index s x + len x ≤ len s).
Proof.
  unfold Index. destruct (Index_from_range s x 0) as [H|H]; [now left|].
  right. lia.
Qed.

Ltac split_conds :=
  repeat match goal with
         | H : _ && _ = true |- _ => apply andb_prop in H as [? ?]
         end.

(** The length a token has when it begins with [x], [c] and ends with [y]. *)
Ltac token_len n x c y :=
  match goal with
  | |- ∃ e, _ = Ok e =>
    match goal with
    | H : HasSuffix ?t _ = true |- _ =>
      assert (n ≤ len t)
        by (exact (prefix_suffix_len t x c y ltac:(assumption)
                     ltac:(assumption) ltac:(discriminate)))
    end
  end.

Ltac name_case n x c y :=
  token_len n x c y; rewrite slice_ok by lia; ok_leaf.

Ltac class_case :=
  token_len 2 "" "["%char "]"%char; apply explain_class_total; assumption.

Ltac brace_case :=
  token_len 2 "" "{"%char "}"%char; apply explain_brace_total; assumption.

Lemma Go_ExplainToken_total (token : string) :
  ∃ e, GoFormat.ExplainToken token = Ok e.
Proof.
  unfold GoFormat.ExplainToken. walk_chain; split_conds.
  - name_case 5 "(?P" "<"%char ">"%char.
  - class_case.
  - apply explainEscapeSequence_total.
  - brace_case.
Qed.

Lemma Pcre_ExplainToken_total (token : string) :
  ∃ e, PcreFormat.ExplainToken token = Ok e.
Proof.
  unfold PcreFormat.ExplainToken. walk_chain; split_conds.
  - name_case 4 "(?" "<"%char ">"%char.
  - name_case 5 "(?P" "<"%char ">"%char.
  - class_case.
  - apply explainPcreEscapeSequence_total.
  - brace_case.
Qed.

Lemma explain_posix_class_total (token : string) :
  2 ≤ len token → ∃ e, PosixFormat.explain_posix_class token = Ok e.
Proof.
  intros H. unfold PosixFormat.explain_posix_class.
  destruct (Contains token "[[:" && Contains token ":]]");
    [|now apply explain_class_total].
  destruct (Z.geb_spec (Index token "[[:") 0); cbn [andb];
    [|now apply explain_class_total].
  destruct (Z.gtb_spec (Index token ":]]") (Index token "[[:" + 3));
    [|now apply explain_class_total].
  destruct (Index_range token ":]]") as [E|[E1 E2]]; [lia|].
  change (len ":]]") with 3 in E2.
  rewrite slice_ok by lia. ok_leaf.
Qed.

Lemma Posix_ExplainToken_total (token : string) :
  ∃ e, PosixFormat.ExplainToken token = Ok e.
Proof.
  unfold PosixFormat.ExplainToken. walk_chain; split_conds.
  - token_len 2 "" "["%char "]"%char.
    apply explain_posix_class_total; assumption.
  - apply explainPosixEscapeSequence_total.
  - brace_case.
Qed.

Lemma Js_ExplainToken_total (token : string) :
  ∃ e, JsFormat.ExplainToken token = Ok e.
Proof.
  unfold JsFormat.ExplainToken.
  destruct (HasPrefix token "/") eqn:Hslash.
  { apply HasPrefix_len in Hslash. change (len "/") with 1 in Hslash.
    rewrite slice_from_ok by lia. ok_leaf. }
  walk_chain; split_conds.
  - name_case 4 "(?" "<"%char ">"%char.
  - class_case.
  - apply explainJsEscapeSequence_total.
  - brace_case.
Qed.

Lemma Python_ExplainToken_total (token : string) :
  ∃ e, PythonFormat.ExplainToken token = Ok e.
Proof.
  unfold PythonFormat.ExplainToken.
  match goal with |- ∃ e, (if ?b then _ else _) = Ok e => destruct b end;
    [ok_leaf|].
  destruct (HasPrefix token "(?" && HasSuffix token ")" && (len token >? 3))
    eqn:Hflags.
  { split_conds.
    match goal with H : (_ >? _) = true |- _ => apply Z.gtb_lt in H end.
    destruct (all_flags_ok (Z.to_nat (len token - 1 - 2)) token 2) as [b ->];
      try lia.
    cbn [bind]. destruct b; [|ok_leaf]. rewrite slice_ok by lia. ok_leaf. }
  walk_chain; split_conds.
  - name_case 5 "(?P" "<"%char ">"%char.
  - name_case 5 "(?P" "="%char ")"%char.
  - class_case.
  - apply explainPythonEscapeSequence_total.
  - brace_case.
Qed.

(** X8: whatever the token, well formed or not, and whatever the dialect,
    the explainer returns a description: none of its index and slice
    expressions ([token[1]], [token[4 : len(token)-1]], [sequence[3 : 3+end]],
    ...) is ever evaluated out of range. *)
Theorem explain_never_panics (d : Dialect) (token : string) :
  ∃ e, explain d token = Ok e.
Proof.
  destruct d; cbn [explain].
  - apply Go_ExplainToken_total.
  - apply Pcre_ExplainToken_total.
  - apply Posix_ExplainToken_total.
  - apply Js_ExplainToken_total.
  - apply Python_ExplainToken_total.
Qed.

(** *** How the explainers read a repetition token *)

Lemma eqb_head_ne (c a : ascii) (t u : string) :
  c ≠ a → String.eqb (String c t) (String a u) = false.
Proof.
  intros H. cbn [String.eqb]. destruct (Ascii.eqb_spec c a); [congruence|].
  reflexivity.
Qed.

Lemma prefix_head_ne (c a : ascii) (t u : string) :
  c ≠ a → HasPrefix (String c t) (String a u) = false.
Proof.
  intros H. unfold HasPrefix. cbn [String.prefix].
  destruct (ascii_dec a c); [congruence|reflexivity].
Qed.

Lemma prefix_head_eq (c : ascii) (t : string) :
  HasPrefix (String c t) (String c "") = true.
Proof.
  unfold HasPrefix. cbn [String.prefix].
  destruct (ascii_dec c c); [now destruct t|congruence].
Qed.

Lemma HasSuffix_cons_app (c : ascii) (s suf : string) :
  HasSuffix (String c (s +:+ suf)) suf = true.
Proof. rewrite <- app_cons. apply HasSuffix_app. Qed.

Lemma no_byte_cons (c a : ascii) (s : string) :
  no_byte c (String a s) = true ↔ a ≠ c ∧ no_byte c s = true.
Proof.
  unfold no_byte. cbn [list_ascii_of_string forallb].
  rewrite andb_true_iff, negb_true_iff.
  destruct (Ascii.eqb_spec a c); intuition congruence.
Qed.

Lemma prefix_single (c a : ascii) (s : string) :
  String.prefix (String c "") (String a s) = Ascii.eqb a c.
Proof.
  cbn [String.prefix]. destruct (ascii_dec c a) as [->|H].
  - rewrite Ascii.eqb_refl. now destruct s.
  - destruct (Ascii.eqb_spec a c); congruence.
Qed.

Lemma Index_from_no_byte (c : ascii) (s : string) (k : Z) :
  no_byte c s = true → Index_from s (String c "") k = -1.
Proof.
  revert k. induction s as [|a s IH]; intros k H; [reflexivity|].
  apply no_byte_cons in H as [Hne H]. cbn [Index_from].
  rewrite prefix_single. destruct (Ascii.eqb_spec a c); [congruence|].
  now apply IH.
Qed.

Lemma Index_from_first (c : ascii) (n m : string) (k : Z) :
  no_byte c n = true →
  Index_from (n +:+ String c m) (String c "") k = k + len n.
Proof.
  revert k. induction n as [|a n IH]; intros k H.
  - rewrite app_nil_l, len_empty. cbn [Index_from].
    rewrite prefix_single, Ascii.eqb_refl. lia.
  - apply no_byte_cons in H as [Hne H]. rewrite app_cons, len_String.
    cbn [Index_from]. rewrite prefix_single.
    destruct (Ascii.eqb_spec a c); [congruence|]. rewrite IH by assumption.
    lia.
Qed.

Lemma Split_go_no_byte (c : ascii) (s piece : string) :
  no_byte c s = true → Split_go s (String c "") 0 piece = [piece +:+ s].
Proof.
  revert piece. induction s as [|a s IH]; intros piece H.
  - now rewrite app_empty_r.
  - apply no_byte_cons in H as [Hne H]. cbn [Split_go].
    rewrite prefix_single. destruct (Ascii.eqb_spec a c); [congruence|].
    rewrite IH by assumption. rewrite app_assoc_s, app_cons, app_nil_l.
    reflexivity.
Qed.

Lemma Split_go_first (c : ascii) (n m piece : string) :
  no_byte c n = true →
  Split_go (n +:+ String c m) (String c "") 0 piece
  = (piece +:+ n) :: Split_go m (String c "") 0 "".
Proof.
  revert piece. induction n as [|a n IH]; intros piece H.
  - rewrite app_nil_l, app_empty_r. cbn [Split_go].
    rewrite prefix_single, Ascii.eqb_refl. reflexivity.
  - apply no_byte_cons in H as [Hne H]. rewrite app_cons. cbn [Split_go].
    rewrite prefix_single. destruct (Ascii.eqb_spec a c); [congruence|].
    rewrite IH by assumption. rewrite app_assoc_s, app_cons, app_nil_l.
    reflexivity.
Qed.

(** A token [{content}] reaches the repetition case of every explainer,
    which reads [content] out of it. *)
Lemma explain_reaches_brace (d : Dialect) (content : string) :
  explain d (String "{" (content +:+ "}"))
  = explain_brace (String "{" (content +:+ "}")).
Proof.
  destruct d; cbn [explain];
    [unfold GoFormat.ExplainToken | unfold PcreFormat.ExplainToken
    | unfold PosixFormat.ExplainToken | unfold JsFormat.ExplainToken
    | unfold PythonFormat.ExplainToken];
    unfold backslash_s;
    rewrite ?eqb_head_ne by discriminate;
    rewrite ?prefix_head_ne by discriminate;
    cbn [andb orb];
    now rewrite prefix_head_eq, HasSuffix_cons_app.
Qed.

Lemma brace_content (content : string) :
  slice (String "{" (content +:+ "}")) 1
        (len (String "{" (content +:+ "}")) - 1) = Ok content.
Proof.
  pose proof (len_nonneg content).
  assert (E : len (String "{" (content +:+ "}")) = 1 + (len content + 1))
    by now rewrite len_String, len_app.
  rewrite E. rewrite slice_ok by lia. f_equal.
  replace (1 + (len content + 1) - 1) with (len "{" + len content)
    by (change (len "{") with 1; lia).
  change 1 with (len "{") at 1.
  change (String "{" (content +:+ "}")) with ("{" +:+ content +:+ "}").
  apply sub_app_mid.
Qed.

(** X9: in every dialect a repetition token [{n}] whose content holds no
    comma is explained as "exactly [n] occurrences", whatever [n] is: the
    content is copied as it stands and is not checked to be a number. *)
Theorem explain_repetition_exactly (d : Dialect) (n : string) :
  no_byte "," n = true →
  explain d ("{" +:+ n +:+ "}")
  = Ok ("Matches exactly " +:+ n +:+ " occurrences of the preceding element").
Proof.
  intros Hn. change ("{" +:+ n +:+ "}") with (String "{" (n +:+ "}")).
  rewrite explain_reaches_brace. unfold explain_brace.
  rewrite brace_content. cbn [bind]. unfold Contains, Index.
  rewrite Index_from_no_byte by assumption. reflexivity.
Qed.

Lemma explain_repetition_exactly_witness :
  explain Posix "{3}"
  = Ok "Matches exactly 3 occurrences of the preceding element".
Proof. apply (explain_repetition_exactly Posix "3"). reflexivity. Defined.

(** X10: in every dialect a repetition token [{n,m}] with exactly one comma
    is explained as "at least [n]" when nothing follows the comma and as
    "between [n] and [m]" otherwise; an empty [n], as in [{,5}], is
    accepted and gives "between  and 5". *)
Theorem explain_repetition_range (d : Dialect) (n m : string) :
  no_byte "," n = true → no_byte "," m = true →
  explain d ("{" +:+ n +:+ "," +:+ m +:+ "}")
  = Ok (if String.eqb m "" then
          "Matches at least " +:+ n +:+ " occurrences of the preceding element"
        else
          "Matches between " +:+ n +:+ " and " +:+ m
          +:+ " occurrences of the preceding element").
Proof.
  intros Hn Hm.
  replace ("{" +:+ n +:+ "," +:+ m +:+ "}")
    with (String "{" ((n +:+ String "," m) +:+ "}"))
    by (rewrite app_assoc_s; reflexivity).
  rewrite explain_reaches_brace. unfold explain_brace.
  rewrite brace_content. cbn [bind]. unfold Contains, Index, Split.
  rewrite Index_from_first by assumption.
  pose proof (len_nonneg n).
  destruct (Z.leb_spec 0 (0 + len n)); [|lia].
  rewrite Split_go_first, Split_go_no_byte by assumption.
  rewrite !app_nil_l. now destruct (String.eqb m "").
Qed.

Lemma explain_repetition_range_witness :
  explain Ecma "{2,}"
  = Ok "Matches at least 2 occurrences of the preceding element".
Proof.
  apply (explain_repetition_range Ecma "2" ""); reflexivity.
Defined.

(** *** Tokens that reach the default case of the explainers *)

Lemma is_special_ne (c : ascii) :
  is_special c = false →
  c ≠ "["%char ∧ c ≠ backslash ∧ c ≠ "{"%char ∧ c ≠ "*"%char ∧ c ≠ "+"%char
  ∧ c ≠ "?"%char ∧ c ≠ "("%char ∧ c ≠ ")"%char ∧ c ≠ "|"%char
  ∧ c ≠ "^"%char ∧ c ≠ "$"%char ∧ c ≠ "."%char.
Proof.
  intros H. apply is_special_false in H
    as (H1 & H2 & H3 & H4 & H5 & H6 & H7 & H8 & H9 & H10).
  unfold is_quantifier in H4.
  apply orb_false_elim in H4 as [H4 H4c].
  apply orb_false_elim in H4 as [H4a H4b].
  repeat split; now apply Ascii.eqb_neq.
Qed.

Lemma Python_no_raw_marker (c : ascii) (t : string) :
  has_envelope Python (String c t) = false →
  HasPrefix (String c t) "r'" || HasPrefix (String c t) (String "r" (String dquote ""))
  || HasPrefix (String c t) "R'" || HasPrefix (String c t) (String "R" (String dquote ""))
  = false.
Proof.
  unfold has_envelope, HasPrefix. destruct t as [|c1 t].
  - intros _. cbn [String.prefix].
    destruct (ascii_dec "r" c); destruct (ascii_dec "R" c); reflexivity.
  - cbn [String.prefix]. intros H.
    destruct (ascii_dec "r" c) as [E1|E1];
      destruct (ascii_dec "R" c) as [E2|E2];
      destruct (ascii_dec "'" c1) as [E3|E3];
      destruct (ascii_dec dquote c1) as [E4|E4];
      cbn [orb]; try reflexivity; subst; try discriminate;
      vm_compute in H; discriminate H.
Qed.

(** X11: a token whose first byte is no metacharacter and which does not
    begin with the dialect's envelope marker (the slash of ECMA, the raw
    string marker of Python) is explained by the default case, as a
    literal character or string. *)
Theorem explain_plain_token (d : Dialect) (c : ascii) (t : string) :
  is_special c = false → has_envelope d (String c t) = false →
  explain d (String c t) = Ok (explain_literal (String c t)).
Proof.
  intros Hc Henv.
  apply is_special_ne in Hc
    as (? & ? & ? & ? & ? & ? & ? & ? & ? & ? & ? & ?).
  destruct d; cbn [explain];
    [unfold GoFormat.ExplainToken | unfold PcreFormat.ExplainToken
    | unfold PosixFormat.ExplainToken
    | unfold JsFormat.ExplainToken; cbn [has_envelope] in Henv; rewrite Henv
    | unfold PythonFormat.ExplainToken;
      rewrite (Python_no_raw_marker _ _ Henv)];
    unfold backslash_s;
    rewrite ?eqb_head_ne by assumption;
    rewrite ?prefix_head_ne by assumption;
    reflexivity.
Qed.

Lemma explain_plain_token_witness :
  explain Python "abc" = Ok "Matches the string 'abc' literally".
Proof. apply (explain_plain_token Python "a" "bc"); reflexivity. Defined.

(** *** The registry and package [utils] *)

Lemma valid_format_names (format : string) :
  utils.IsValidFormat format = true
  ↔ format ∈ ["go"; "pcre"; "posix"; "js"; "python"].
Proof.
  unfold utils.IsValidFormat, utils.validFormats, map_index.
  rewrite !elem_of_cons, elem_of_nil.
  destruct (decide (format = "go")) as [->|H1]; [vm_compute; tauto|].
  destruct (decide (format = "pcre")) as [->|H2]; [vm_compute; tauto|].
  destruct (decide (format = "posix")) as [->|H3]; [vm_compute; tauto|].
  destruct (decide (format = "js")) as [->|H4]; [vm_compute; tauto|].
  destruct (decide (format = "python")) as [->|H5]; [vm_compute; tauto|].
  rewrite !lookup_insert_ne by congruence.
  rewrite lookup_singleton_ne by congruence. cbn [default]. 
  split; [discriminate|tauto].
Qed.

Lemma GetFormat_unknown (format : string) :
  format ∉ ["go"; "pcre"; "posix"; "js"; "python"] →
  GetFormat format = Baseline.
Proof.
  rewrite !not_elem_of_cons. intros (H1 & H2 & H3 & H4 & H5 & _).
  unfold GetFormat.
  repeat match goal with
         | |- (if String.eqb ?a ?b then _ else _) = _ =>
           destruct (String.eqb_spec a b); [congruence|]
         end.
  reflexivity.
Qed.

(** X12: [utils.IsValidFormat] accepts exactly the five names that
    [GetFormat] knows, and for each of them [utils.GetFormatName] returns the
    [Name()] of the format that [GetFormat] builds.  For any other name the
    two disagree: [GetFormatName] answers ["Unknown Format"] while
    [GetFormat] silently builds the Go format. *)
Theorem format_names_agree (format : string) :
  (utils.IsValidFormat format = true
   → utils.GetFormatName format = name (GetFormat format))
  ∧ (utils.IsValidFormat format = false
     → utils.GetFormatName format = "Unknown Format"
       ∧ GetFormat format = Baseline
       ∧ name (GetFormat format) = "Go Regexp").
Proof.
  split.
  - intros H. apply valid_format_names in H.
    rewrite !elem_of_cons, elem_of_nil in H.
    destruct H as [-> | [-> | [-> | [-> | [-> | []]]]]]; vm_compute;
      reflexivity.
  - intros H.
    assert (Hout : format ∉ ["go"; "pcre"; "posix"; "js"; "python"]).
    { intros Hin. apply valid_format_names in Hin. congruence. }
    rewrite (GetFormat_unknown _ Hout). repeat split.
    unfold utils.GetFormatName, utils.formatNames.
    rewrite !not_elem_of_cons in Hout.
    destruct Hout as (H1 & H2 & H3 & H4 & H5 & _).
    rewrite !lookup_insert_ne by congruence.
    rewrite lookup_singleton_ne by congruence. reflexivity.
Qed.

Lemma format_names_agree_witness :
  utils.GetFormatName "js" = name (GetFormat "js")
  ∧ utils.GetFormatName "ruby" = "Unknown Format"
  ∧ name (GetFormat "ruby") = "Go Regexp".
Proof.
  split.
  - apply (proj1 (format_names_agree "js")). reflexivity.
  - pose proof (proj2 (format_names_agree "ruby") eq_refl) as (H1 & _ & H3).
    exact (conj H1 H3).
Defined.

(** *** How the feature tables relate *)

Lemma hasFeature_unknown (d : Dialect) (key : string) :
  key ∉ feature_keys → hasFeature d key = false.
Proof.
  intros Hkey.
  destruct d; cbn [hasFeature];
    [ unfold GoFormat.HasFeature, GoFormat.supportedFeatures
    | unfold PcreFormat.HasFeature, PcreFormat.supportedFeatures
    | unfold PosixFormat.HasFeature, PosixFormat.supportedFeatures
    | unfold JsFormat.HasFeature, JsFormat.supportedFeatures
    | unfold PythonFormat.HasFeature, PythonFormat.supportedFeatures ];
    unknown_key Hkey.
Qed.

(** A property of the tables that holds at the ten keys holds at every
    key, the tables being [false] elsewhere. *)
Lemma feature_key_cases (P : string → Prop) :
  Forall P feature_keys → (∀ key, key ∉ feature_keys → P key) → ∀ key, P key.
Proof.
  intros Hin Hout key. destruct (decide (key ∈ feature_keys)) as [H|H].
  - rewrite Forall_forall in Hin. now apply Hin.
  - now apply Hout.
Qed.

(** X13: PCRE supports every feature that any dialect supports, and the
    one feature POSIX supports is supported by every dialect. *)
Theorem feature_tables_ordered (d : Dialect) (key : string) :
  (hasFeature d key = true → hasFeature Pcre key = true)
  ∧ (hasFeature Posix key = true → hasFeature d key = true).
Proof.
  revert key. apply feature_key_cases.
  - unfold feature_keys. repeat constructor; destruct d; vm_compute; auto.
  - intros key Hkey. rewrite !hasFeature_unknown by assumption.
    split; discriminate.
Qed.

Lemma feature_tables_ordered_witness :
  hasFeature Pcre FeatureLookahead = true
  ∧ hasFeature Ecma FeatureBackreference = true.
Proof.
  split.
  - apply (proj1 (feature_tables_ordered Python FeatureLookahead)).
    reflexivity.
  - apply (proj2 (feature_tables_ordered Ecma FeatureBackreference)).
    reflexivity.
Defined.

(** X14: at every key, known or not, the ECMA and Python tables agree, the
    baseline table is the ECMA table without lookbehind, and POSIX supports
    backreferences and nothing else. *)
Theorem feature_tables_related (key : string) :
  hasFeature Ecma key = hasFeature Python key
  ∧ hasFeature Baseline key
    = hasFeature Ecma key && negb (String.eqb key FeatureLookbehind)
  ∧ hasFeature Posix key = String.eqb key FeatureBackreference.
Proof.
  revert key. apply feature_key_cases.
  - unfold feature_keys. repeat constructor; vm_compute; reflexivity.
  - intros key Hkey. rewrite !hasFeature_unknown by assumption.
    repeat split.
    unfold feature_keys in Hkey. rewrite !not_elem_of_cons in Hkey.
    destruct Hkey as (_ & _ & _ & _ & _ & _ & _ & _ & H & _).
    symmetry. now apply String.eqb_neq.
Qed.

(** *** The tokens emitted before the loop stay in front *)

Lemma idx_prepend (pre : list string) (s : st) : idx (prepend pre s) = idx s.
Proof. reflexivity. Qed.

Lemma flush_prepend (pre : list string) (s : st) :
  flush (prepend pre s) = prepend pre (flush s).
Proof.
  unfold flush, prepend. cbn [idx tokens cur].
  destruct (0 <? len (cur s)); cbn [idx tokens cur]; [|reflexivity].
  now rewrite app_assoc.
Qed.

Lemma emit_prepend (pre : list string) (tok : string) (s : st) :
  emit tok (prepend pre s) = prepend pre (emit tok s).
Proof. unfold emit, prepend. cbn [idx tokens cur]. now rewrite app_assoc. Qed.

Lemma goto_prepend (pre : list string) (j : Z) (s : st) :
  goto j (prepend pre s) = prepend pre (goto j s).
Proof. reflexivity. Qed.

Lemma write_byte_prepend (pre : list string) (c : ascii) (s : st) :
  write_byte c (prepend pre s) = prepend pre (write_byte c s).
Proof. reflexivity. Qed.

Lemma header_prepend (pre : list string) (hdr : string) (n : Z) (s : st) :
  header hdr n (prepend pre s) = prepend pre (header hdr n s).
Proof. unfold header. now rewrite idx_prepend, emit_prepend, goto_prepend. Qed.

Create Rewrite HintDb prepend.
#[local] Hint Rewrite idx_prepend flush_prepend emit_prepend goto_prepend
  write_byte_prepend header_prepend : prepend.

(** Splits on the next test or call of the goal, once the state has been
    brought to the form [prepend pre _] on the left. *)
Ltac prepend_step :=
  autorewrite with prepend; cbv zeta;
  match goal with
  | |- context [if ?b then _ else _] =>
    destruct b; cbn [bind on_result prepend_flow]
  | |- context [match ?o with Some _ => _ | None => _ end] =>
    destruct o; cbn [bind on_result prepend_flow]
  | |- context [bind ?m _] =>
    lazymatch m with
    | bind _ _ => fail
    | Ok _ => fail
    | _ => destruct m; cbn [bind on_result prepend_flow]
    end
  end.

Ltac prepend_cases :=
  cbn [bind on_result prepend_flow]; repeat prepend_step;
  autorewrite with prepend; try reflexivity.

Lemma appends_only_seq (b1 b2 : block) :
  appends_only b1 → appends_only b2 → appends_only (b1 ;> b2).
Proof.
  intros H1 H2 pre p c s. unfold seq_block. rewrite H1.
  destruct (b1 p c s) as [[s'|s']| |]; cbn [bind on_result prepend_flow];
    try reflexivity.
  apply H2.
Qed.

Lemma appends_only_char_class : appends_only char_class_block.
Proof.
  intros pre p c s. unfold char_class_block, class_scan, on_result.
  prepend_cases.
Qed.

Lemma appends_only_escape : appends_only escape_block.
Proof. intros pre p c s. unfold escape_block, on_result. prepend_cases. Qed.

Lemma appends_only_brace : appends_only brace_block.
Proof. intros pre p c s. unfold brace_block, on_result. prepend_cases. Qed.

Lemma appends_only_suffix_quantifier (suffix : ascii) :
  appends_only (suffix_quantifier_block suffix).
Proof.
  intros pre p c s. unfold suffix_quantifier_block, on_result. prepend_cases.
Qed.

Lemma appends_only_single (cond : ascii → bool) :
  appends_only (single_block cond).
Proof. intros pre p c s. unfold single_block, on_result. prepend_cases. Qed.

Lemma appends_only_tail : appends_only tail_blocks.
Proof.
  unfold tail_blocks, close_paren_block, alternation_block, anchor_block,
    dot_block.
  repeat (apply appends_only_seq; [apply appends_only_single|]).
  intros pre p c s. reflexivity.
Qed.

Lemma named_group_prepend (pre : list string) (p : string) (c : ascii)
  (from : Z) (s : st) :
  named_group p c from (prepend pre s)
  = on_result (prepend pre) (named_group p c from s).
Proof. unfold named_group, on_result. prepend_cases. Qed.

Lemma angle_case_prepend (pre : list string) (p : string) (c : ascii) (s : st) :
  PcreFormat.angle_case p c (prepend pre s)
  = on_result (prepend pre) (PcreFormat.angle_case p c s).
Proof.
  unfold PcreFormat.angle_case. autorewrite with prepend. cbv zeta.
  repeat match goal with
         | |- context [named_group ?p ?c ?f (prepend ?pre ?s)] =>
           rewrite (named_group_prepend pre p c f s)
         end.
  unfold on_result. prepend_cases.
Qed.

Ltac fold_scans :=
  repeat match goal with
         | |- context [named_group ?p ?c ?f (prepend ?pre ?s)] =>
           rewrite (named_group_prepend pre p c f s)
         | |- context [PcreFormat.angle_case ?p ?c (prepend ?pre ?s)] =>
           rewrite (angle_case_prepend pre p c s)
         end.

Lemma appends_only_Js_group : appends_only JsFormat.group_block.
Proof.
  intros pre p c s. unfold JsFormat.group_block.
  destruct (Ascii.eqb c "("); [|reflexivity].
  autorewrite with prepend. cbv zeta. autorewrite with prepend.
  fold_scans. unfold on_result. prepend_cases.
Qed.

Lemma appends_only_Js_body : appends_only JsFormat.body.
Proof.
  unfold JsFormat.body.
  repeat first
    [ apply appends_only_tail
    | apply appends_only_seq ];
    auto using appends_only_char_class, appends_only_escape,
      appends_only_brace, appends_only_suffix_quantifier,
      appends_only_Js_group.
Qed.

Lemma appends_only_Python_escape : appends_only PythonFormat.escape_block.
Proof.
  intros pre p c s. unfold PythonFormat.escape_block, on_result.
  prepend_cases.
Qed.

Lemma p_case_prepend (pre : list string) (p : string) (s : st) :
  PythonFormat.p_case p (prepend pre s)
  = on_result (option_map (prepend pre)) (PythonFormat.p_case p s).
Proof.
  unfold PythonFormat.p_case, on_result. prepend_cases.
Qed.

Lemma appends_only_Python_group : appends_only PythonFormat.group_block.
Proof.
  intros pre p c s. unfold PythonFormat.group_block.
  destruct (Ascii.eqb c "("); [|reflexivity].
  autorewrite with prepend. cbv zeta. autorewrite with prepend.
  fold_scans.
  repeat match goal with
         | |- context [PythonFormat.p_case ?p (prepend ?pre ?s)] =>
           rewrite (p_case_prepend pre p s)
         end.
  unfold on_result.
  destruct (PythonFormat.p_case p (flush s)) as [[s'|]| |];
    cbn [bind option_map]; prepend_cases.
Qed.

Lemma appends_only_Python_body : appends_only PythonFormat.body.
Proof.
  unfold PythonFormat.body.
  repeat first
    [ apply appends_only_tail
    | apply appends_only_seq ];
    auto using appends_only_char_class, appends_only_Python_escape,
      appends_only_brace, appends_only_suffix_quantifier,
      appends_only_Python_group.
Qed.

(** A loop whose body only appends returns, when entered with the tokens
    [pre], these tokens followed by what it returns when entered with
    none. *)
Lemma tokenize_loop_prepend (body : block) (pre : list string) (p : string) :
  appends_only body →
  ∀ (fuel : nat) (s : st),
    tokenize_loop body fuel p (prepend pre s)
    = on_result (app pre) (tokenize_loop body fuel p s).
Proof.
  intros Hbody fuel. induction fuel as [|fuel IH]; intros s;
    cbn [tokenize_loop]; rewrite idx_prepend;
    destruct (idx s <? len p).
  - reflexivity.
  - rewrite flush_prepend. reflexivity.
  - unfold iteration. rewrite idx_prepend.
    destruct (index p (idx s)) as [c| |]; cbn [bind on_result];
      try reflexivity.
    rewrite Hbody.
    destruct (body p c s) as [[s'|s']| |];
      cbn [bind on_result prepend_flow]; try reflexivity;
      rewrite idx_prepend, goto_prepend; apply IH.
  - rewrite flush_prepend. reflexivity.
Qed.

Lemma tokenize_loop_from (body : block) (pre : list string) (p : string) :
  appends_only body →
  tokenize_loop body (String.length p) p (mkSt 0 pre "")
  = on_result (app pre)
      (tokenize_loop body (String.length p) p (mkSt 0 [] "")).
Proof.
  intros Hbody. rewrite <- (tokenize_loop_prepend body pre p Hbody).
  unfold prepend. cbn [idx tokens cur]. now rewrite app_nil_r.
Qed.

(** *** The envelopes of ECMA and Python *)

Lemma LastIndex_from_no_byte (c : ascii) (s : string) (k last : Z) :
  no_byte c s = true → LastIndex_from s (String c "") k last = last.
Proof.
  revert k last. induction s as [|a s IH]; intros k last H; [reflexivity|].
  apply no_byte_cons in H as [Hne H]. cbn [LastIndex_from].
  rewrite prefix_single. destruct (Ascii.eqb_spec a c); [congruence|].
  now apply IH.
Qed.

Lemma LastIndex_from_last (c : ascii) (a f : string) (k last : Z) :
  no_byte c f = true →
  LastIndex_from (a +:+ String c f) (String c "") k last = k + len a.
Proof.
  intros Hf. revert k last. induction a as [|x a IH]; intros k last.
  - rewrite app_nil_l, len_empty. cbn [LastIndex_from].
    rewrite prefix_single, Ascii.eqb_refl.
    rewrite LastIndex_from_no_byte by assumption. lia.
  - rewrite app_cons, len_String. cbn [LastIndex_from]. rewrite IH. lia.
Qed.

Lemma index_app_at (a f : string) (c : ascii) :
  index (a +:+ String c f) (len a) = Ok c.
Proof.
  induction a as [|x a IH].
  - rewrite app_nil_l, len_empty. apply index_String_0.
  - rewrite app_cons, len_String. pose proof (len_nonneg a).
    replace (1 + len a) with (len a + 1) by lia.
    now rewrite index_String_S.
Qed.

Lemma sub_app_tail (a b : string) : sub (a +:+ b) (len a) (len a + len b) = b.
Proof.
  rewrite <- (app_empty_r b) at 1. apply sub_app_mid.
Qed.

(** What the pre-pass of js.go makes of [/body/flags]. *)
Lemma Js_strip_envelope (body flags : string) :
  no_byte "/" flags = true → body ≠ "" ∨ flags ≠ "" →
  JsFormat.strip ("/" +:+ body +:+ "/" +:+ flags)
  = Ok (if String.eqb flags "" then [] else ["/" +:+ flags], body).
Proof.
  intros Hf Hne.
  pose proof (len_nonneg body) as Hb. pose proof (len_nonneg flags) as Hfl.
  assert (Hlen : len ("/" +:+ body +:+ "/" +:+ flags)
                 = 1 + len body + 1 + len flags).
  { rewrite !len_app. change (len "/") with 1. lia. }
  assert (Hgt : 2 < len ("/" +:+ body +:+ "/" +:+ flags)).
  { rewrite Hlen. destruct Hne as [H|H]; apply nonempty_len in H; lia. }
  assert (Hlast : LastIndex ("/" +:+ body +:+ "/" +:+ flags) "/"
                  = 1 + len body).
  { unfold LastIndex.
    change ("/" +:+ body +:+ "/" +:+ flags)
      with (String "/" (body +:+ String "/" flags)).
    cbn [LastIndex_from]. rewrite LastIndex_from_last by assumption. lia. }
  assert (Hbody : sub ("/" +:+ body +:+ "/" +:+ flags) 1 (1 + len body)
                  = body).
  { change 1 with (len "/") at 1 2. apply sub_app_mid. }
  unfold JsFormat.strip.
  destruct (Z.gtb_spec (len ("/" +:+ body +:+ "/" +:+ flags)) 2); [|lia].
  cbn [and_then bind].
  assert (H0 : index ("/" +:+ body +:+ "/" +:+ flags) 0 = Ok "/"%char)
    by apply index_String_0.
  rewrite !(index_eq_ok _ _ _ _ H0). cbn [bind Ascii.eqb Bool.eqb].
  rewrite Hlast. destruct (Z.gtb_spec (1 + len body) 0); [|lia].
  cbn [andb]. rewrite Hlen.
  destruct (String.eqb_spec flags "") as [->|Hflags].
  - rewrite len_empty.
    destruct (Z.ltb_spec (1 + len body) (1 + len body + 1 + 0 - 1)); [lia|].
    assert (Hend : index ("/" +:+ body +:+ "/" +:+ "")
                     (1 + len body + 1 + 0 - 1) = Ok "/"%char).
    { replace (1 + len body + 1 + 0 - 1) with (len ("/" +:+ body))
        by (rewrite len_app; change (len "/") with 1; lia).
      rewrite <- app_assoc_s. apply index_app_at. }
    rewrite (index_eq_ok _ _ _ _ Hend). cbn [bind Ascii.eqb Bool.eqb].
    rewrite slice_ok by lia.
    replace (1 + len body + 1 + 0 - 1) with (1 + len body) by lia.
    now rewrite Hbody.
  - apply nonempty_len in Hflags.
    destruct (Z.ltb_spec (1 + len body) (1 + len body + 1 + len flags - 1));
      [|lia].
    rewrite slice_from_ok by lia. rewrite slice_ok by lia. cbn [bind].
    rewrite Hlen, Hbody.
    assert (Hfs : sub ("/" +:+ body +:+ "/" +:+ flags) (1 + len body + 1)
                    (1 + len body + 1 + len flags) = flags).
    { replace ("/" +:+ body +:+ "/" +:+ flags)
        with (("/" +:+ body +:+ "/") +:+ flags)
        by now rewrite !app_assoc_s.
      replace (1 + len body + 1) with (len ("/" +:+ body +:+ "/"))
        by (rewrite !len_app; change (len "/") with 1; lia).
      apply sub_app_tail. }
    rewrite Hfs. destruct (Z.gtb_spec (len flags) 0); [reflexivity|lia].
Qed.

Lemma Js_strip_none (pattern : string) :
  HasPrefix pattern "/" = false → JsFormat.strip pattern = Ok ([], pattern).
Proof.
  intros H. unfold JsFormat.strip.
  destruct (Z.gtb_spec (len pattern) 2); cbn [and_then bind]; [|reflexivity].
  destruct pattern as [|c0 p]; [rewrite len_empty in *; lia|].
  unfold HasPrefix in H. rewrite prefix_slash in H.
  rewrite (index_eq_ok _ _ _ _ (index_String_0 c0 p)), H. reflexivity.
Qed.

(** X15: on a pattern [/body/flags], where [flags] holds no slash and
    [body] does not itself begin with one, the ECMA tokenizer returns the
    marker ["/" + flags], when there are flags, followed by exactly the
    tokens of [body] tokenized on its own: the delimiters are dropped and
    the marker does not change how the body is split. *)
Theorem Js_tokenize_envelope (body flags : string) :
  no_byte "/" flags = true → HasPrefix body "/" = false →
  body ≠ "" ∨ flags ≠ "" →
  JsFormat.TokenizeRegex ("/" +:+ body +:+ "/" +:+ flags)
  = let* toks := JsFormat.TokenizeRegex body in
    Ok ((if String.eqb flags "" then [] else ["/" +:+ flags]) ++ toks).
Proof.
  intros Hf Hb Hne. unfold JsFormat.TokenizeRegex.
  rewrite (Js_strip_envelope body flags Hf Hne), (Js_strip_none body Hb).
  cbn [bind fst snd].
  rewrite (tokenize_loop_from JsFormat.body _ body appends_only_Js_body).
  reflexivity.
Qed.

Lemma Js_tokenize_envelope_witness :
  JsFormat.TokenizeRegex "/a+?/gi" = Ok ["/gi"; "a"; "+?"].
Proof.
  apply (Js_tokenize_envelope "a+?" "gi"); [reflexivity|reflexivity|].
  left. discriminate.
Defined.


Lemma Python_strip_raw_marker (r q : ascii) (rest : string) :
  r = "r"%char ∨ r = "R"%char → q = "'"%char ∨ q = dquote →
  PythonFormat.strip_raw (String r (String q rest))
  = Ok ([String r (String q "")], rest).
Proof.
  intros Hr Hq. unfold PythonFormat.strip_raw.
  rewrite !len_String. pose proof (len_nonneg rest).
  destruct (Z.gtb_spec (1 + (1 + len rest)) 0); [|lia].
  destruct (Z.gtb_spec (1 + (1 + len rest)) 1); [|lia].
  assert (Hi0 : index (String r (String q rest)) 0 = Ok r)
    by apply index_String_0.
  assert (Hi1 : index (String r (String q rest)) 1 = Ok q).
  { change 1 with (0 + 1). rewrite index_String_S by lia.
    apply index_String_0. }
  rewrite !(index_eq_ok _ _ _ _ Hi0), !(index_eq_ok _ _ _ _ Hi1).
  rewrite slice_ok, slice_from_ok by (rewrite ?len_String; lia).
  rewrite !len_String.
  replace (sub (String r (String q rest)) 0 2) with (String r (String q ""))
    by (symmetry; apply (sub_2 _ 0); assumption).
  replace (sub (String r (String q rest)) 2 (1 + (1 + len rest))) with rest.
  - destruct Hr as [-> | ->], Hq as [-> | ->]; reflexivity.
  - unfold sub. replace (Z.to_nat (1 + (1 + len rest) - 2))
      with (String.length rest) by (unfold len; lia).
    change (Z.to_nat 2) with 2%nat. cbn [String.substring].
    now rewrite substring_full.
Qed.

Lemma Python_strip_flags_prepend (pre : list string) (p : string) :
  PythonFormat.strip_flags pre p
  = let* r := PythonFormat.strip_flags [] p in Ok (pre ++ fst r, snd r).
Proof.
  unfold PythonFormat.strip_flags.
  repeat match goal with
         | |- context [if ?b then _ else _] => destruct b; cbn [bind fst snd]
         | |- context [bind ?m _] =>
           lazymatch m with
           | bind _ _ => fail
           | Ok _ => fail
           | _ => destruct m; cbn [bind fst snd]
           end
         end;
    rewrite ?app_nil_r; reflexivity.
Qed.

(** X16: the Python tokenizer splits a raw-string marker ([r'], [r"], [R'],
    [R"]) off the front as a token of its own and treats what follows, up
    to the end of the pattern and so including any closing quote, exactly
    as it treats that text given alone. *)
Theorem Python_tokenize_raw_marker (r q : ascii) (rest : string) :
  r = "r"%char ∨ r = "R"%char → q = "'"%char ∨ q = dquote →
  has_envelope Python rest = false →
  PythonFormat.TokenizeRegex (String r (String q rest))
  = let* toks := PythonFormat.TokenizeRegex rest in
    Ok (String r (String q "") :: toks).
Proof.
  intros Hr Hq Henv. unfold PythonFormat.TokenizeRegex, PythonFormat.strip.
  rewrite (Python_strip_raw_marker r q rest Hr Hq).
  rewrite (Python_strip_raw_none rest Henv). cbn [bind fst snd].
  rewrite Python_strip_flags_prepend.
  destruct (PythonFormat.strip_flags [] rest) as [[t p']| |];
    cbn [bind fst snd]; try reflexivity.
  rewrite (tokenize_loop_from PythonFormat.body ([String r (String q "")] ++ t)
             p' appends_only_Python_body).
  rewrite (tokenize_loop_from PythonFormat.body t p'
             appends_only_Python_body).
  destruct (tokenize_loop PythonFormat.body (String.length p') p'
              (mkSt 0 [] "")) as [l| |];
    cbn [on_result bind]; reflexivity.
Qed.

(** X16 on [r'\d+'], whose closing quote ends up as a literal token. *)
Lemma Python_tokenize_raw_marker_witness :
  PythonFormat.TokenizeRegex ("r'" +:+ backslash_s +:+ "d+'")
  = Ok ["r'"; backslash_s +:+ "d"; "+"; "'"].
Proof.
  apply (Python_tokenize_raw_marker "r" "'" (backslash_s +:+ "d+'"));
    [left; reflexivity | left; reflexivity | reflexivity].
Defined.

(** *** How the explainers read named-group tokens *)

Lemma eqb_app_empty (x y : string) (c : ascii) :
  String.eqb (x +:+ String c y) "" = false.
Proof. destruct x; [now rewrite app_nil_l|now rewrite app_cons]. Qed.

Lemma eqb_end_ne (x : string) (c a : ascii) :
  c ≠ a → String.eqb (x +:+ String c "") (String a "") = false.
Proof.
  intros H. destruct x as [|b x].
  - rewrite app_nil_l. now apply eqb_head_ne.
  - rewrite app_cons. cbn [String.eqb]. rewrite eqb_app_empty.
    apply andb_false_r.
Qed.

Lemma HasSuffix_app_last (a x : string) (c y : ascii) :
  HasSuffix (a +:+ x +:+ String c "") (String y "") = Ascii.eqb c y.
Proof. rewrite <- app_assoc_s. apply HasSuffix_last. Qed.

Lemma named_token_name (a name : string) (n : Z) :
  n = len a →
  slice (a +:+ name +:+ ">") n (len (a +:+ name +:+ ">") - 1) = Ok name.
Proof.
  intros ->. pose proof (len_nonneg a). pose proof (len_nonneg name).
  assert (E : len (a +:+ name +:+ ">") = len a + len name + 1).
  { rewrite !len_app. change (len ">") with 1. lia. }
  rewrite E, slice_ok by lia.
  replace (len a + len name + 1 - 1) with (len a + len name) by lia.
  now rewrite sub_app_mid.
Qed.

Lemma HasPrefix_cons (a b : ascii) (x s : string) :
  HasPrefix (String b s) (String a x) = Ascii.eqb a b && HasPrefix s x.
Proof.
  unfold HasPrefix. cbn [String.prefix].
  destruct (ascii_dec a b) as [->|H].
  - now rewrite Ascii.eqb_refl.
  - destruct (Ascii.eqb_spec a b); [congruence|reflexivity].
Qed.

Lemma HasPrefix_nil (s : string) : HasPrefix s "" = true.
Proof. now destruct s. Qed.

Ltac decide_tests :=
  cbn [String.eqb Ascii.eqb Bool.eqb andb orb negb];
  rewrite ?eqb_end_ne by discriminate;
  cbn [andb orb negb].

(** X17: the token [(?P<name>] is explained as the start of the named
    group [name] by the baseline, PCRE and Python explainers, whatever the
    name is; the ECMA and POSIX explainers have no case for it and describe
    it as literal text. *)
Theorem explain_P_named_group (d : Dialect) (name : string) :
  explain d ("(?P<" +:+ name +:+ ">")
  = Ok (match d with
        | Baseline | Pcre | Python =>
          "Start of a named capturing group called '" +:+ name +:+ "'"
        | Posix | Ecma => explain_literal ("(?P<" +:+ name +:+ ">")
        end).
Proof.
  pose proof (HasSuffix_app_last "(?P<" name ">" ">") as Hs.
  pose proof (HasSuffix_app_last "(?P<" name ">" ")") as Hs'.
  pose proof (named_token_name "(?P<" name 4 eq_refl) as Hn.
  change ("(?P<" +:+ name +:+ ">")
    with (String "(" (String "?" (String "P" (String "<" (name +:+ ">")))))
    in *.
  destruct d; cbn [explain];
    [unfold GoFormat.ExplainToken | unfold PcreFormat.ExplainToken
    | unfold PosixFormat.ExplainToken | unfold JsFormat.ExplainToken
    | unfold PythonFormat.ExplainToken];
    unfold backslash_s;
    rewrite ?Hs, ?Hs', ?HasPrefix_cons, ?HasPrefix_nil; decide_tests;
    rewrite ?Hn; reflexivity.
Qed.

(** X18: the token [(?<name>] is explained as the start of the named group
    [name] by the PCRE and ECMA explainers, provided it contains neither
    ["<?"] nor ["<!"], the two tests the code makes. *)
Theorem explain_angle_named_group (d : Dialect) (name : string) :
  d = Pcre ∨ d = Ecma →
  Contains ("(?<" +:+ name +:+ ">") "<?" = false →
  Contains ("(?<" +:+ name +:+ ">") "<!" = false →
  explain d ("(?<" +:+ name +:+ ">")
  = Ok ("Start of a named capturing group called '" +:+ name +:+ "'").
Proof.
  intros Hd Hq Hb.
  pose proof (HasSuffix_app_last "(?<" name ">" ">") as Hs.
  pose proof (named_token_name "(?<" name 3 eq_refl) as Hn.
  change ("(?<" +:+ name +:+ ">")
    with (String "(" (String "?" (String "<" (name +:+ ">")))) in *.
  destruct Hd as [-> | ->]; cbn [explain];
    [unfold PcreFormat.ExplainToken | unfold JsFormat.ExplainToken];
    unfold backslash_s;
    rewrite ?Hs, ?Hq, ?Hb, ?HasPrefix_cons, ?HasPrefix_nil; decide_tests;
    rewrite ?Hn; reflexivity.
Qed.

Lemma explain_angle_named_group_witness :
  explain Ecma "(?<year>"
  = Ok "Start of a named capturing group called 'year'".
Proof.
  apply (explain_angle_named_group Ecma "year"); [right| |]; reflexivity.
Defined.

(** The baseline, POSIX and Python explainers have no case for [(?<name>]
    and describe it as literal text. *)
Lemma explain_angle_group_literal (d : Dialect) (name : string) :
  d = Baseline ∨ d = Posix ∨ d = Python →
  explain d ("(?<" +:+ name +:+ ">")
  = Ok (explain_literal ("(?<" +:+ name +:+ ">")).
Proof.
  intros Hd.
  pose proof (HasSuffix_app_last "(?<" name ">" ")") as Hs.
  change ("(?<" +:+ name +:+ ">")
    with (String "(" (String "?" (String "<" (name +:+ ">")))) in *.
  destruct Hd as [-> | [-> | ->]]; cbn [explain];
    [unfold GoFormat.ExplainToken | unfold PosixFormat.ExplainToken
    | unfold PythonFormat.ExplainToken];
    unfold backslash_s;
    rewrite ?Hs, ?HasPrefix_cons, ?HasPrefix_nil; decide_tests;
    reflexivity.
Qed.

(** *** A token the Python tokenizer emits and its explainer does not know *)

Lemma IndexByte_from_first (c : ascii) (n m : string) (k : Z) :
  no_byte c n = true → IndexByte_from (n +:+ String c m) c k = k + len n.
Proof.
  revert k. induction n as [|a n IH]; intros k H.
  - rewrite app_nil_l, len_empty. cbn [IndexByte_from].
    rewrite Ascii.eqb_refl. lia.
  - apply no_byte_cons in H as [Hne H]. rewrite app_cons, len_String.
    cbn [IndexByte_from]. destruct (Ascii.eqb_spec a c); [congruence|].
    rewrite IH by assumption. lia.
Qed.

(** The first iteration of the Python loop on [(?<name>rest]. *)
Lemma Python_angle_first_iteration (name rest : string) :
  no_byte ">" name = true →
  HasPrefix name "=" = false → HasPrefix name "!" = false →
  PythonFormat.body ("(?<" +:+ name +:+ ">" +:+ rest) "("%char (mkSt 0 [] "")
  = Ok (Continue (mkSt (len name + 3) ["(?<" +:+ name +:+ ">"] "")).
Proof.
  intros Hname Heq Hbang.
  set (p := "(?<" +:+ name +:+ ">" +:+ rest).
  pose proof (len_nonneg name) as Hn. pose proof (len_nonneg rest) as Hr.
  assert (Hlen : len p = 3 + len name + 1 + len rest).
  { unfold p. rewrite !len_app. change (len "(?<") with 3.
    change (len ">") with 1. lia. }
  assert (Ep : p = String "(" (String "?" (String "<"
                                         (name +:+ ">" +:+ rest))))
    by reflexivity.
  assert (H1 : index p 1 = Ok "?"%char).
  { rewrite Ep. change 1 with (0 + 1). rewrite index_String_S by lia.
    apply index_String_0. }
  assert (H2 : index p 2 = Ok "<"%char).
  { rewrite Ep. change 2 with (0 + 1 + 1). rewrite !index_String_S by lia.
    apply index_String_0. }
  assert (H3 : ∃ c3, index p 3 = Ok c3
                     ∧ Ascii.eqb c3 "=" = false ∧ Ascii.eqb c3 "!" = false).
  { rewrite Ep. change 3 with (0 + 1 + 1 + 1).
    rewrite !index_String_S by lia.
    destruct name as [|c name].
    - exists ">"%char. rewrite app_nil_l. split; [apply index_String_0|].
      split; reflexivity.
    - exists c. rewrite app_cons. split; [apply index_String_0|].
      rewrite HasPrefix_cons, HasPrefix_nil, andb_true_r in Heq, Hbang.
      rewrite Ascii.eqb_sym, Heq, Ascii.eqb_sym, Hbang. split; reflexivity. }
  destruct H3 as (c3 & H3 & Hc3eq & Hc3bang).
  assert (Hrest : sub p 3 (len p) = name +:+ ">" +:+ rest).
  { rewrite Hlen. unfold p. change 3 with (len "(?<") at 1 2.
    replace (len "(?<" + len name + 1 + len rest)
      with (len "(?<" + len (name +:+ ">" +:+ rest))
      by (rewrite !len_app; change (len ">") with 1; lia).
    apply sub_app_tail. }
  assert (Htok : sub p 0 (len name + 3 + 1) = "(?<" +:+ name +:+ ">").
  { unfold p.
    replace ("(?<" +:+ name +:+ ">" +:+ rest)
      with ("" +:+ ("(?<" +:+ name +:+ ">") +:+ rest)
      by (rewrite app_nil_l, !app_assoc_s; reflexivity).
    replace (len name + 3 + 1) with (len "" + len ("(?<" +:+ name +:+ ">"))
      by (rewrite !len_app, len_empty; change (len "(?<") with 3;
          change (len ">") with 1; lia).
    change 0 with (len "") at 1. apply sub_app_mid. }
  set (s0 := mkSt 0 [] "").
  unfold PythonFormat.body, seq_block.
  replace (char_class_block p "("%char s0) with (Ok (Fall s0)) by reflexivity.
  cbn [bind].
  replace (PythonFormat.escape_block p "("%char s0) with (Ok (Fall s0))
    by reflexivity.
  cbn [bind].
  replace (brace_block p "("%char s0) with (Ok (Fall s0)) by reflexivity.
  cbn [bind].
  replace (suffix_quantifier_block "?" p "("%char s0) with (Ok (Fall s0))
    by reflexivity.
  cbn [bind].
  unfold PythonFormat.group_block. rewrite Ascii.eqb_refl.
  change (flush s0) with s0. cbv zeta. change (idx s0) with 0.
  destruct (Z.ltb_spec (0 + 2) (len p)); [|lia]. cbn [and_then bind].
  rewrite (index_eq_ok _ _ _ _ H1). cbn [bind Ascii.eqb Bool.eqb].
  change (0 + 2) with 2. rewrite H2. cbn [bind Ascii.eqb Bool.eqb].
  unfold PcreFormat.angle_case. cbv zeta. change (idx s0) with 0.
  destruct (Z.ltb_spec (0 + 3) (len p)); [|lia].
  change (0 + 3) with 3. rewrite H3. cbn [bind]. rewrite Hc3eq, Hc3bang.
  unfold named_group. rewrite slice_from_ok by lia. cbn [bind].
  rewrite Hrest. change (">" +:+ rest) with (String ">" rest).
  unfold IndexByte.
  rewrite IndexByte_from_first by assumption.
  destruct (Z.geb_spec (0 + len name) 0); [|lia].
  unfold emit, goto, s0. cbn [idx tokens cur app].
  replace (0 + len name + 3) with (len name + 3) by lia.
  rewrite slice_ok by lia. cbn [bind]. rewrite Htok. reflexivity.
Qed.

Lemma Python_strip_angle (name rest : string) :
  PythonFormat.strip ("(?<" +:+ name +:+ ">" +:+ rest)
  = Ok ([], "(?<" +:+ name +:+ ">" +:+ rest).
Proof.
  set (p := "(?<" +:+ name +:+ ">" +:+ rest).
  pose proof (len_nonneg name) as Hn. pose proof (len_nonneg rest) as Hr.
  assert (Hlen : len p = 3 + len name + 1 + len rest).
  { unfold p. rewrite !len_app. change (len "(?<") with 3.
    change (len ">") with 1. lia. }
  assert (Ep : p = String "(" (String "?" (String "<"
                                         (name +:+ ">" +:+ rest))))
    by reflexivity.
  assert (H0 : index p 0 = Ok "("%char) by (rewrite Ep; apply index_String_0).
  assert (H1 : index p 1 = Ok "?"%char).
  { rewrite Ep. change 1 with (0 + 1). rewrite index_String_S by lia.
    apply index_String_0. }
  assert (H2 : index p 2 = Ok "<"%char).
  { rewrite Ep. change 2 with (0 + 1 + 1). rewrite !index_String_S by lia.
    apply index_String_0. }
  unfold PythonFormat.strip.
  rewrite (Python_strip_raw_none p) by (rewrite Ep; reflexivity).
  cbn [bind fst snd]. unfold PythonFormat.strip_flags.
  destruct (Z.gtb_spec (len p) 2); [|lia]. cbn [and_then bind].
  rewrite (index_eq_ok _ _ _ _ H0), (index_eq_ok _ _ _ _ H1).
  cbn [bind Ascii.eqb Bool.eqb].
  destruct (Z.gtb_spec (IndexByte p ")") 2); [|reflexivity].
  destruct (Z.to_nat (IndexByte p ")" - 2)) as [|n] eqn:E; [lia|].
  cbn [PythonFormat.all_flags]. rewrite H2. reflexivity.
Qed.

(** X19: on a pattern that begins with [(?<name>], where [name] holds no
    ['>'] and does not begin with ['='] or ['!'], the Python tokenizer
    emits [(?<name>] as its first token; the Python explainer has no case
    for that token and describes it as a literal string. *)
Theorem Python_angle_group_unexplained (name rest : string) :
  no_byte ">" name = true →
  HasPrefix name "=" = false → HasPrefix name "!" = false →
  (∃ toks, PythonFormat.TokenizeRegex ("(?<" +:+ name +:+ ">" +:+ rest)
           = Ok (("(?<" +:+ name +:+ ">") :: toks))
  ∧ PythonFormat.ExplainToken ("(?<" +:+ name +:+ ">")
    = Ok ("Matches the string '(?<" +:+ name +:+ ">' literally").
Proof.
  intros Hname Heq Hbang. split.
  - unfold PythonFormat.TokenizeRegex. rewrite Python_strip_angle.
    cbn [bind fst snd].
    set (p := "(?<" +:+ name +:+ ">" +:+ rest).
    pose proof (len_nonneg name) as Hn. pose proof (len_nonneg rest) as Hr.
    assert (Hlen : len p = 3 + len name + 1 + len rest).
    { unfold p. rewrite !len_app. change (len "(?<") with 3.
      change (len ">") with 1. lia. }
    assert (H0 : index p 0 = Ok "("%char) by apply index_String_0.
    assert (HI : Inv [] p (mkSt 0 [] "")).
    { constructor; cbn [idx tokens cur]; try lia; [|constructor].
      exists []. split; [reflexivity|]. now rewrite sub_empty. }
    destruct (Python_body_ok [] p "("%char _ HI H0) as (s' & Hbody & _ & HI').
    unfold p in Hbody.
    rewrite (Python_angle_first_iteration name rest Hname Heq Hbang) in Hbody.
    injection Hbody as <-. cbn [idx] in HI'.
    destruct (String.length p) as [|n] eqn:En; [unfold len in Hlen; lia|].
    cbn [tokenize_loop idx]. destruct (Z.ltb_spec 0 (len p)); [|lia].
    unfold iteration. cbn [idx]. rewrite H0. cbn [bind]. unfold p at 1.
    rewrite (Python_angle_first_iteration name rest Hname Heq Hbang).
    cbn [bind idx]. fold p.
    destruct (tokenize_loop_ok PythonFormat.body [] p Python_body_ok n _ HI')
      as (toks & Htoks & _).
    { cbn [goto idx]. unfold len in *. lia. }
    rewrite Htoks.
    change (goto (len name + 3 + 1)
              (mkSt (len name + 3) ["(?<" +:+ name +:+ ">"] ""))
      with (prepend ["(?<" +:+ name +:+ ">"] (mkSt (len name + 3 + 1) [] ""))
      in Htoks.
    rewrite (tokenize_loop_prepend _ _ _ appends_only_Python_body) in Htoks.
    destruct (tokenize_loop PythonFormat.body n p
                (mkSt (len name + 3 + 1) [] "")) as [l| |];
      cbn [on_result bind] in Htoks; try discriminate.
    injection Htoks as <-. exists l. reflexivity.
  - pose proof (explain_angle_group_literal Python name
                  (or_intror (or_intror eq_refl))) as H.
    cbn [explain] in H. rewrite H. f_equal. unfold explain_literal.
    pose proof (len_nonneg name).
    replace (len ("(?<" +:+ name +:+ ">")) with (3 + len name + 1)
      by (rewrite !len_app; change (len "(?<") with 3;
          change (len ">") with 1; lia).
    destruct (Z.eqb_spec (3 + len name + 1) 1); [lia|].
    now rewrite !app_assoc_s.
Qed.

Lemma Python_angle_group_unexplained_witness :
  (∃ toks, PythonFormat.TokenizeRegex "(?<year>x)"
           = Ok ("(?<year>" :: toks))
  ∧ PythonFormat.ExplainToken "(?<year>"
    = Ok "Matches the string '(?<year>' literally".
Proof.
  apply (Python_angle_group_unexplained "year" "x)"); reflexivity.
Defined.

(** *** Numbered backreferences *)

Lemma escape_token_second (c : ascii) (rest : string) :
  (len (String backslash (String c rest)) <? 2) = false
  ∧ index (String backslash (String c rest)) 1 = Ok c.
Proof.
  pose proof (len_nonneg rest). split.
  - rewrite !len_String. apply Z.ltb_ge. lia.
  - change 1 with (0 + 1). rewrite index_String_S by lia.
    apply index_String_0.
Qed.

(** Every explainer hands a token that begins with a backslash to its
    escape-sequence function. *)
Lemma explain_reaches_escape (d : Dialect) (c : ascii) (rest : string) :
  explain d (String backslash (String c rest))
  = match d with
    | Baseline => GoFormat.explainEscapeSequence
    | Pcre => PcreFormat.explainPcreEscapeSequence
    | Posix => PosixFormat.explainPosixEscapeSequence
    | Ecma => JsFormat.explainJsEscapeSequence
    | Python => PythonFormat.explainPythonEscapeSequence
    end (String backslash (String c rest)).
Proof.
  destruct d; cbn [explain];
    [unfold GoFormat.ExplainToken | unfold PcreFormat.ExplainToken
    | unfold PosixFormat.ExplainToken | unfold JsFormat.ExplainToken
    | unfold PythonFormat.ExplainToken];
    unfold backslash_s;
    rewrite ?eqb_head_ne by discriminate;
    rewrite ?prefix_head_ne by discriminate;
    cbn [andb orb]; now rewrite prefix_head_eq.
Qed.

(** X20: a token [\c] with [c] one of the digits 1 to 9 is explained as a
    backreference to group [c] by the PCRE, POSIX, ECMA and Python
    explainers.  The baseline explainer has no such case and describes the
    digit as a literal character, although the baseline feature table
    lists backreferences as supported. *)
Theorem explain_numbered_backreference (d : Dialect) (c : ascii)
  (rest : string) :
  is_digit_1_9 c = true →
  explain d (String backslash (String c rest))
  = Ok (match d with
        | Baseline => "Matches the character '" +:+ String c "' literally"
        | _ => "Backreference to capturing group " +:+ String c ""
        end)
  ∧ hasFeature d FeatureBackreference = true.
Proof.
  intros Hc. split; [|destruct d; reflexivity].
  rewrite explain_reaches_escape.
  destruct (escape_token_second c rest) as [Hlen H1].
  destruct d;
    [unfold GoFormat.explainEscapeSequence
    | unfold PcreFormat.explainPcreEscapeSequence
    | unfold PosixFormat.explainPosixEscapeSequence
    | unfold JsFormat.explainJsEscapeSequence
    | unfold PythonFormat.explainPythonEscapeSequence];
    rewrite Hlen, H1; cbn [bind];
    destruct c as [[] [] [] [] [] [] [] []]; try discriminate Hc;
    reflexivity.
Qed.

Lemma explain_numbered_backreference_witness :
  explain Baseline (backslash_s +:+ "1")
  = Ok "Matches the character '1' literally"
  ∧ hasFeature Baseline FeatureBackreference = true.
Proof.
  apply (explain_numbered_backreference Baseline "1" ""). reflexivity.
Defined.

(** *** POSIX classes *)

Lemma Index_from_skip (c : ascii) (x n s : string) (k : Z) :
  no_byte c n = true →
  Index_from (n +:+ s) (String c x) k = Index_from s (String c x) (k + len n).
Proof.
  revert k. induction n as [|a n IH]; intros k H.
  - rewrite app_nil_l, len_empty. f_equal. lia.
  - apply no_byte_cons in H as [Hne H]. rewrite app_cons, len_String.
    cbn [Index_from String.prefix].
    destruct (ascii_dec c a); [congruence|]. rewrite IH by assumption.
    f_equal. lia.
Qed.

(** X21: the POSIX explainer answers a token [[[:name:]]], for a non-empty
    [name] without [':'] and [']'], with the description of the class
    [name], which for a name it does not know is
    ["Unknown POSIX character class '[:name:]'"]. *)
Theorem explain_posix_class_token (name : string) :
  name ≠ "" → no_byte ":" name = true → no_byte "]" name = true →
  explain Posix ("[[:" +:+ name +:+ ":]]")
  = Ok (PosixFormat.explainPosixCharClass name).
Proof.
  intros Hne Hcolon Hbr.
  pose proof (HasSuffix_app_last "[[:" (name +:+ ":]") "]" "]") as Hs.
  replace ("[[:" +:+ (name +:+ ":]") +:+ "]")
    with ("[[:" +:+ name +:+ ":]]") in Hs
    by (rewrite !app_assoc_s; reflexivity).
  assert (Hstart : Index ("[[:" +:+ name +:+ ":]]") "[[:" = 0).
  { unfold Index. destruct name; reflexivity. }
  assert (Hend : Index ("[[:" +:+ name +:+ ":]]") ":]]" = 3 + len name).
  { unfold Index.
    change ("[[:" +:+ name +:+ ":]]")
      with (String "[" (String "[" (String ":" (name +:+ ":]]")))).
    destruct name as [|a name]; [congruence|].
    apply no_byte_cons in Hbr as [Ha _].
    apply no_byte_cons in Hcolon as [Hac Hcolon].
    rewrite app_cons, len_String. cbn [Index_from String.prefix].
    destruct (ascii_dec ":" "["); [discriminate|].
    destruct (ascii_dec ":" ":"); [|congruence].
    destruct (ascii_dec "]" a); [congruence|].
    destruct (ascii_dec ":" a); [congruence|].
    rewrite Index_from_skip by assumption.
    cbn [Index_from String.prefix].
    destruct (ascii_dec ":" ":"); [|congruence].
    destruct (ascii_dec "]" "]"); [|congruence]. lia. }
  assert (Hname : slice ("[[:" +:+ name +:+ ":]]") 3 (3 + len name) = Ok name).
  { pose proof (len_nonneg name).
    rewrite slice_ok
      by (rewrite ?len_app; change (len "[[:") with 3;
          change (len ":]]") with 3; lia).
    change 3 with (len "[[:"). now rewrite sub_app_mid. }
  apply nonempty_len in Hne.
  cbn [explain]. unfold PosixFormat.ExplainToken.
  rewrite Hs.
  change ("[[:" +:+ name +:+ ":]]")
    with (String "[" (String "[" (String ":" (name +:+ ":]]")))) in *.
  rewrite ?eqb_head_ne by discriminate.
  rewrite prefix_head_eq. cbn [andb Ascii.eqb Bool.eqb].
  unfold PosixFormat.explain_posix_class, Contains.
  rewrite Hstart, Hend.
  destruct (Z.leb_spec 0 (3 + len name)); [|lia].
  destruct (Z.gtb_spec (3 + len name) (0 + 3)); [|lia].
  cbn [andb Z.leb Z.geb Z.compare]. change (0 + 3) with 3.
  rewrite Hname. reflexivity.
Qed.

Lemma explain_posix_class_token_witness :
  explain Posix "[[:digit:]]" = Ok "Matches decimal digits (0-9)".
Proof.
  apply (explain_posix_class_token "digit"); [discriminate| |]; reflexivity.
Defined.

(** *** Literal runs and what interrupts them *)

Lemma tokenize_unfold (d : Dialect) (p : string) :
  tokenize d p
  = let* pre := pre_pass d p in
    tokenize_loop (loop_body d) (String.length (snd pre)) (snd pre)
      (mkSt 0 (fst pre) "").
Proof. destruct d; reflexivity. Qed.

Lemma flush_mk (i : Z) (T : list string) (c : string) :
  flush (mkSt i T c) = mkSt i (T ++ run c) "".
Proof.
  unfold flush, run. cbn [idx tokens cur].
  destruct (Z.ltb_spec 0 (len c)); [reflexivity|].
  pose proof (len_nonneg c). rewrite (len_zero_inv c) by lia.
  now rewrite app_nil_r.
Qed.

Lemma all_plain_cons (c : ascii) (s : string) :
  all_plain (String c s) = true ↔ is_special c = false ∧ all_plain s = true.
Proof.
  unfold all_plain. cbn [list_ascii_of_string forallb].
  rewrite andb_true_iff, negb_true_iff. reflexivity.
Qed.

(** The loop walks through a stretch of plain bytes, adding them to the
    pending run. *)
Lemma plain_run (d : Dialect) (p : string) (T : list string) (fuel : nat) :
  ∀ (n : nat) (i : Z) (c : string),
    0 ≤ i → i + Z.of_nat n ≤ len p →
    all_plain (sub p i (i + Z.of_nat n)) = true →
    tokenize_loop (loop_body d) (n + fuel) p (mkSt i T c)
    = tokenize_loop (loop_body d) fuel p
        (mkSt (i + Z.of_nat n) T (c +:+ sub p i (i + Z.of_nat n))).
Proof.
  induction n as [|n IH]; intros i c Hi Hn Hall.
  - cbn [Nat.add]. rewrite Z.add_0_r, sub_empty, app_empty_r. reflexivity.
  - cbn [Nat.add tokenize_loop idx].
    destruct (Z.ltb_spec i (len p)); [|lia].
    destruct (index_ok p i) as [b Hb]; [lia|].
    rewrite (sub_cons _ _ _ _ Hb) in Hall |- * by lia.
    apply all_plain_cons in Hall as [Hsp Hall].
    unfold iteration. cbn [idx]. rewrite Hb. cbn [bind].
    unfold loop_body. rewrite (plain_byte_written d p b _ Hsp).
    cbn [bind]. unfold goto, write_byte. cbn [idx tokens cur].
    fold (loop_body d).
    replace (i + Z.of_nat (S n)) with (i + 1 + Z.of_nat n) in * by lia.
    rewrite IH by (assumption || lia).
    rewrite app_assoc_s, app_cons, app_nil_l. reflexivity.
Qed.

Lemma loop_end (body : block) (fuel : nat) (p : string) (T : list string)
  (c : string) :
  tokenize_loop body fuel p (mkSt (len p) T c) = Ok (T ++ run c).
Proof.
  destruct fuel; cbn [tokenize_loop idx];
    rewrite Z.ltb_irrefl, flush_mk; reflexivity.
Qed.

Lemma sub_app_head (a s : string) : sub (a +:+ s) 0 (len a) = a.
Proof.
  pose proof (sub_app_mid "" a s) as H.
  rewrite app_nil_l, len_empty in H. exact H.
Qed.

Lemma index_app_right (a s : string) (j : Z) :
  0 ≤ j → index (a +:+ s) (len a + j) = index s j.
Proof.
  intros Hj. induction a as [|x a IH].
  - rewrite app_nil_l, len_empty. f_equal.
  - rewrite app_cons, len_String. pose proof (len_nonneg a).
    replace (1 + len a + j) with (len a + j + 1) by lia.
    rewrite index_String_S by lia. exact IH.
Qed.

Lemma next_plain_test (p : string) (i k : Z) (x : ascii) :
  0 ≤ i → 1 ≤ k → next_plain p i → is_special x = true →
  pure (i + k <? len p) &&& index_eq p (i + 1) x = Ok false.
Proof.
  intros Hi Hk Hnext Hx.
  destruct (Z.ltb_spec (i + k) (len p)); cbn [and_then bind]; [|reflexivity].
  destruct (index_ok p (i + 1)) as [c Hc]; [lia|].
  rewrite (index_eq_ok _ _ _ _ Hc). f_equal.
  destruct (Ascii.eqb_spec c x) as [->|]; [|reflexivity].
  rewrite (Hnext _ Hc) in Hx. discriminate.
Qed.

Lemma is_metachar_cases (c : ascii) :
  is_metachar c = true →
  c ∈ ["*"; "+"; "?"; "("; ")"; "|"; "^"; "$"; "."]%char.
Proof.
  unfold is_metachar, is_quantifier. rewrite !orb_true_iff, !Ascii.eqb_eq.
  rewrite !elem_of_cons. tauto.
Qed.

(** One iteration on a metacharacter that is followed by a plain byte or
    by nothing: the pending run is flushed and the byte is emitted. *)
Lemma metachar_iteration (d : Dialect) (p : string) (c : ascii) (i : Z)
  (T : list string) (r : string) :
  0 ≤ i → is_metachar c = true → next_plain p i →
  loop_body d p c (mkSt i T r)
  = Ok (Continue (mkSt i (T ++ run r ++ [String c ""]) "")).
Proof.
  intros Hi Hc Hnext.
  pose proof (next_plain_test p i 1 "+" Hi ltac:(lia) Hnext eq_refl) as Hplus.
  pose proof (next_plain_test p i 1 "?" Hi ltac:(lia) Hnext eq_refl) as Hq.
  pose proof (next_plain_test p i 2 "?" Hi ltac:(lia) Hnext eq_refl) as Hhdr.
  apply is_metachar_cases in Hc. rewrite !elem_of_cons, elem_of_nil in Hc.
  destruct Hc as [-> | [-> | [-> | [-> | [-> | [-> | [-> | [-> | [-> | []]]]]]]]]];
    destruct d;
    unfold loop_body, GoFormat.body, PcreFormat.body, PosixFormat.body,
      JsFormat.body, PythonFormat.body, tail_blocks, seq_block,
      char_class_block, PosixFormat.char_class_block, escape_block,
      PythonFormat.escape_block, brace_block, plain_quantifier_block,
      suffix_quantifier_block, GoFormat.group_block, PcreFormat.group_block,
      PosixFormat.group_block, JsFormat.group_block,
      PythonFormat.group_block, close_paren_block, alternation_block,
      anchor_block, dot_block, single_block, is_quantifier, backslash;
    cbn [Ascii.eqb Bool.eqb andb orb bind];
    rewrite ?flush_mk; cbv zeta; cbn [idx];
    rewrite ?Hplus, ?Hq, ?Hhdr; cbn [bind];
    rewrite ?string_of_byte_ascii by reflexivity;
    unfold emit; cbn [idx tokens cur]; rewrite <- ?app_assoc; reflexivity.
Qed.

Lemma length_app_cons (a b : string) (c : ascii) :
  String.length (a +:+ String c b)
  = (String.length a + S (String.length b + 0))%nat.
Proof.
  pose proof (len_app a (String c b)) as H. rewrite len_String in H.
  unfold len in H. lia.
Qed.

(** The pre-pass leaves alone a pattern that begins neither with the
    envelope of the dialect nor with ["(?"]. *)
Lemma pre_pass_none (d : Dialect) (p : string) :
  has_envelope d p = false →
  (∀ c1, index p 0 = Ok "("%char → index p 1 = Ok c1 → c1 ≠ "?"%char) →
  pre_pass d p = Ok ([], p).
Proof.
  intros Henv Hhdr. destruct d; cbn [pre_pass]; try reflexivity.
  - now apply Js_strip_none.
  - unfold PythonFormat.strip. rewrite (Python_strip_raw_none p Henv).
    cbn [bind fst snd]. unfold PythonFormat.strip_flags.
    destruct (Z.gtb_spec (len p) 2); cbn [and_then bind]; [|reflexivity].
    pose proof (len_nonneg p).
    destruct (index_ok p 0) as [c0 Hi0]; [lia|].
    destruct (index_ok p 1) as [c1 Hi1]; [lia|].
    rewrite (index_eq_ok _ _ _ _ Hi0), (index_eq_ok _ _ _ _ Hi1).
    cbn [bind].
    destruct (Ascii.eqb_spec c0 "(") as [->|]; [|reflexivity].
    destruct (Ascii.eqb_spec c1 "?") as [->|]; [|reflexivity].
    now destruct (Hhdr _ Hi0 Hi1).
Qed.

Lemma all_plain_first (a : string) (c0 : ascii) (s : string) :
  all_plain a = true → a ≠ "" → index (a +:+ s) 0 = Ok c0 →
  is_special c0 = false.
Proof.
  intros Ha Hne H0. destruct a as [|x a]; [congruence|].
  rewrite app_cons, index_String_0 in H0. injection H0 as <-.
  now apply all_plain_cons in Ha as [Hx _].
Qed.

Lemma next_plain_run (a b : string) (k : Z) (x : string) :
  all_plain b = true → k = len a + len x - 1 → 0 < len x →
  next_plain (a +:+ x +:+ b) k.
Proof.
  intros Hb -> Hx c Hc.
  replace (len a + len x - 1 + 1) with (len (a +:+ x) + 0) in Hc
    by (rewrite len_app; lia).
  rewrite <- app_assoc_s, index_app_right in Hc by lia.
  eapply all_plain_index; eauto.
Qed.

(** X22: a metacharacter ([*], [+], [?], [(], [)], [|], [^], [$], [.])
    that stands between two runs of plain bytes is a token of its own in
    every dialect, and the runs, when not empty, are the tokens before and
    after it. *)
Theorem tokenize_metachar_between_runs (d : Dialect) (a b : string)
  (c : ascii) :
  all_plain a = true → all_plain b = true → is_metachar c = true →
  has_envelope d (a +:+ String c b) = false →
  tokenize d (a +:+ String c b) = Ok (run a ++ [String c ""] ++ run b).
Proof.
  intros Ha Hb Hc Henv. set (p := a +:+ String c b).
  pose proof (len_nonneg a) as Hla. pose proof (len_nonneg b) as Hlb.
  assert (Hlen : len p = len a + 1 + len b)
    by (unfold p; rewrite len_app, len_String; lia).
  assert (Hpre : pre_pass d p = Ok ([], p)).
  { apply pre_pass_none; [assumption|]. intros c1 H0 H1 ->.
    destruct a as [|a0 a].
    - unfold p in H1. rewrite app_nil_l in H1.
      change 1 with (0 + 1) in H1. rewrite index_String_S in H1 by lia.
      pose proof (all_plain_index _ _ _ Hb H1). discriminate.
    - pose proof (all_plain_first _ _ _ Ha ltac:(discriminate) H0).
      discriminate. }
  rewrite tokenize_unfold. fold p. rewrite Hpre. cbn [bind fst snd].
  unfold p at 1. rewrite length_app_cons. fold p.
  rewrite plain_run;
    [| lia | fold (len a); lia
     | rewrite Z.add_0_l; fold (len a); unfold p; now rewrite sub_app_head].
  rewrite !Z.add_0_l. fold (len a). unfold p at 2. rewrite sub_app_head.
  fold p. rewrite app_nil_l.
  cbn [tokenize_loop idx]. destruct (Z.ltb_spec (len a) (len p)); [|lia].
  unfold iteration. cbn [idx].
  assert (Hi : index p (len a) = Ok c) by apply index_app_at.
  rewrite Hi. cbn [bind].
  rewrite metachar_iteration; [|lia|assumption|].
  2:{ apply (next_plain_run a b (len a) (String c "")); auto.
      - rewrite len_String, len_empty. lia.
      - rewrite len_String, len_empty. lia. }
  cbn [bind]. unfold goto. cbn [idx tokens cur].
  assert (Hsub : sub p (len a + 1) (len a + 1 + Z.of_nat (String.length b))
                 = b).
  { fold (len b). unfold p.
    replace (a +:+ String c b) with ((a +:+ String c "") +:+ b)
      by (rewrite app_assoc_s; reflexivity).
    replace (len a + 1) with (len (a +:+ String c ""))
      by (rewrite len_app, len_String, len_empty; lia).
    apply sub_app_tail. }
  rewrite plain_run; fold (len b); try lia;
    [|fold (len b) in Hsub; now rewrite Hsub].
  fold (len b) in Hsub. rewrite Hsub, app_nil_l.
  replace (len a + 1 + len b) with (len p) by lia.
  rewrite loop_end. cbn [app]. now rewrite <- app_assoc.
Qed.

Lemma tokenize_metachar_between_runs_witness :
  tokenize Posix "ab|cd" = Ok ["ab"; "|"; "cd"].
Proof.
  apply (tokenize_metachar_between_runs Posix "ab" "cd" "|"); reflexivity.
Defined.

Lemma and_then_false (b : bool) : pure b &&& Ok false = Ok false.
Proof. now destruct b. Qed.

(** One iteration on a backslash that is followed by the byte [c]: the
    pending run is flushed and the pair is emitted. *)
Lemma escape_iteration (d : Dialect) (p : string) (c : ascii) (i : Z)
  (T : list string) (r : string) :
  0 ≤ i → index p i = Ok backslash → index p (i + 1) = Ok c →
  is_long_escape d c = false →
  loop_body d p backslash (mkSt i T r)
  = Ok (Continue (mkSt (i + 1)
                    (T ++ run r ++ [String backslash (String c "")]) "")).
Proof.
  intros Hi H0 H1 Hlong.
  pose proof (index_inv _ _ _ H1) as [Hr _].
  assert (Hlt : (i + 1 <? len p) = true) by (apply Z.ltb_lt; lia).
  assert (Htok : slice p i (i + 2) = Ok (String backslash (String c "")))
    by (rewrite slice_ok by lia; f_equal; now apply sub_2).
  destruct d;
    unfold loop_body, GoFormat.body, PcreFormat.body, PosixFormat.body,
      JsFormat.body, PythonFormat.body, seq_block, char_class_block,
      PosixFormat.char_class_block, escape_block, PythonFormat.escape_block;
    change (Ascii.eqb backslash "[") with false; cbn [bind];
    rewrite Ascii.eqb_refl; cbn [idx]; rewrite Hlt; cbn [andb];
    rewrite flush_mk; cbv zeta; cbn [idx];
    try (cbn [is_long_escape] in Hlong;
         repeat (apply orb_false_elim in Hlong as [Hlong ?]);
         rewrite !(index_eq_ok _ _ _ _ H1);
         repeat match goal with
                | H : Ascii.eqb c _ = false |- _ => rewrite H; clear H
                end;
         rewrite !and_then_false; cbn [and_then bind]);
    rewrite Htok; cbn [bind]; unfold emit, goto; cbn [idx tokens cur];
    rewrite <- ?app_assoc; reflexivity.
Qed.

(** X23: a backslash followed by any byte [c], metacharacter or not,
    between two runs of plain bytes is the two-byte token [\c] in every
    dialect (for Python, when [c] is none of [x], [u], [U], [N], which
    start longer escapes there), and the runs are the tokens around it. *)
Theorem tokenize_escape_between_runs (d : Dialect) (a b : string)
  (c : ascii) :
  all_plain a = true → all_plain b = true → is_long_escape d c = false →
  has_envelope d (a +:+ String backslash (String c b)) = false →
  tokenize d (a +:+ String backslash (String c b))
  = Ok (run a ++ [String backslash (String c "")] ++ run b).
Proof.
  intros Ha Hb Hc Henv. set (p := a +:+ String backslash (String c b)).
  pose proof (len_nonneg a) as Hla. pose proof (len_nonneg b) as Hlb.
  assert (Hlen : len p = len a + 2 + len b)
    by (unfold p; rewrite len_app, !len_String; lia).
  assert (Hi0 : index p (len a) = Ok backslash) by apply index_app_at.
  assert (Hi1 : index p (len a + 1) = Ok c).
  { unfold p. rewrite index_app_right by lia. change 1 with (0 + 1).
    rewrite index_String_S by lia. apply index_String_0. }
  assert (Hpre : pre_pass d p = Ok ([], p)).
  { apply pre_pass_none; [assumption|]. intros c1 H0 _ _.
    destruct a as [|a0 a].
    - unfold p in H0. rewrite app_nil_l, index_String_0 in H0.
      discriminate.
    - pose proof (all_plain_first _ _ _ Ha ltac:(discriminate) H0).
      discriminate. }
  rewrite tokenize_unfold. fold p. rewrite Hpre. cbn [bind fst snd].
  replace (String.length p)
    with (String.length a + S (String.length b + 1))%nat
    by (unfold len in Hlen; lia).
  rewrite plain_run;
    [| lia | fold (len a); lia
     | rewrite Z.add_0_l; fold (len a); unfold p; now rewrite sub_app_head].
  rewrite !Z.add_0_l. fold (len a). unfold p at 2. rewrite sub_app_head.
  fold p. rewrite app_nil_l.
  cbn [tokenize_loop idx]. destruct (Z.ltb_spec (len a) (len p)); [|lia].
  unfold iteration. cbn [idx]. rewrite Hi0. cbn [bind].
  rewrite (escape_iteration d p c) by (assumption || lia).
  cbn [bind]. unfold goto. cbn [idx tokens cur].
  assert (Hsub : sub p (len a + 1 + 1) (len a + 1 + 1 + len b) = b).
  { unfold p.
    replace (a +:+ String backslash (String c b))
      with ((a +:+ String backslash (String c "")) +:+ b)
      by (rewrite app_assoc_s; reflexivity).
    replace (len a + 1 + 1) with (len (a +:+ String backslash (String c "")))
      by (rewrite len_app, !len_String, len_empty; lia).
    apply sub_app_tail. }
  rewrite plain_run; fold (len b); try lia; [|now rewrite Hsub].
  rewrite Hsub, app_nil_l.
  replace (len a + 1 + 1 + len b) with (len p) by lia.
  rewrite loop_end. cbn [app]. now rewrite <- app_assoc.
Qed.

Lemma tokenize_escape_between_runs_witness :
  tokenize Python ("a" +:+ backslash_s +:+ "[b")
  = Ok ["a"; backslash_s +:+ "["; "b"].
Proof.
  apply (tokenize_escape_between_runs Python "a" "b" "["); reflexivity.
Defined.

Lemma no_byte_index (c : ascii) (s : string) (j : Z) (x : ascii) :
  no_byte c s = true → index s j = Ok x → x ≠ c.
Proof.
  intros Hs Hx. apply index_inv in Hx as [_ Hget].
  revert Hs Hget. generalize (Z.to_nat j). clear j.
  induction s as [|a s IH]; intros n Hs Hget; cbn [String.get] in Hget;
    [discriminate|].
  apply no_byte_cons in Hs as [Ha Hs]. destruct n as [|n].
  - now injection Hget as <-.
  - eauto.
Qed.

Lemma no_closer_after (a b : string) (o cl : ascii) (j : Z) :
  no_byte cl b = true → len a < j →
  index (a +:+ String o b) j ≠ Ok cl.
Proof.
  intros Hb Hj Hc.
  replace j with (len (a +:+ String o "") + (j - len a - 1)) in Hc
    by (rewrite len_app, len_String, len_empty; lia).
  replace (a +:+ String o b) with ((a +:+ String o "") +:+ b) in Hc
    by (rewrite app_assoc_s; reflexivity).
  rewrite index_app_right in Hc by lia.
  now apply (no_byte_index _ _ _ _ Hb Hc).
Qed.

Lemma FindClosingBracket_none (a b : string) :
  no_byte "]" b = true →
  FindClosingBracket (a +:+ String "[" b) (len a) = Ok (-1).
Proof.
  intros Hb. pose proof (len_nonneg a). pose proof (len_nonneg b).
  set (p := a +:+ String "[" b).
  assert (Hlen : len p = len a + 1 + len b)
    by (unfold p; rewrite len_app, len_String; lia).
  unfold FindClosingBracket.
  destruct (FindClosingBracket_loop_first
              (Z.to_nat (len p - (len a + 1))) p (len a) (len a + 1))
    as (e & -> & [[-> _]|(He & [Hc _] & _)]); try lia; [reflexivity|].
  exfalso. apply (no_closer_after a b "[" "]" e Hb); [lia|exact Hc].
Qed.

Lemma FindClosingCurlyBrace_none (a b : string) :
  no_byte "}" b = true →
  FindClosingCurlyBrace (a +:+ String "{" b) (len a) = Ok (-1).
Proof.
  intros Hb. pose proof (len_nonneg a). pose proof (len_nonneg b).
  set (p := a +:+ String "{" b).
  assert (Hlen : len p = len a + 1 + len b)
    by (unfold p; rewrite len_app, len_String; lia).
  unfold FindClosingCurlyBrace.
  destruct (FindClosingCurlyBrace_loop_first
              (Z.to_nat (len p - (len a + 1))) p (len a + 1))
    as (e & -> & [[-> _]|(He & [Hc _] & _)]); try lia; [reflexivity|].
  exfalso. apply (no_closer_after a b "{" "}" e Hb); [lia|exact Hc].
Qed.

(** One iteration on an opening bracket or brace whose scan for the closer
    fails: the pending run is flushed all the same, and the opener starts
    the next run. *)
Lemma opener_iteration (d : Dialect) (p : string) (o : ascii) (i : Z)
  (T : list string) (r : string) :
  0 ≤ i →
  (o = "["%char ∧ FindClosingBracket p i = Ok (-1))
  ∨ (o = "{"%char ∧ FindClosingCurlyBrace p i = Ok (-1)) →
  loop_body d p o (mkSt i T r)
  = Ok (Continue (mkSt i (T ++ run r) (String o ""))).
Proof.
  intros Hi [[-> Hscan]|[-> Hscan]];
    assert (Hgt : (-1 >? i) = false) by (rewrite Z.gtb_ltb; apply Z.ltb_ge; lia);
    destruct d;
    unfold loop_body, GoFormat.body, PcreFormat.body, PosixFormat.body,
      JsFormat.body, PythonFormat.body, seq_block;
    rewrite ?Posix_class_block_eq by (cbn [idx]; lia);
    unfold tail_blocks, seq_block, char_class_block, class_scan,
      escape_block, PythonFormat.escape_block, brace_block,
      plain_quantifier_block, suffix_quantifier_block, GoFormat.group_block,
      PcreFormat.group_block, PosixFormat.group_block, JsFormat.group_block,
      PythonFormat.group_block, close_paren_block, alternation_block,
      anchor_block, dot_block, single_block, default_block, is_quantifier,
      backslash;
    cbn [Ascii.eqb Bool.eqb andb orb bind];
    rewrite ?flush_mk; cbv zeta; cbn [idx]; rewrite ?Hscan; cbn [bind];
    rewrite ?Hgt; cbn [bind];
    rewrite ?flush_mk; cbv zeta; cbn [idx]; rewrite ?Hscan; cbn [bind];
    rewrite ?Hgt; cbn [bind];
    unfold write_byte, run; cbn [idx tokens cur];
    rewrite ?len_empty; cbn [Z.ltb Z.compare]; rewrite ?app_nil_r;
    reflexivity.
Qed.

(** X24: an opening bracket whose closing bracket is missing, or an opening
    brace whose closing brace is missing, is kept as literal text, but it
    still ends the literal run before it: [ab[cd] is tokenized as [ab],
    [[cd], not as the single run [ab[cd]. *)
Theorem tokenize_unclosed_opener (d : Dialect) (a b : string) (o : ascii) :
  all_plain a = true → all_plain b = true →
  (o = "["%char ∧ no_byte "]" b = true)
  ∨ (o = "{"%char ∧ no_byte "}" b = true) →
  has_envelope d (a +:+ String o b) = false →
  tokenize d (a +:+ String o b) = Ok (run a ++ [String o b]).
Proof.
  intros Ha Hb Ho Henv. set (p := a +:+ String o b).
  pose proof (len_nonneg a) as Hla. pose proof (len_nonneg b) as Hlb.
  assert (Hlen : len p = len a + 1 + len b)
    by (unfold p; rewrite len_app, len_String; lia).
  assert (Hscan : (o = "["%char ∧ FindClosingBracket p (len a) = Ok (-1))
                  ∨ (o = "{"%char
                     ∧ FindClosingCurlyBrace p (len a) = Ok (-1))).
  { unfold p. destruct Ho as [[-> Hno]|[-> Hno]]; [left|right];
      (split; [reflexivity|]).
    - now apply FindClosingBracket_none.
    - now apply FindClosingCurlyBrace_none. }
  assert (Hpre : pre_pass d p = Ok ([], p)).
  { apply pre_pass_none; [assumption|]. intros c1 H0 _ _.
    destruct a as [|a0 a].
    - unfold p in H0. rewrite app_nil_l, index_String_0 in H0.
      destruct Ho as [[-> _]|[-> _]]; discriminate.
    - pose proof (all_plain_first _ _ _ Ha ltac:(discriminate) H0).
      discriminate. }
  rewrite tokenize_unfold. fold p. rewrite Hpre. cbn [bind fst snd].
  unfold p at 1. rewrite length_app_cons. fold p.
  rewrite plain_run;
    [| lia | fold (len a); lia
     | rewrite Z.add_0_l; fold (len a); unfold p; now rewrite sub_app_head].
  rewrite !Z.add_0_l. fold (len a). unfold p at 2. rewrite sub_app_head.
  fold p. rewrite app_nil_l.
  cbn [tokenize_loop idx]. destruct (Z.ltb_spec (len a) (len p)); [|lia].
  unfold iteration. cbn [idx].
  assert (Hi : index p (len a) = Ok o) by apply index_app_at.
  rewrite Hi. cbn [bind].
  rewrite (opener_iteration d p o) by (assumption || lia).
  cbn [bind]. unfold goto. cbn [idx tokens cur].
  assert (Hsub : sub p (len a + 1) (len a + 1 + len b) = b).
  { unfold p.
    replace (a +:+ String o b) with ((a +:+ String o "") +:+ b)
      by (rewrite app_assoc_s; reflexivity).
    replace (len a + 1) with (len (a +:+ String o ""))
      by (rewrite len_app, len_String, len_empty; lia).
    apply sub_app_tail. }
  rewrite plain_run; fold (len b); try lia; [|now rewrite Hsub].
  rewrite Hsub, app_cons, app_nil_l.
  replace (len a + 1 + len b) with (len p) by lia.
  rewrite loop_end. reflexivity.
Qed.

Lemma tokenize_unclosed_opener_witness :
  tokenize Baseline "ab[cd" = Ok ["ab"; "[cd"].
Proof.
  apply (tokenize_unclosed_opener Baseline "ab" "cd" "[");
    [reflexivity | reflexivity | left; split; reflexivity | reflexivity].
Defined.

Lemma index_app_left (m t : string) (k : Z) :
  0 ≤ k < len m → index (m +:+ t) k = index m k.
Proof.
  revert k. induction m as [|z m IH]; intros k Hk.
  - rewrite len_empty in Hk. lia.
  - rewrite len_String in Hk. rewrite app_cons.
    destruct (Z.eq_dec k 0) as [->|].
    + now rewrite !index_String_0.
    + replace k with (k - 1 + 1) by lia. rewrite !index_String_S by lia.
      apply IH. lia.
Qed.

Lemma closer_position (a m b : string) (o cl : ascii) :
  len (a +:+ String o (m +:+ String cl b)) = len a + 1 + len m + 1 + len b
  ∧ index (a +:+ String o (m +:+ String cl b)) (len a + 1 + len m) = Ok cl
  ∧ (∀ j x, len a < j < len a + 1 + len m →
            index (a +:+ String o (m +:+ String cl b)) j = Ok x →
            index m (j - len a - 1) = Ok x)
  ∧ sub (a +:+ String o (m +:+ String cl b)) (len a) (len a + 1 + len m + 1)
    = String o (m +:+ String cl "")
  ∧ sub (a +:+ String o (m +:+ String cl b)) (len a + 1 + len m + 1)
      (len a + 1 + len m + 1 + len b) = b.
Proof.
  pose proof (len_nonneg a). pose proof (len_nonneg m).
  pose proof (len_nonneg b).
  assert (E1 : a +:+ String o (m +:+ String cl b)
               = (a +:+ String o "") +:+ (m +:+ String cl b))
    by (rewrite app_assoc_s; reflexivity).
  assert (E2 : a +:+ String o (m +:+ String cl b)
               = (a +:+ String o m) +:+ String cl b)
    by (rewrite app_assoc_s; reflexivity).
  assert (E3 : a +:+ String o (m +:+ String cl b)
               = a +:+ String o (m +:+ String cl "") +:+ b).
  { f_equal. rewrite app_cons, app_assoc_s. reflexivity. }
  assert (E4 : a +:+ String o (m +:+ String cl b)
               = (a +:+ String o (m +:+ String cl "")) +:+ b).
  { rewrite E3 at 1. now rewrite app_assoc_s. }
  assert (L1 : len (a +:+ String o "") = len a + 1)
    by (rewrite len_app, len_String, len_empty; lia).
  assert (L2 : len (a +:+ String o m) = len a + 1 + len m)
    by (rewrite len_app, len_String; lia).
  assert (L3 : len (String o (m +:+ String cl "")) = 1 + len m + 1)
    by (rewrite len_String, len_app, len_String, len_empty; lia).
  repeat split.
  - rewrite len_app, len_String, len_app, len_String. lia.
  - rewrite E2, <- L2. apply index_app_at.
  - intros j x Hj Hx. rewrite E1 in Hx.
    replace j with (len (a +:+ String o "") + (j - len a - 1)) in Hx by lia.
    rewrite index_app_right in Hx by lia.
    rewrite index_app_left in Hx by lia. exact Hx.
  - rewrite E3.
    replace (len a + 1 + len m + 1)
      with (len a + len (String o (m +:+ String cl ""))) by lia.
    apply sub_app_mid.
  - rewrite E4.
    replace (len a + 1 + len m + 1)
      with (len (a +:+ String o (m +:+ String cl "")))
      by (rewrite len_app; lia).
    apply sub_app_tail.
Qed.

Lemma closer_prev (a m b : string) (o cl : ascii) :
  no_byte backslash m = true → o ≠ backslash →
  ∃ c, index (a +:+ String o (m +:+ String cl b)) (len a + 1 + len m - 1)
       = Ok c ∧ c ≠ backslash.
Proof.
  intros Hm Ho.
  destruct (closer_position a m b o cl) as (Hlen & _ & Hin & _).
  pose proof (len_nonneg a). pose proof (len_nonneg m).
  pose proof (len_nonneg b).
  destruct (Z.eq_dec (len m) 0) as [E|E].
  - exists o. split; [|assumption].
    replace (len a + 1 + len m - 1) with (len a) by lia.
    apply index_app_at.
  - destruct (index_ok (a +:+ String o (m +:+ String cl b))
                (len a + 1 + len m - 1)) as [c Hc]; [lia|].
    exists c. split; [assumption|].
    apply Hin in Hc; [|lia]. now apply (no_byte_index _ _ _ _ Hm Hc).
Qed.

Lemma FindClosingBracket_found (a m b : string) :
  no_byte "]" m = true → no_byte backslash m = true →
  FindClosingBracket (a +:+ String "[" (m +:+ String "]" b)) (len a)
  = Ok (len a + 1 + len m).
Proof.
  intros Hcl Hbs. set (p := a +:+ String "[" (m +:+ String "]" b)).
  destruct (closer_position a m b "[" "]") as (Hlen & Hk & Hin & _).
  destruct (closer_prev a m b "[" "]" Hbs ltac:(discriminate))
    as (c & Hc & Hne).
  fold p in Hlen, Hk, Hin, Hc.
  pose proof (len_nonneg a). pose proof (len_nonneg m).
  pose proof (len_nonneg b).
  assert (Hcloses : closes_class p (len a) (len a + 1 + len m))
    by (split; [assumption|right; eauto]).
  unfold FindClosingBracket.
  destruct (FindClosingBracket_loop_first
              (Z.to_nat (len p - (len a + 1))) p (len a) (len a + 1))
    as (e & -> & [[_ Hno]|(He & [He1 _] & Hfirst)]); try lia.
  - destruct (Hno (len a + 1 + len m)); [lia|assumption].
  - f_equal. destruct (Z.lt_trichotomy e (len a + 1 + len m)) as [Hlt|[->|Hgt]];
      [|reflexivity|].
    + apply Hin in He1; [|lia].
      now destruct (no_byte_index _ _ _ _ Hcl He1).
    + destruct (Hfirst (len a + 1 + len m)); [lia|assumption].
Qed.

Lemma FindClosingCurlyBrace_found (a m b : string) :
  no_byte "}" m = true → no_byte backslash m = true →
  FindClosingCurlyBrace (a +:+ String "{" (m +:+ String "}" b)) (len a)
  = Ok (len a + 1 + len m).
Proof.
  intros Hcl Hbs. set (p := a +:+ String "{" (m +:+ String "}" b)).
  destruct (closer_position a m b "{" "}") as (Hlen & Hk & Hin & _).
  destruct (closer_prev a m b "{" "}" Hbs ltac:(discriminate))
    as (c & Hc & Hne).
  fold p in Hlen, Hk, Hin, Hc.
  pose proof (len_nonneg a). pose proof (len_nonneg m).
  pose proof (len_nonneg b).
  assert (Hcloses : closes_brace p (len a + 1 + len m))
    by (split; [assumption|eauto]).
  unfold FindClosingCurlyBrace.
  destruct (FindClosingCurlyBrace_loop_first
              (Z.to_nat (len p - (len a + 1))) p (len a + 1))
    as (e & -> & [[_ Hno]|(He & [He1 _] & Hfirst)]); try lia.
  - destruct (Hno (len a + 1 + len m)); [lia|assumption].
  - f_equal. destruct (Z.lt_trichotomy e (len a + 1 + len m)) as [Hlt|[->|Hgt]];
      [|reflexivity|].
    + apply Hin in He1; [|lia].
      now destruct (no_byte_index _ _ _ _ Hcl He1).
    + destruct (Hfirst (len a + 1 + len m)); [lia|assumption].
Qed.

(** One iteration on an opening bracket or brace whose scan finds the
    closer at [e]. *)
Lemma delimited_iteration (d : Dialect) (p : string) (o : ascii) (i e : Z)
  (T : list string) (r : string) :
  0 ≤ i → i < e < len p →
  (o = "["%char ∧ FindClosingBracket p i = Ok e)
  ∨ (o = "{"%char ∧ FindClosingCurlyBrace p i = Ok e) →
  loop_body d p o (mkSt i T r)
  = Ok (Continue (mkSt e (T ++ run r ++ [sub p i (e + 1)]) "")).
Proof.
  intros Hi He [[-> Hscan]|[-> Hscan]];
    assert (Hgt : (e >? i) = true) by (rewrite Z.gtb_ltb; apply Z.ltb_lt; lia);
    assert (Htok : slice p i (e + 1) = Ok (sub p i (e + 1)))
      by (apply slice_ok; lia);
    destruct d;
    unfold loop_body, GoFormat.body, PcreFormat.body, PosixFormat.body,
      JsFormat.body, PythonFormat.body, seq_block;
    rewrite ?Posix_class_block_eq by (cbn [idx]; lia);
    unfold char_class_block, class_scan, escape_block,
      PythonFormat.escape_block, brace_block, backslash;
    cbn [Ascii.eqb Bool.eqb andb orb bind];
    rewrite ?flush_mk; cbv zeta; cbn [idx]; rewrite ?Hscan; cbn [bind];
    rewrite ?Hgt, ?Htok; cbn [bind];
    unfold emit, goto; cbn [idx tokens cur]; rewrite <- ?app_assoc;
    reflexivity.
Qed.

(** X25: a bracket expression [[m]] or a repetition [{m}] whose content
    [m] holds neither the closer nor a backslash, between two runs of plain
    bytes, is one token in every dialect, whatever else [m] contains; the
    runs are the tokens around it. *)
Theorem tokenize_delimited_token (d : Dialect) (a m b : string)
  (o cl : ascii) :
  all_plain a = true → all_plain b = true →
  (o = "["%char ∧ cl = "]"%char) ∨ (o = "{"%char ∧ cl = "}"%char) →
  no_byte cl m = true → no_byte backslash m = true →
  has_envelope d (a +:+ String o (m +:+ String cl b)) = false →
  tokenize d (a +:+ String o (m +:+ String cl b))
  = Ok (run a ++ [String o (m +:+ String cl "")] ++ run b).
Proof.
  intros Ha Hb Ho Hcl Hbs Henv.
  set (p := a +:+ String o (m +:+ String cl b)).
  destruct (closer_position a m b o cl) as (Hlen & _ & _ & Htok & Hsub).
  fold p in Hlen, Htok, Hsub.
  pose proof (len_nonneg a) as Hla. pose proof (len_nonneg b) as Hlb.
  pose proof (len_nonneg m) as Hlm.
  assert (Hscan : (o = "["%char
                   ∧ FindClosingBracket p (len a) = Ok (len a + 1 + len m))
                  ∨ (o = "{"%char
                     ∧ FindClosingCurlyBrace p (len a)
                       = Ok (len a + 1 + len m))).
  { unfold p. destruct Ho as [[-> ->]|[-> ->]]; [left|right];
      (split; [reflexivity|]).
    - now apply FindClosingBracket_found.
    - now apply FindClosingCurlyBrace_found. }
  assert (Hpre : pre_pass d p = Ok ([], p)).
  { apply pre_pass_none; [assumption|]. intros c1 H0 _ _.
    destruct a as [|a0 a].
    - unfold p in H0. rewrite app_nil_l, index_String_0 in H0.
      destruct Ho as [[-> _]|[-> _]]; discriminate.
    - pose proof (all_plain_first _ _ _ Ha ltac:(discriminate) H0).
      discriminate. }
  rewrite tokenize_unfold. fold p. rewrite Hpre. cbn [bind fst snd].
  replace (String.length p)
    with (String.length a
          + S (String.length b + (String.length m + 1)))%nat
    by (unfold len in Hlen; lia).
  rewrite plain_run;
    [| lia | fold (len a); lia
     | rewrite Z.add_0_l; fold (len a); unfold p; now rewrite sub_app_head].
  rewrite !Z.add_0_l. fold (len a). unfold p at 2. rewrite sub_app_head.
  fold p. rewrite app_nil_l.
  cbn [tokenize_loop idx]. destruct (Z.ltb_spec (len a) (len p)); [|lia].
  unfold iteration. cbn [idx].
  assert (Hi : index p (len a) = Ok o) by apply index_app_at.
  rewrite Hi. cbn [bind].
  rewrite (delimited_iteration d p o (len a) (len a + 1 + len m))
    by (assumption || lia).
  cbn [bind]. unfold goto. cbn [idx tokens cur]. rewrite Htok.
  rewrite plain_run; fold (len b); try lia; [|now rewrite Hsub].
  rewrite Hsub, app_nil_l.
  replace (len a + 1 + len m + 1 + len b) with (len p) by lia.
  rewrite loop_end. cbn [app]. now rewrite <- app_assoc.
Qed.

Lemma tokenize_delimited_token_witness :
  tokenize Ecma "x[^a-z(]y" = Ok ["x"; "[^a-z(]"; "y"].
Proof.
  apply (tokenize_delimited_token Ecma "x" "^a-z(" "y" "[" "]");
    try reflexivity.
  left. split; reflexivity.
Defined.

(** One iteration on a simple quantifier that is followed by the byte
    [c]. *)
Lemma quantifier_iteration (d : Dialect) (p : string) (q c : ascii) (i : Z)
  (T : list string) (r : string) :
  0 ≤ i → is_quantifier q = true → index p (i + 1) = Ok c →
  loop_body d p q (mkSt i T r)
  = Ok (Continue
          (if absorbs d c then
             mkSt (i + 1) (T ++ run r ++ [String q (String c "")]) ""
           else mkSt i (T ++ run r ++ [String q ""]) "")).
Proof.
  intros Hi Hq Hc.
  pose proof (index_inv _ _ _ Hc) as [Hr _].
  assert (Hlt : (i + 1 <? len p) = true) by (apply Z.ltb_lt; lia).
  unfold is_quantifier in Hq. rewrite !orb_true_iff, !Ascii.eqb_eq in Hq.
  destruct Hq as [[-> | ->] | ->];
    destruct d;
    unfold loop_body, GoFormat.body, PcreFormat.body, PosixFormat.body,
      JsFormat.body, PythonFormat.body, seq_block, char_class_block,
      PosixFormat.char_class_block, escape_block, PythonFormat.escape_block,
      brace_block, plain_quantifier_block, suffix_quantifier_block,
      is_quantifier, backslash;
    cbn [Ascii.eqb Bool.eqb andb orb bind absorbs];
    rewrite ?flush_mk; cbv zeta; cbn [idx];
    rewrite ?Hlt, ?(index_eq_ok _ _ _ _ Hc); cbn [and_then bind];
    rewrite ?string_of_byte_ascii by reflexivity;
    try match goal with
        | |- context [Ascii.eqb c ?s] =>
          destruct (Ascii.eqb_spec c s) as [->|]
        end;
    unfold emit, goto; cbn [idx tokens cur]; rewrite <- ?app_assoc;
    reflexivity.
Qed.

(** X26: of two simple quantifiers in a row between runs of plain bytes,
    the second is taken into the token of the first exactly when it is the
    suffix of the dialect (['+'] in PCRE, ['?'] in ECMA and Python, none in
    the baseline and POSIX); otherwise each is a token of its own. *)
Theorem tokenize_double_quantifier (d : Dialect) (a b : string)
  (q1 q2 : ascii) :
  all_plain a = true → all_plain b = true →
  is_quantifier q1 = true → is_quantifier q2 = true →
  has_envelope d (a +:+ String q1 (String q2 b)) = false →
  tokenize d (a +:+ String q1 (String q2 b))
  = Ok (run a
        ++ (if absorbs d q2 then [String q1 (String q2 "")]
            else [String q1 ""; String q2 ""])
        ++ run b).
Proof.
  intros Ha Hb Hq1 Hq2 Henv. set (p := a +:+ String q1 (String q2 b)).
  pose proof (len_nonneg a) as Hla. pose proof (len_nonneg b) as Hlb.
  assert (Hlen : len p = len a + 2 + len b)
    by (unfold p; rewrite len_app, !len_String; lia).
  assert (Hi0 : index p (len a) = Ok q1) by apply index_app_at.
  assert (Hi1 : index p (len a + 1) = Ok q2).
  { unfold p. rewrite index_app_right by lia. change 1 with (0 + 1).
    rewrite index_String_S by lia. apply index_String_0. }
  assert (Hq1' : q1 ≠ "("%char).
  { intros ->. discriminate. }
  assert (Hpre : pre_pass d p = Ok ([], p)).
  { apply pre_pass_none; [assumption|]. intros c1 H0 _ _.
    destruct a as [|a0 a].
    - unfold p in H0. rewrite app_nil_l, index_String_0 in H0. congruence.
    - pose proof (all_plain_first _ _ _ Ha ltac:(discriminate) H0).
      discriminate. }
  assert (Hsub : sub p (len a + 1 + 1) (len a + 1 + 1 + len b) = b).
  { unfold p.
    replace (a +:+ String q1 (String q2 b))
      with ((a +:+ String q1 (String q2 "")) +:+ b)
      by (rewrite app_assoc_s; reflexivity).
    replace (len a + 1 + 1) with (len (a +:+ String q1 (String q2 "")))
      by (rewrite len_app, !len_String, len_empty; lia).
    apply sub_app_tail. }
  rewrite tokenize_unfold. fold p. rewrite Hpre. cbn [bind fst snd].
  replace (String.length p)
    with (String.length a + S (S (String.length b + 0)))%nat
    by (unfold len in Hlen; lia).
  rewrite plain_run;
    [| lia | fold (len a); lia
     | rewrite Z.add_0_l; fold (len a); unfold p; now rewrite sub_app_head].
  rewrite !Z.add_0_l. fold (len a). unfold p at 2. rewrite sub_app_head.
  fold p. rewrite app_nil_l. set (fuel := S (String.length b + 0)).
  cbn [tokenize_loop idx]. destruct (Z.ltb_spec (len a) (len p)); [|lia].
  unfold iteration. cbn [idx]. rewrite Hi0. cbn [bind].
  rewrite (quantifier_iteration d p q1 q2) by (assumption || lia).
  cbn [bind]. destruct (absorbs d q2); unfold goto; cbn [idx tokens cur].
  - replace fuel with (String.length b + 1)%nat by (unfold fuel; lia).
    rewrite plain_run; fold (len b); try lia; [|now rewrite Hsub].
    rewrite Hsub, app_nil_l.
    replace (len a + 1 + 1 + len b) with (len p) by lia.
    rewrite loop_end. cbn [app]. now rewrite <- app_assoc.
  - unfold fuel. cbn [tokenize_loop idx].
    destruct (Z.ltb_spec (len a + 1) (len p)); [|lia].
    unfold iteration. cbn [idx]. rewrite Hi1. cbn [bind].
    rewrite metachar_iteration; [|lia| |].
    + cbn [bind]. unfold goto. cbn [idx tokens cur].
      rewrite plain_run; fold (len b); try lia; [|now rewrite Hsub].
      rewrite Hsub, app_nil_l.
      replace (len a + 1 + 1 + len b) with (len p) by lia.
      rewrite loop_end. cbn [app]. rewrite <- !app_assoc. reflexivity.
    + unfold is_metachar. now rewrite Hq2.
    + apply (next_plain_run a b (len a + 1) (String q1 (String q2 "")));
        auto; rewrite !len_String, len_empty; lia.
Qed.

Lemma tokenize_double_quantifier_witness :
  tokenize Pcre "a*+b" = Ok ["a"; "*+"; "b"]
  ∧ tokenize Posix "a*+b" = Ok ["a"; "*"; "+"; "b"].
Proof.
  split.
  - apply (tokenize_double_quantifier Pcre "a" "b" "*" "+"); reflexivity.
  - apply (tokenize_double_quantifier Posix "a" "b" "*" "+"); reflexivity.
Defined.

(** *** Group headers and the feature tables *)

Lemma Python_strip_no_flags (p : string) :
  has_envelope Python p = false →
  (∀ c, index p 2 = Ok c → PythonFormat.is_flag_letter c = false) →
  PythonFormat.strip p = Ok ([], p).
Proof.
  intros Henv Hc2. unfold PythonFormat.strip.
  rewrite (Python_strip_raw_none p Henv). cbn [bind fst snd].
  unfold PythonFormat.strip_flags.
  destruct (Z.gtb_spec (len p) 2); cbn [and_then bind]; [|reflexivity].
  destruct (index_ok p 0) as [c0 Hi0]; [lia|].
  destruct (index_ok p 1) as [c1 Hi1]; [lia|].
  destruct (index_ok p 2) as [c2 Hi2]; [lia|].
  rewrite (index_eq_ok _ _ _ _ Hi0), (index_eq_ok _ _ _ _ Hi1).
  cbn [bind].
  destruct (Ascii.eqb c0 "("); [|reflexivity].
  destruct (Ascii.eqb c1 "?"); [|reflexivity].
  destruct (Z.gtb_spec (IndexByte p ")") 2); [|reflexivity].
  destruct (Z.to_nat (IndexByte p ")" - 2)) as [|n] eqn:E; [lia|].
  cbn [PythonFormat.all_flags]. rewrite Hi2. cbn [bind].
  now rewrite (Hc2 _ Hi2).
Qed.

Lemma pre_pass_header (d : Dialect) (a rest : string) (h0 : ascii) :
  all_plain a = true → PythonFormat.is_flag_letter h0 = false →
  has_envelope d (a +:+ String "(" (String "?" (String h0 rest))) = false →
  pre_pass d (a +:+ String "(" (String "?" (String h0 rest)))
  = Ok ([], a +:+ String "(" (String "?" (String h0 rest))).
Proof.
  intros Ha Hh Henv. destruct a as [|a0 a].
  - rewrite app_nil_l in *. destruct d; cbn [pre_pass]; try reflexivity.
    + now apply Js_strip_none.
    + apply Python_strip_no_flags; [assumption|]. intros c Hc.
      change 2 with (0 + 1 + 1) in Hc.
      rewrite !index_String_S, index_String_0 in Hc by lia.
      now injection Hc as <-.
  - apply pre_pass_none; [assumption|]. intros c1 H0 _ _.
    pose proof (all_plain_first _ _ _ Ha ltac:(discriminate) H0).
    discriminate.
Qed.

Lemma lookaround_cases (h : string) :
  lookaround h = true → h = "!" ∨ h = "<=" ∨ h = "<!".
Proof.
  unfold lookaround. rewrite !orb_true_iff, !String.eqb_eq. tauto.
Qed.

(** One iteration of the PCRE, ECMA and Python loops on the ['('] of
    [(?!], [(?<=] or [(?<!]. *)
Lemma lookaround_iteration (d : Dialect) (p h : string) (i : Z)
  (T : list string) (r : string) :
  0 ≤ i → d = Pcre ∨ d = Ecma ∨ d = Python → lookaround h = true →
  i + 2 + len h ≤ len p → sub p i (i + 2 + len h) = "(?" +:+ h →
  loop_body d p "("%char (mkSt i T r)
  = Ok (Continue (mkSt (i + 1 + len h) (T ++ run r ++ ["(?" +:+ h]) "")).
Proof.
  intros Hi Hd Hh Hlen Hsub.
  assert (Hix : ∀ m, 0 ≤ m < 2 + len h →
                     index p (i + m) = index ("(?" +:+ h) m).
  { intros m Hm. rewrite <- Hsub. symmetry. apply index_sub; lia. }
  apply lookaround_cases in Hh as [-> | [-> | ->]].
  all: pose proof (Hix 1 ltac:(unfold len; cbn; lia)) as H1;
    pose proof (Hix 2 ltac:(unfold len; cbn; lia)) as H2;
    try pose proof (Hix 3 ltac:(unfold len; cbn; lia)) as H3;
    unfold len in Hlen; cbn in Hlen; fold (len p) in Hlen;
    assert (Hlt2 : (i + 2 <? len p) = true) by (apply Z.ltb_lt; lia);
    try assert (Hlt3 : (i + 3 <? len p) = true) by (apply Z.ltb_lt; lia).
  all: change (index ("(?" +:+ _) 1) with (Ok "?"%char) in H1.
  1: change (index ("(?" +:+ "!") 2) with (Ok "!"%char) in H2.
  2-3: change (index ("(?" +:+ _) 2) with (Ok "<"%char) in H2.
  2: change (index ("(?" +:+ "<=") 3) with (Ok "="%char) in H3.
  3: change (index ("(?" +:+ "<!") 3) with (Ok "!"%char) in H3.
  all: destruct Hd as [-> | [-> | ->]];
    unfold loop_body, PcreFormat.body, JsFormat.body, PythonFormat.body,
      seq_block, char_class_block, escape_block, PythonFormat.escape_block,
      brace_block, suffix_quantifier_block, PcreFormat.group_block,
      JsFormat.group_block, PythonFormat.group_block, PcreFormat.angle_case,
      is_quantifier, backslash;
    cbn [Ascii.eqb Bool.eqb andb orb bind];
    rewrite ?flush_mk; cbv zeta; cbn [idx];
    rewrite ?Hlt2, ?(index_eq_ok _ _ _ _ H1), ?H2;
    cbn [and_then bind Ascii.eqb Bool.eqb];
    rewrite ?H2; cbn [and_then bind Ascii.eqb Bool.eqb];
    rewrite ?Hlt3, ?H3; cbn [bind Ascii.eqb Bool.eqb];
    unfold header, emit, goto; cbn [idx tokens cur];
    rewrite <- ?app_assoc; do 2 f_equal; f_equal; try reflexivity;
    unfold len; cbn [String.length]; lia.
Qed.

(** One iteration of the baseline and POSIX loops on the ['('] of a header
    they do not know. *)
Lemma bare_open_iteration (d : Dialect) (p : string) (h0 : ascii) (i : Z)
  (T : list string) (r : string) :
  0 ≤ i → d = Baseline ∨ d = Posix →
  index p (i + 1) = Ok "?"%char → index p (i + 2) = Ok h0 →
  h0 = "!"%char ∨ h0 = "<"%char →
  loop_body d p "("%char (mkSt i T r)
  = Ok (Continue (mkSt i (T ++ run r ++ ["("]) "")).
Proof.
  intros Hi Hd H1 H2 Hh.
  pose proof (index_inv _ _ _ H2) as [Hr _].
  assert (Hlt2 : (i + 2 <? len p) = true) by (apply Z.ltb_lt; lia).
  destruct Hh as [-> | ->]; destruct Hd as [-> | ->];
    unfold loop_body, GoFormat.body, PosixFormat.body, seq_block;
    rewrite ?Posix_class_block_eq by (cbn [idx]; lia);
    unfold char_class_block, escape_block, brace_block,
      plain_quantifier_block, GoFormat.group_block, PosixFormat.group_block,
      single_block, is_quantifier, backslash;
    cbn [Ascii.eqb Bool.eqb andb orb bind];
    rewrite ?flush_mk; cbv zeta; cbn [idx];
    rewrite ?Hlt2, ?(index_eq_ok _ _ _ _ H1), ?H2;
    cbn [and_then bind Ascii.eqb Bool.eqb];
    rewrite ?H2; cbn [and_then bind Ascii.eqb Bool.eqb];
    rewrite ?string_of_byte_ascii by reflexivity;
    unfold emit; cbn [idx tokens cur]; rewrite <- ?app_assoc; reflexivity.
Qed.

Lemma all_plain_app (s t : string) :
  all_plain s = true → all_plain t = true → all_plain (s +:+ t) = true.
Proof.
  intros Hs Ht. induction s as [|c s IH]; [now rewrite app_nil_l|].
  apply all_plain_cons in Hs as [Hc Hs]. rewrite app_cons.
  apply all_plain_cons. auto.
Qed.

(** X27: the headers [(?!], [(?<=] and [(?<!], between two runs of plain
    bytes, are one token in exactly the dialects whose feature table lists
    lookbehind (PCRE, ECMA, Python).  The baseline and POSIX tokenizers
    split them into [(], [?] and a literal run; for the baseline this
    includes the negative lookahead [(?!], although its feature table lists
    lookahead as supported. *)
Theorem tokenize_lookaround_header (d : Dialect) (a b h : string) :
  all_plain a = true → all_plain b = true → lookaround h = true →
  has_envelope d (a +:+ "(?" +:+ h +:+ b) = false →
  tokenize d (a +:+ "(?" +:+ h +:+ b)
  = Ok (run a
        ++ (if hasFeature d FeatureLookbehind then ["(?" +:+ h] ++ run b
            else ["("; "?"; h +:+ b])).
Proof.
  intros Ha Hb Hh Henv. set (p := a +:+ "(?" +:+ h +:+ b).
  pose proof (len_nonneg a) as Hla. pose proof (len_nonneg b) as Hlb.
  pose proof (len_nonneg h) as Hlh.
  assert (Hh' := Hh). apply lookaround_cases in Hh'.
  assert (Hlen : len p = len a + 2 + len h + len b).
  { unfold p. rewrite !len_app. change (len "(?") with 2. lia. }
  assert (Hplain : all_plain h = true)
    by (destruct Hh' as [-> | [-> | ->]]; reflexivity).
  assert (Hh0 : ∃ h0 h', h = String h0 h'
                         ∧ (h0 = "!"%char ∨ h0 = "<"%char)).
  { destruct Hh' as [-> | [-> | ->]]; eauto. }
  destruct Hh0 as (h0 & h' & Eh & Hh0).
  assert (Ep : p = a +:+ String "(" (String "?" (String h0 (h' +:+ b)))).
  { unfold p. rewrite Eh. reflexivity. }
  assert (Hpre : pre_pass d p = Ok ([], p)).
  { rewrite Ep in *. apply pre_pass_header; [assumption| |].
    - destruct Hh0 as [-> | ->]; reflexivity.
    - unfold p in Henv. rewrite Eh in Henv. exact Henv. }
  assert (Hi0 : index p (len a) = Ok "("%char)
    by (rewrite Ep; apply index_app_at).
  assert (Hi1 : index p (len a + 1) = Ok "?"%char).
  { rewrite Ep, index_app_right by lia. change 1 with (0 + 1).
    rewrite index_String_S by lia. apply index_String_0. }
  assert (Hi2 : index p (len a + 2) = Ok h0).
  { rewrite Ep, index_app_right by lia. change 2 with (0 + 1 + 1).
    rewrite !index_String_S by lia. apply index_String_0. }
  assert (Hhdr : sub p (len a) (len a + 2 + len h) = "(?" +:+ h).
  { unfold p.
    replace (a +:+ "(?" +:+ h +:+ b) with (a +:+ ("(?" +:+ h) +:+ b)
      by (now rewrite !app_assoc_s).
    replace (len a + 2 + len h) with (len a + len ("(?" +:+ h))
      by (rewrite len_app; change (len "(?") with 2; lia).
    apply sub_app_mid. }
  assert (Hb' : sub p (len a + 2 + len h) (len a + 2 + len h + len b) = b).
  { unfold p.
    replace (a +:+ "(?" +:+ h +:+ b) with ((a +:+ "(?" +:+ h) +:+ b)
      by (now rewrite !app_assoc_s).
    replace (len a + 2 + len h) with (len (a +:+ "(?" +:+ h))
      by (rewrite !len_app; change (len "(?") with 2; lia).
    apply sub_app_tail. }
  assert (Hhb : sub p (len a + 2) (len a + 2 + len (h +:+ b)) = h +:+ b).
  { unfold p.
    replace (a +:+ "(?" +:+ h +:+ b) with ((a +:+ "(?") +:+ h +:+ b)
      by (now rewrite !app_assoc_s).
    replace (len a + 2) with (len (a +:+ "(?"))
      by (rewrite !len_app; change (len "(?") with 2; lia).
    apply sub_app_tail. }
  rewrite tokenize_unfold. fold p. rewrite Hpre. cbn [bind fst snd].
  assert (Hd : (hasFeature d FeatureLookbehind = true
                ∧ (d = Pcre ∨ d = Ecma ∨ d = Python))
               ∨ (hasFeature d FeatureLookbehind = false
                  ∧ (d = Baseline ∨ d = Posix)))
    by (destruct d; vm_compute; tauto).
  destruct Hd as [[-> Hd] | [-> Hd]].
  - replace (String.length p)
      with (String.length a
            + S (String.length b + (1 + String.length h)))%nat
      by (unfold len in Hlen; lia).
    rewrite plain_run;
      [| lia | fold (len a); lia
       | rewrite Z.add_0_l; fold (len a); unfold p; now rewrite sub_app_head].
    rewrite !Z.add_0_l. fold (len a). unfold p at 2. rewrite sub_app_head.
    fold p. rewrite app_nil_l.
    cbn [tokenize_loop idx]. destruct (Z.ltb_spec (len a) (len p)); [|lia].
    unfold iteration. cbn [idx]. rewrite Hi0. cbn [bind].
    rewrite (lookaround_iteration d p h) by (assumption || lia).
    cbn [bind]. unfold goto. cbn [idx tokens cur].
    replace (len a + 1 + len h + 1) with (len a + 2 + len h) by lia.
    rewrite plain_run; fold (len b); try lia; [|now rewrite Hb'].
    rewrite Hb', app_nil_l.
    replace (len a + 2 + len h + len b) with (len p) by lia.
    rewrite loop_end. cbn [app]. now rewrite <- app_assoc.
  - replace (String.length p)
      with (String.length a + S (S (String.length (h +:+ b) + 0)))%nat
      by (pose proof (len_app h b) as E; unfold len in Hlen, E; lia).
    rewrite plain_run;
      [| lia | fold (len a); lia
       | rewrite Z.add_0_l; fold (len a); unfold p; now rewrite sub_app_head].
    rewrite !Z.add_0_l. fold (len a). unfold p at 2. rewrite sub_app_head.
    fold p. rewrite app_nil_l.
    cbn [tokenize_loop idx]. destruct (Z.ltb_spec (len a) (len p)); [|lia].
    unfold iteration. cbn [idx]. rewrite Hi0. cbn [bind].
    rewrite (bare_open_iteration d p h0) by (assumption || lia).
    cbn [bind]. unfold goto. cbn [idx tokens cur].
    destruct (Z.ltb_spec (len a + 1) (len p)); [|lia].
    rewrite Hi1. cbn [bind].
    rewrite (quantifier_iteration d p "?" h0);
      [|lia|reflexivity
       |now replace (len a + 1 + 1) with (len a + 2) by lia].
    replace (absorbs d h0) with false
      by (destruct Hd as [-> | ->]; reflexivity).
    cbn [bind idx tokens cur].
    replace (len a + 1 + 1) with (len a + 2) by lia.
    rewrite plain_run; fold (len (h +:+ b));
      [| lia | rewrite len_app; lia
       | rewrite Hhb; now apply all_plain_app].
    rewrite Hhb, app_nil_l.
    replace (len a + 2 + len (h +:+ b)) with (len p)
      by (rewrite len_app; lia).
    rewrite loop_end. cbn [app]. rewrite <- !app_assoc. cbn [app].
    do 4 f_equal. unfold run. rewrite Eh, app_cons, len_String.
    pose proof (len_nonneg (h' +:+ b)).
    destruct (Z.ltb_spec 0 (1 + len (h' +:+ b))); [reflexivity|lia].
Qed.

Lemma tokenize_lookaround_header_witness :
  tokenize Baseline "a(?!b" = Ok ["a"; "("; "?"; "!b"]
  ∧ tokenize Pcre "a(?<=b" = Ok ["a"; "(?<="; "b"].
Proof.
  split.
  - apply (tokenize_lookaround_header Baseline "a" "b" "!"); reflexivity.
  - apply (tokenize_lookaround_header Pcre "a" "b" "<="); reflexivity.
Defined.

(** *** The inline flags and the raw-string marker of Python *)

Lemma all_flag_letters_cons (c : ascii) (f : string) :
  all_flag_letters (String c f) = true
  ↔ PythonFormat.is_flag_letter c = true ∧ all_flag_letters f = true.
Proof.
  unfold all_flag_letters. cbn [list_ascii_of_string forallb].
  now rewrite andb_true_iff.
Qed.

Lemma flag_letters_no_paren (f : string) :
  all_flag_letters f = true → no_byte ")" f = true.
Proof.
  induction f as [|c f IH]; intros H; [reflexivity|].
  apply all_flag_letters_cons in H as [Hc H]. apply no_byte_cons.
  split; [|auto]. intros ->. discriminate.
Qed.

Lemma all_flags_true (f a b : string) :
  all_flag_letters f = true →
  PythonFormat.all_flags (String.length f) (a +:+ f +:+ b) (len a) = Ok true.
Proof.
  revert a. induction f as [|c f IH]; intros a H; [reflexivity|].
  apply all_flag_letters_cons in H as [Hc H].
  cbn [String.length PythonFormat.all_flags].
  rewrite app_cons, index_app_at. cbn [bind]. rewrite Hc. cbn [negb].
  replace (a +:+ String c (f +:+ b)) with ((a +:+ String c "") +:+ f +:+ b)
    by (rewrite app_assoc_s; reflexivity).
  replace (len a + 1) with (len (a +:+ String c ""))
    by (rewrite len_app, len_String, len_empty; lia).
  now apply IH.
Qed.

Lemma Python_strip_none (p : string) :
  has_envelope Python p = false → HasPrefix p "(?" = false →
  PythonFormat.strip p = Ok ([], p).
Proof.
  intros Henv Hp. apply (pre_pass_none Python p Henv).
  intros c1 H0 H1 ->.
  destruct p as [|c0 [|c1 p]].
  - discriminate.
  - apply index_inv in H1 as [H1 _]. rewrite len_String, len_empty in H1.
    lia.
  - rewrite index_String_0 in H0. injection H0 as ->.
    change 1 with (0 + 1) in H1.
    rewrite index_String_S, index_String_0 in H1 by lia.
    injection H1 as ->.
    rewrite !HasPrefix_cons, HasPrefix_nil in Hp. discriminate Hp.
Qed.

(** X28: a group [(?flags)] of one or more inline-flag letters ([a], [i],
    [L], [m], [s], [u], [x]) at the very beginning of the pattern is split
    off by the Python tokenizer as its first token, the rest being
    tokenized as it is when given alone, and the Python explainer hands
    the letters of that token to [explainPythonFlags]. *)
Theorem Python_inline_flags (flags rest : string) :
  all_flag_letters flags = true → flags ≠ "" →
  has_envelope Python rest = false → HasPrefix rest "(?" = false →
  PythonFormat.TokenizeRegex ("(?" +:+ flags +:+ ")" +:+ rest)
  = (let* toks := PythonFormat.TokenizeRegex rest in
     Ok (("(?" +:+ flags +:+ ")") :: toks))
  ∧ PythonFormat.ExplainToken ("(?" +:+ flags +:+ ")")
    = Ok (PythonFormat.explainPythonFlags flags).
Proof.
  intros Hf Hne Henv Hrest. apply nonempty_len in Hne.
  pose proof (len_nonneg rest) as Hlr.
  split.
  - set (p := "(?" +:+ flags +:+ ")" +:+ rest).
    assert (Hlen : len p = 2 + len flags + 1 + len rest).
    { unfold p. rewrite !len_app. change (len "(?") with 2.
      change (len ")") with 1. lia. }
    assert (Hi0 : index p 0 = Ok "("%char) by apply index_String_0.
    assert (Hi1 : index p 1 = Ok "?"%char).
    { unfold p. change 1 with (0 + 1).
      change ("(?" +:+ flags +:+ ")" +:+ rest)
        with (String "(" (String "?" (flags +:+ ")" +:+ rest))).
      rewrite index_String_S by lia. apply index_String_0. }
    assert (Hend : IndexByte p ")" = 2 + len flags).
    { unfold IndexByte, p.
      replace ("(?" +:+ flags +:+ ")" +:+ rest)
        with (("(?" +:+ flags) +:+ String ")" rest)
        by (rewrite !app_assoc_s; reflexivity).
      rewrite IndexByte_from_first.
      - rewrite len_app. change (len "(?") with 2. lia.
      - change ("(?" +:+ flags) with (String "(" (String "?" flags)).
        apply no_byte_cons. split; [discriminate|].
        apply no_byte_cons. split; [discriminate|].
        now apply flag_letters_no_paren. }
    assert (Htok : sub p 0 (2 + len flags + 1) = "(?" +:+ flags +:+ ")").
    { unfold p.
      replace ("(?" +:+ flags +:+ ")" +:+ rest)
        with (("(?" +:+ flags +:+ ")") +:+ rest)
        by (now rewrite !app_assoc_s).
      replace (2 + len flags + 1) with (len ("(?" +:+ flags +:+ ")"))
        by (rewrite !len_app; change (len "(?") with 2;
            change (len ")") with 1; lia).
      apply sub_app_head. }
    assert (Hrem : sub p (2 + len flags + 1) (len p) = rest).
    { rewrite Hlen. unfold p.
      replace ("(?" +:+ flags +:+ ")" +:+ rest)
        with (("(?" +:+ flags +:+ ")") +:+ rest)
        by (now rewrite !app_assoc_s).
      replace (2 + len flags + 1) with (len ("(?" +:+ flags +:+ ")"))
        by (rewrite !len_app; change (len "(?") with 2;
            change (len ")") with 1; lia).
      apply sub_app_tail. }
    assert (Hstrip : PythonFormat.strip p
                     = Ok (["(?" +:+ flags +:+ ")"], rest)).
    { unfold PythonFormat.strip.
      rewrite (Python_strip_raw_none p) by reflexivity.
      cbn [bind fst snd]. unfold PythonFormat.strip_flags.
      destruct (Z.gtb_spec (len p) 2); [|lia]. cbn [and_then bind].
      rewrite (index_eq_ok _ _ _ _ Hi0), (index_eq_ok _ _ _ _ Hi1).
      cbn [bind Ascii.eqb Bool.eqb]. rewrite Hend.
      destruct (Z.gtb_spec (2 + len flags) 2); [|lia].
      replace (Z.to_nat (2 + len flags - 2)) with (String.length flags)
        by (unfold len; lia).
      change 2 with (len "(?") at 1. unfold p.
      rewrite (all_flags_true flags "(?" (")" +:+ rest) Hf).
      cbn [bind]. fold p.
      rewrite slice_ok, slice_from_ok by lia. cbn [bind app].
      now rewrite Htok, Hrem. }
    unfold PythonFormat.TokenizeRegex. fold p. rewrite Hstrip.
    rewrite (Python_strip_none rest Henv Hrest). cbn [bind fst snd].
    rewrite (tokenize_loop_from PythonFormat.body _ rest
               appends_only_Python_body).
    destruct (tokenize_loop PythonFormat.body (String.length rest) rest
                (mkSt 0 [] "")) as [l| |]; reflexivity.
  - set (token := "(?" +:+ flags +:+ ")").
    assert (Hlen : len token = 2 + len flags + 1).
    { unfold token. rewrite !len_app. change (len "(?") with 2.
      change (len ")") with 1. lia. }
    assert (Hs : HasSuffix token ")" = true).
    { unfold token. rewrite <- app_assoc_s. apply HasSuffix_app. }
    assert (Hsl : sub token 2 (len token - 1) = flags).
    { rewrite Hlen. replace (2 + len flags + 1 - 1) with (len "(?" + len flags)
        by (change (len "(?") with 2; lia).
      change 2 with (len "(?"). apply sub_app_mid. }
    unfold PythonFormat.ExplainToken. rewrite Hs.
    change token with (String "(" (String "?" (flags +:+ ")"))) at 1 2 3 4 5.
    rewrite !HasPrefix_cons, !HasPrefix_nil.
    cbn [Ascii.eqb Bool.eqb andb orb]. fold token.
    destruct (Z.gtb_spec (len token) 3); [|lia].
    replace (Z.to_nat (len token - 1 - 2)) with (String.length flags)
      by (unfold len in *; lia).
    change 2 with (len "(?") at 1. unfold token.
    rewrite (all_flags_true flags "(?" ")" Hf). cbn [bind]. fold token.
    rewrite slice_ok by lia. cbn [bind]. now rewrite Hsl.
Qed.

Lemma Python_inline_flags_witness :
  PythonFormat.TokenizeRegex "(?im)a+" = Ok ["(?im)"; "a"; "+"]
  ∧ PythonFormat.ExplainToken "(?im)"
    = Ok "Flags: i: Case-insensitive matching, m: Multi-line matching - ^ and $ match at line breaks".
Proof.
  apply (Python_inline_flags "im" "a+"); [reflexivity|discriminate| |];
    reflexivity.
Defined.

(** X29: the Python explainer takes every token that begins with [r'],
    [r"], [R'] or [R"] for the raw-string marker, and the Python tokenizer
    emits such tokens for literal text of the pattern body as well: in
    [(r'...], where the marker does not stand at the beginning, the literal
    run [r'...] is one token, and it is explained as the marker. *)
Theorem Python_raw_marker_literal (r q : ascii) (t : string) :
  r = "r"%char ∨ r = "R"%char → q = "'"%char ∨ q = dquote →
  all_plain t = true →
  PythonFormat.TokenizeRegex (String "(" (String r (String q t)))
  = Ok ["("; String r (String q t)]
  ∧ PythonFormat.ExplainToken (String r (String q t))
    = Ok "Raw string marker - backslashes are treated literally".
Proof.
  intros Hr Hq Ht. set (b := String r (String q t)).
  set (p := String "(" b).
  pose proof (len_nonneg t) as Hlt.
  assert (Hb : all_plain b = true).
  { unfold b. apply all_plain_cons. split.
    - destruct Hr as [-> | ->]; reflexivity.
    - apply all_plain_cons. split; [|assumption].
      destruct Hq as [-> | ->]; reflexivity. }
  assert (Hlen : len p = 1 + len b) by apply len_String.
  assert (Hlb : len b = 2 + len t)
    by (unfold b; rewrite !len_String; lia).
  assert (Hi1 : index p 1 = Ok r).
  { unfold p, b. change 1 with (0 + 1). rewrite index_String_S by lia.
    apply index_String_0. }
  split.
  - change (PythonFormat.TokenizeRegex p) with (tokenize Python p).
    rewrite tokenize_unfold.
    rewrite (pre_pass_none Python p); [|reflexivity|].
    2:{ intros c1 _ H1 ->. rewrite Hi1 in H1. injection H1 as ->.
        destruct Hr; discriminate. }
    cbn [bind fst snd].
    change (String.length p) with (S (String.length b)).
    set (fuel := String.length b).
    cbn [tokenize_loop idx]. destruct (Z.ltb_spec 0 (len p)); [|lia].
    unfold iteration. cbn [idx].
    change (index p 0) with (Ok "("%char). cbn [bind].
    rewrite metachar_iteration; [|lia|reflexivity|].
    2:{ intros c Hc. change (0 + 1) with 1 in Hc. rewrite Hi1 in Hc.
        injection Hc as <-. unfold b in Hb.
        now apply all_plain_cons in Hb as [Hb _]. }
    cbn [bind]. unfold goto. cbn [idx tokens cur app].
    assert (Hsub : sub p (0 + 1) (0 + 1 + Z.of_nat (String.length b)) = b).
    { fold (len b). change (0 + 1) with 1.
      replace (1 + len b) with (len p) by lia. apply sub_tail. }
    replace fuel with (String.length b + 0)%nat by (unfold fuel; lia).
    rewrite plain_run; fold (len b); try lia;
      [|fold (len b) in Hsub; now rewrite Hsub].
    fold (len b) in Hsub. rewrite Hsub, app_nil_l.
    replace (0 + 1 + len b) with (len p) by lia.
    rewrite loop_end. reflexivity.
  - unfold PythonFormat.ExplainToken, b.
    rewrite !HasPrefix_cons, !HasPrefix_nil.
    destruct Hr as [-> | ->], Hq as [-> | ->]; reflexivity.
Qed.

Lemma Python_raw_marker_literal_witness :
  PythonFormat.TokenizeRegex "(r'x" = Ok ["("; "r'x"]
  ∧ PythonFormat.ExplainToken "r'x"
    = Ok "Raw string marker - backslashes are treated literally".
Proof.
  apply (Python_raw_marker_literal "r" "'" "x");
    [left; reflexivity | left; reflexivity | reflexivity].
Defined.

(** *** The hex escape of Python *)

(** One iteration of the Python loop on the backslash of [\x] followed by
    [k] hex digits, where the scan for hex digits stops. *)
Lemma hex_escape_iteration (p : string) (i k : Z) (T : list string)
  (r : string) :
  0 ≤ i → index p i = Ok backslash → index p (i + 1) = Ok "x"%char →
  0 ≤ k ≤ 2 → i + 2 + k ≤ len p →
  (∀ j, i + 2 ≤ j < i + 2 + k →
        ∃ c, index p j = Ok c ∧ isHexDigit c = true) →
  (k = 2 ∨ i + 2 + k = len p
   ∨ ∃ c, index p (i + 2 + k) = Ok c ∧ isHexDigit c = false) →
  loop_body Python p backslash (mkSt i T r)
  = Ok (Continue (mkSt (i + 1 + k)
                    (T ++ run r ++ [sub p i (i + 2 + k)]) "")).
Proof.
  intros Hi H0 H1 Hk Hlen Hhex Hstop.
  pose proof (index_inv _ _ _ H1) as [Hr _].
  assert (Hlt : (i + 1 <? len p) = true) by (apply Z.ltb_lt; lia).
  unfold loop_body, PythonFormat.body, seq_block, char_class_block,
    PythonFormat.escape_block.
  change (Ascii.eqb backslash "[") with false. cbn [bind].
  rewrite Ascii.eqb_refl. cbn [idx]. rewrite Hlt. cbn [andb].
  rewrite flush_mk. cbv zeta. cbn [idx].
  rewrite !(index_eq_ok _ _ _ _ H1). cbn [Ascii.eqb Bool.eqb].
  destruct (Z.ltb_spec (i + 2) (len p)) as [Hmore|Hend];
    cbn [and_then bind].
  - assert (Hscan :
      PythonFormat.hex_scan
        (Z.to_nat ((if i + 4 >? len p then len p else i + 4) - (i + 2)))
        p (i + 2) (if i + 4 >? len p then len p else i + 4)
      = Ok (i + 2 + k)).
    { assert (Hk' : k = 0 ∨ k = 1 ∨ k = 2) by lia.
      destruct (Z.gtb_spec (i + 4) (len p)).
      - replace (Z.to_nat (len p - (i + 2))) with 1%nat by lia.
        cbn [PythonFormat.hex_scan]. unfold PythonFormat.is_hex_at.
        destruct Hk' as [-> | [-> | ->]]; [| |lia].
        + destruct Hstop as [?|[?|(c & Hc & Hnh)]]; try lia.
          rewrite Z.add_0_r in *. rewrite Hc. cbn [bind]. now rewrite Hnh.
        + destruct (Hhex (i + 2) ltac:(lia)) as (c & Hc & Hh).
          rewrite Hc. cbn [bind]. rewrite Hh. cbn [negb]. f_equal. lia.
      - replace (Z.to_nat (i + 4 - (i + 2))) with 2%nat by lia.
        cbn [PythonFormat.hex_scan]. unfold PythonFormat.is_hex_at.
        destruct Hk' as [-> | [-> | ->]].
        + destruct Hstop as [?|[?|(c & Hc & Hnh)]]; try lia.
          rewrite Z.add_0_r in *. rewrite Hc. cbn [bind]. now rewrite Hnh.
        + destruct (Hhex (i + 2) ltac:(lia)) as (c & Hc & Hh).
          rewrite Hc. cbn [bind]. rewrite Hh. cbn [negb].
          destruct Hstop as [?|[?|(c' & Hc' & Hnh)]]; try lia.
          rewrite Hc'. cbn [bind]. now rewrite Hnh.
        + destruct (Hhex (i + 2) ltac:(lia)) as (c & Hc & Hh).
          destruct (Hhex (i + 2 + 1) ltac:(lia)) as (c' & Hc' & Hh').
          rewrite Hc. cbn [bind]. rewrite Hh. cbn [negb].
          rewrite Hc'. cbn [bind]. rewrite Hh'. cbn [negb]. f_equal. lia. }
    rewrite Hscan. cbn [bind]. rewrite slice_ok by lia. cbn [bind].
    unfold emit, goto. cbn [idx tokens cur]. rewrite <- app_assoc.
    do 2 f_equal. f_equal. lia.
  - assert (k = 0) as -> by lia.
    rewrite slice_ok by lia. cbn [bind]. unfold emit, goto.
    cbn [idx tokens cur]. rewrite <- app_assoc, !Z.add_0_r. reflexivity.
Qed.

Lemma forallb_index (f : ascii → bool) (s : string) (j : Z) (c : ascii) :
  forallb f (list_ascii_of_string s) = true → index s j = Ok c → f c = true.
Proof.
  intros Hs Hc. apply index_inv in Hc as [_ Hget].
  revert Hs Hget. generalize (Z.to_nat j). clear j.
  induction s as [|a s IH]; intros n Hs Hget; cbn [String.get] in Hget;
    [discriminate|].
  cbn [list_ascii_of_string forallb] in Hs.
  apply andb_prop in Hs as [Ha Hs]. destruct n as [|n].
  - now injection Hget as <-.
  - eauto.
Qed.

(** X30: in the Python dialect a [\x] followed by at most two hex digits
    [h], where two digits were read or the text after them does not go on
    with a hex digit, is the one token [\x] + [h] between the runs of plain
    bytes around it; this includes [\x] without any digit and [\x] at the
    end of the pattern. *)
Theorem Python_hex_escape (a h b : string) :
  all_plain a = true → all_plain b = true →
  all_hex_digits h = true → len h ≤ 2 → hex_run_ends h b = true →
  has_envelope Python (a +:+ backslash_s +:+ "x" +:+ h +:+ b) = false →
  tokenize Python (a +:+ backslash_s +:+ "x" +:+ h +:+ b)
  = Ok (run a ++ [backslash_s +:+ "x" +:+ h] ++ run b).
Proof.
  intros Ha Hb Hh Hlh Hends Henv.
  change (a +:+ backslash_s +:+ "x" +:+ h +:+ b)
    with (a +:+ String backslash (String "x" (h +:+ b))) in *.
  change (backslash_s +:+ "x" +:+ h) with (String backslash (String "x" h)).
  set (e := String backslash (String "x" "")).
  set (p := a +:+ String backslash (String "x" (h +:+ b))).
  pose proof (len_nonneg a) as Hla. pose proof (len_nonneg b) as Hlb.
  pose proof (len_nonneg h) as Hlh0.
  assert (Hle : len e = 2) by reflexivity.
  assert (Hlen : len p = len a + 2 + len h + len b)
    by (unfold p; rewrite !len_app, !len_String, len_app; lia).
  assert (Ep : p = a +:+ String backslash (String "x" (h +:+ b)))
    by reflexivity.
  assert (Hi0 : index p (len a) = Ok backslash)
    by (rewrite Ep; apply index_app_at).
  assert (Hi1 : index p (len a + 1) = Ok "x"%char).
  { rewrite Ep, index_app_right by lia. change 1 with (0 + 1).
    rewrite index_String_S by lia. apply index_String_0. }
  assert (Ep2 : p = (a +:+ e) +:+ h +:+ b)
    by (unfold p, e; rewrite !app_assoc_s; reflexivity).
  assert (Ep3 : p = (a +:+ e +:+ h) +:+ b)
    by (unfold p, e; rewrite !app_assoc_s; reflexivity).
  assert (Hih : ∀ j, len a + 2 ≤ j < len a + 2 + len h →
                     ∃ c, index p j = Ok c ∧ isHexDigit c = true).
  { intros j Hj. destruct (index_ok h (j - len a - 2)) as [c Hc]; [lia|].
    exists c. split; [|exact (forallb_index _ _ _ _ Hh Hc)].
    rewrite Ep2. replace j with (len (a +:+ e) + (j - len a - 2))
      by (rewrite len_app; lia).
    rewrite index_app_right, index_app_left by lia. exact Hc. }
  assert (Hstop : len h = 2 ∨ len a + 2 + len h = len p
                  ∨ ∃ c, index p (len a + 2 + len h) = Ok c
                         ∧ isHexDigit c = false).
  { unfold hex_run_ends in Hends. apply orb_true_iff in Hends as [H2|Hb0].
    - left. now apply Z.eqb_eq.
    - right. destruct b as [|c b'].
      + left. rewrite len_empty in Hlen. lia.
      + right. exists c. split; [|now apply negb_true_iff].
        rewrite Ep3.
        replace (len a + 2 + len h) with (len (a +:+ e +:+ h))
          by (rewrite !len_app; lia).
        apply index_app_at. }
  assert (Htok : sub p (len a) (len a + 2 + len h) = e +:+ h).
  { replace p with (a +:+ (e +:+ h) +:+ b)
      by (unfold p, e; rewrite !app_assoc_s; reflexivity).
    replace (len a + 2 + len h) with (len a + len (e +:+ h))
      by (rewrite len_app; lia).
    apply sub_app_mid. }
  assert (Hsub : sub p (len a + 2 + len h) (len a + 2 + len h + len b) = b).
  { rewrite Ep3. replace (len a + 2 + len h) with (len (a +:+ e +:+ h))
      by (rewrite !len_app; lia).
    apply sub_app_tail. }
  assert (Hpre : pre_pass Python p = Ok ([], p)).
  { apply pre_pass_none; [assumption|]. intros c1 H0 _ _.
    destruct a as [|a0 a].
    - rewrite Ep, app_nil_l, index_String_0 in H0. discriminate.
    - pose proof (all_plain_first _ _ _ Ha ltac:(discriminate) H0).
      discriminate. }
  rewrite tokenize_unfold. fold p. rewrite Hpre. cbn [bind fst snd].
  replace (String.length p)
    with (String.length a
          + S (String.length b + (1 + String.length h)))%nat
    by (unfold len in Hlen; lia).
  rewrite plain_run;
    [| lia | fold (len a); lia
     | rewrite Z.add_0_l; fold (len a); rewrite Ep; now rewrite sub_app_head].
  rewrite !Z.add_0_l. fold (len a).
  replace (sub p 0 (len a)) with a by (rewrite Ep; now rewrite sub_app_head).
  rewrite app_nil_l.
  cbn [tokenize_loop idx]. destruct (Z.ltb_spec (len a) (len p)); [|lia].
  unfold iteration. cbn [idx]. rewrite Hi0. cbn [bind].
  rewrite (hex_escape_iteration p (len a) (len h)) by (assumption || lia).
  cbn [bind]. unfold goto. cbn [idx tokens cur]. rewrite Htok.
  replace (len a + 1 + len h + 1) with (len a + 2 + len h) by lia.
  rewrite plain_run; fold (len b); try lia; [|now rewrite Hsub].
  rewrite Hsub, app_nil_l.
  replace (len a + 2 + len h + len b) with (len p) by lia.
  rewrite loop_end. cbn [app]. rewrite <- app_assoc. reflexivity.
Qed.

Lemma Python_hex_escape_witness :
  tokenize Python ("a" +:+ backslash_s +:+ "x4g")
  = Ok ["a"; backslash_s +:+ "x4"; "g"].
Proof.
  apply (Python_hex_escape "a" "4" "g"); try reflexivity.
  unfold len. cbn. lia.
Defined.
